(** * db-benchmark-suite: the benchmark execution engine, embedded and verified

    A shallow embedding of the Go packages [generator], [benchmark] and
    [orchestrator].  Go's [int], [int64] and [time.Duration] are 64-bit
    two's-complement integers, modelled as [Z] with the wrap-around written
    out; [float64] is IEEE-754 binary64, modelled by the Standard Library's
    executable specification [SpecFloat] at precision 53; slices live in a
    store of backing arrays; maps are [gmap]s. *)

From Stdlib Require Import ZArith QArith Lia Sorting.Sorted Sorting.Permutation.
From Stdlib Require Import Floats.SpecFloat Strings.Ascii Reals Lra.
From stdpp Require Import base option list sorting gmap strings pretty.

(** ** Go integers *)

Module GoInt.
Local Open Scope Z_scope.

Definition min_int64 : Z := - 2 ^ 63.
Definition max_int64 : Z := 2 ^ 63 - 1.

(** Two's-complement wrap-around of 64-bit signed arithmetic. *)
Definition wrap64 (z : Z) : Z := (z + 2 ^ 63) mod 2 ^ 64 - 2 ^ 63.

Definition is_int64 (z : Z) : Prop := min_int64 <= z <= max_int64.

Definition in_int64 (z : Z) : bool := (min_int64 <=? z) && (z <=? max_int64).

Definition add64 (a b : Z) : Z := wrap64 (a + b).
Definition sub64 (a b : Z) : Z := wrap64 (a - b).
Definition mul64 (a b : Z) : Z := wrap64 (a * b).

(** Go's [/] on integers truncates toward zero; [min_int64 / -1] wraps. *)
Definition quot64 (a b : Z) : Z := wrap64 (Z.quot a b).

(** [len(s)] as a Go [int]. *)
Definition len {A} (l : list A) : Z := Z.of_nat (length l).

End GoInt.

(** ** float64 *)

Module Float64.
Local Open Scope Z_scope.

Definition prec : Z := 53.
Definition emax : Z := 1024.

Abbreviation float64 := spec_float.

Definition is_float64 (f : float64) : Prop := valid_binary prec emax f = true.

Definition mul : float64 -> float64 -> float64 := SFmul prec emax.
Definition div : float64 -> float64 -> float64 := SFdiv prec emax.
Definition leb : float64 -> float64 -> bool := SFleb.

(** The conversion [float64(n)] of an integer: round to nearest, ties to even. *)
Definition of_int (n : Z) : float64 := binary_normalize prec emax n 0 false.

(** A decimal constant [num/den], rounded once to the nearest float64, as the
    Go compiler converts an untyped constant such as [0.95]. *)
Definition lit (num den : Z) : float64 := div (of_int num) (of_int den).

Definition zero : float64 := S754_zero false.
Definition one : float64 := of_int 1.

(** Truncation toward zero of a finite value. *)
Definition trunc (f : float64) : option Z :=
  match f with
  | S754_zero _ => Some 0
  | S754_finite s m e =>
      let a := Z.shiftl (Z.pos m) e in
      Some (if s then - a else a)
  | S754_infinity _ | S754_nan => None
  end.

(** The conversion [int(f)]: the fraction is discarded; when the value does
    not fit the integer type the Go specification leaves the result to the
    implementation, which [None] stands for. *)
Definition to_int (f : float64) : option Z :=
  match trunc f with
  | Some z => if GoInt.in_int64 z then Some z else None
  | None => None
  end.

End Float64.

(** ** Outcomes of a Go call *)

(** A call returns a value, panics, has a result the language leaves to the
    implementation, or is still running when the fuel given to a loop that
    the source does not bound is used up. *)
Inductive outcome (A : Type) : Type :=
  | Returns (a : A)
  | Panics
  | Unspecified
  | OutOfFuel.
Arguments Returns {A} a.
Arguments Panics {A}.
Arguments Unspecified {A}.
Arguments OutOfFuel {A}.

(** State passing for code that reads the clock, draws random numbers or
    calls the storage target. *)
Definition State (S A : Type) : Type := S -> A * S.

Definition ret {S A} (a : A) : State S A := fun s => (a, s).

Definition bind {S A B} (m : State S A) (k : A -> State S B) : State S B :=
  fun s => let '(a, s') := m s in k a s'.

Notation "x <-- m ;; k" := (bind m (fun x => k))
  (at level 100, m at next level, right associativity).
Notation "m ;;; k" := (bind m (fun _ => k))
  (at level 100, right associativity).

(** [for i := 0; i < n; i++ { body }] collecting what each round yields. *)
Fixpoint repeatM {S A} (n : nat) (body : State S A) : State S (list A) :=
  match n with
  | O => ret []
  | S n' => a <-- body ;; l <-- repeatM n' body ;; ret (a :: l)
  end.

(** ** Package benchmark: statistics over durations *)

Module Stats.
Import GoInt Float64.
Local Open Scope Z_scope.

(** [time.Duration]: a count of nanoseconds in an [int64]. *)
Abbreviation Duration := Z.

Definition Millisecond : Duration := 1000000.

(** Slices of durations are references to backing arrays held in a store. *)
Abbreviation loc := positive.
Abbreviation store := (gmap positive (list Z)).

(** The contents a slice value denotes; an unallocated one is the nil slice. *)
Definition contents (h : store) (s : loc) : list Duration := default [] (h !! s).

(** [make([]time.Duration, n)]: a fresh zeroed backing array. *)
Definition make (n : nat) (h : store) : loc * store :=
  let s := fresh (dom h) in (s, <[s := replicate n 0]> h).

(** [copy(dst, src)] overwrites the first [min(len(dst), len(src))] elements. *)
Definition copy (dst src : loc) (h : store) : store :=
  let d := contents h dst in
  let s := contents h src in
  let n := Nat.min (length d) (length s) in
  <[dst := take n s ++ drop n d]> h.

(** [sort.Slice(s, func(i, j int) bool { return s[i] < s[j] })]: the backing
    array is permuted in place into ascending order. *)
Definition sort_Slice (s : loc) (h : store) : store :=
  <[s := merge_sort Z.le (contents h s)]> h.

Definition sum_durations (durations : list Duration) : Duration :=
  fold_left add64 durations 0.

Definition AvgDuration (durations : list Duration) : Duration :=
  if len durations =? 0 then 0
  else quot64 (sum_durations durations) (len durations).

Definition MinDuration (durations : list Duration) : Duration :=
  match durations with
  | [] => 0
  | d0 :: rest => fold_left (fun result d => if d <? result then d else result) rest d0
  end.

Definition MaxDuration (durations : list Duration) : Duration :=
  match durations with
  | [] => 0
  | d0 :: rest => fold_left (fun result d => if d >? result then d else result) rest d0
  end.

(** [index := int(float64(len(sorted)) * p)]. *)
Definition rank (n : Z) (p : float64) : option Z := to_int (mul (of_int n) p).

Definition Percentile (durations : loc) (p : float64) (h : store)
  : outcome Duration * store :=
  if len (contents h durations) =? 0 then (Returns 0, h)
  else
    let '(sorted, h) := make (length (contents h durations)) h in
    let h := copy sorted durations h in
    let h := sort_Slice sorted h in
    match rank (len (contents h sorted)) p with
    | None => (Unspecified, h)
    | Some index =>
        let index :=
          if index >=? len (contents h sorted) then len (contents h sorted) - 1
          else index in
        if index <? 0 then (Panics, h)
        else match contents h sorted !! Z.to_nat index with
             | Some d => (Returns d, h)
             | None => (Panics, h)
             end
    end.

(** A call on a slice known by its value: the slice is placed in an otherwise
    empty store. *)
Definition Percentile_of (durations : list Duration) (p : float64) : outcome Duration :=
  fst (Percentile 1%positive p {[ 1%positive := durations ]}).

Definition ms (l : list Z) : list Duration := map (fun k => k * Millisecond) l.

End Stats.

(** ** The runtime the packages call into

    [math/rand], [time], [math] and [fmt] are not part of the repository; what
    the code uses of them is taken as an interface. *)

Abbreviation Time := Z.

Class Runtime : Type := {
  (** the state of a [*rand.Rand] *)
  Rand : Type;
  rand_NewSource : Z -> Rand;
  rand_Float64 : State Rand Float64.float64;
  rand_Intn : Z -> State Rand Z;
  rand_Int63 : State Rand Z;
  rand_Int63n : Z -> State Rand Z;
  (** the wall clock behind [time.Now], read in nanoseconds since the epoch *)
  Clock : Type;
  time_Now : State Clock Time;
  (** [t.AddDate(0, 0, days)] in the local time zone *)
  time_AddDays : Z -> Time -> Time;
  (** [t.Format("2006-01-02")] *)
  time_FormatDate : Time -> string;
  math_Log : Float64.float64 -> Float64.float64;
  (** [int(f)] where the language leaves it to the implementation *)
  impl_int : Float64.float64 -> Z;
  (** the verb [%.2f] *)
  fmt_f2 : Float64.float64 -> string;
}.

(** ** Package generator *)

Module Generator.
Import GoInt Float64.
Local Open Scope Z_scope.

Record Event : Type := {
  ID : string;
  UserID : Z;
  EventType : string;
  Payload : string;
  CreatedAt : Time;
}.

Definition eventTypes : list string :=
  ["page_view"; "button_click"; "form_submit"; "api_call"; "error";
   "login"; "logout"; "purchase"; "add_to_cart"; "search"]%string.

Definition Second : Z := 1000000000.
Definition Minute : Z := 60 * Second.
Definition Hour : Z := 60 * Minute.

(** [t.Add(d)]. *)
Definition time_Add (d : Z) (t : Time) : Time := t + d.

(** The verbs [%d] and [%t]. *)
Definition fmt_d (z : Z) : string := pretty z.
Definition fmt_t (b : bool) : string := if b then "true"%string else "false"%string.

(** A double-quoted JSON string. *)
Definition dq : string := String (Ascii.ascii_of_nat 34) EmptyString.
Definition quoted (s : string) : string := dq +:+ s +:+ dq.

Definition charset : string :=
  "abcdefghijklmnopqrstuvwxyzABCDEFGHIJKLMNOPQRSTUVWXYZ0123456789"%string.

Section WithRuntime.
Context {RT : Runtime}.

Record Generator : Type := {
  totalEvents : Z;
  batchSize : Z;
  current : Z;
  rand : Rand;
}.

(** What the generator's goroutine works on: the generator and the clock. *)
Definition Gen (A : Type) : Type := State (Generator * Clock) A.

Definition with_rand {A} (m : State Rand A) : Gen A :=
  fun '(g, c) =>
    let '(a, r) := m (rand g) in
    (a, ({| totalEvents := totalEvents g; batchSize := batchSize g;
            current := current g; rand := r |}, c)).

Definition now : Gen Time :=
  fun '(g, c) => let '(t, c') := time_Now c in (t, (g, c')).

Definition New (totalEvents batchSize : Z) : State Clock Generator :=
  t <-- time_Now ;;
  ret {| totalEvents := totalEvents; batchSize := batchSize; current := 0;
         rand := rand_NewSource t |}.

(** [int(f)] on a value that may not fit. *)
Definition int_of (f : float64) : Z :=
  match to_int f with
  | Some z => z
  | None => impl_int f
  end.

Definition randomString (length : Z) : Gen string :=
  b <-- repeatM (Z.to_nat length)
          (k <-- with_rand (rand_Intn (Z.of_nat (String.length charset))) ;;
           ret (default Ascii.zero (String.get (Z.to_nat k) charset))) ;;
  ret (String.string_of_list_ascii b).

Definition generatePayload : Gen string :=
  idx <-- with_rand (rand_Intn 5) ;;
  match idx with
  | 0 =>
      s <-- randomString 32 ;;
      ret ("{" +:+ quoted "page" +:+ ": " +:+ quoted "/home" +:+ ", "
           +:+ quoted "referrer" +:+ ": " +:+ quoted "google.com" +:+ ", "
           +:+ quoted "session_id" +:+ ": " +:+ quoted s +:+ "}")
  | 1 =>
      a <-- with_rand (rand_Int63n 10000) ;;
      f <-- with_rand rand_Float64 ;;
      ret ("{" +:+ quoted "button" +:+ ": " +:+ quoted "checkout" +:+ ", "
           +:+ quoted "product_id" +:+ ": " +:+ fmt_d a +:+ ", "
           +:+ quoted "price" +:+ ": " +:+ fmt_f2 (mul f (of_int 1000)) +:+ "}")
  | 2 =>
      a <-- with_rand (rand_Intn 20) ;;
      b <-- with_rand (rand_Intn 2) ;;
      ret ("{" +:+ quoted "form" +:+ ": " +:+ quoted "contact" +:+ ", "
           +:+ quoted "fields" +:+ ": " +:+ fmt_d a +:+ ", "
           +:+ quoted "success" +:+ ": " +:+ fmt_t (b =? 1)%Z +:+ "}")
  | 3 =>
      a <-- with_rand (rand_Intn 299) ;;
      ret ("{" +:+ quoted "endpoint" +:+ ": " +:+ quoted "/api/users" +:+ ", "
           +:+ quoted "method" +:+ ": " +:+ quoted "POST" +:+ ", "
           +:+ quoted "status" +:+ ": " +:+ fmt_d (add64 200 a) +:+ "}")
  | _ =>
      a <-- with_rand (rand_Intn 9999) ;;
      b <-- with_rand (rand_Intn 5) ;;
      ret ("{" +:+ quoted "error_code" +:+ ": " +:+ quoted ("ERR_" +:+ fmt_d a) +:+ ", "
           +:+ quoted "message" +:+ ": " +:+ quoted "Connection timeout" +:+ ", "
           +:+ quoted "retry" +:+ ": " +:+ fmt_d b +:+ "}")
  end%string.

(** The rate parameter [lambda = 0.05]. *)
Definition lambda : float64 := lit 5 100.

(** [fmt.Sprintf("evt_%d_%d", nanos, r)]. *)
Definition event_id (nanos r : Z) : string :=
  ("evt_" +:+ fmt_d nanos +:+ "_" +:+ fmt_d r)%string.

Definition generateEvent : Gen Event :=
  u <-- with_rand rand_Float64 ;;
  let daysAgo :=
    int_of (div (SFopp (math_Log (SFsub prec emax one u))) lambda) in
  let daysAgo := if daysAgo >? 89 then 89 else daysAgo in
  hoursAgo <-- with_rand (rand_Intn 24) ;;
  minutesAgo <-- with_rand (rand_Intn 60) ;;
  secondsAgo <-- with_rand (rand_Intn 60) ;;
  t <-- now ;;
  let createdAt :=
    time_Add (mul64 (sub64 0 secondsAgo) Second)
      (time_Add (mul64 (sub64 0 minutesAgo) Minute)
         (time_Add (mul64 (sub64 0 hoursAgo) Hour)
            (time_AddDays (sub64 0 daysAgo) t))) in
  r <-- with_rand rand_Int63 ;;
  uid <-- with_rand (rand_Int63n 1000000) ;;
  ty <-- with_rand (rand_Intn (len eventTypes)) ;;
  payload <-- generatePayload ;;
  ret {| ID := event_id createdAt r;
         UserID := uid;
         EventType := default EmptyString (eventTypes !! Z.to_nat ty);
         Payload := payload;
         CreatedAt := createdAt |}.

Definition advance (size : Z) : Gen unit :=
  fun '(g, c) =>
    (tt, ({| totalEvents := totalEvents g; batchSize := batchSize g;
             current := add64 (current g) size; rand := rand g |}, c)).

(** The goroutine of [Generate]: the batches it sends on the channel, in
    order, until it closes the channel.  [make([]Event, size)] panics on a
    negative size; a batch size of zero never advances the cursor. *)
Fixpoint Generate_loop (fuel : nat) (sent : list (list Event)) (s : Generator * Clock)
  : outcome (list (list Event)) * (Generator * Clock) :=
  if current (fst s) <? totalEvents (fst s) then
    match fuel with
    | O => (OutOfFuel, s)
    | S fuel' =>
        let remaining := sub64 (totalEvents (fst s)) (current (fst s)) in
        let size := batchSize (fst s) in
        let size := if remaining <? size then remaining else size in
        if size <? 0 then (Panics, s)
        else
          let '(batch, s) := repeatM (Z.to_nat size) generateEvent s in
          let '(_, s) := advance size s in
          Generate_loop fuel' (sent ++ [batch]) s
    end
  else (Returns sent, s).

Definition Generate (fuel : nat) : Gen (outcome (list (list Event))) :=
  Generate_loop fuel [].

End WithRuntime.
End Generator.

(** ** Package benchmark: the runner *)

Module Benchmark.
Import GoInt Float64 Stats Generator.
Local Open Scope Z_scope.

(** A Go [error]; [None] is [nil]. *)
Abbreviation error := (option string).

(** The part of the [Repository] interface the runner calls.  The rows that
    [GetEventStats] returns are discarded by the runner and left out. *)
Class Repository (Repo : Type) : Type := {
  InsertBatch : list Event -> State Repo error;
  GetEventStats : Time -> Time -> State Repo error;
}.

Record Runner : Type := {
  EventCount : Z;
  BatchSize : Z;
  Workers : Z;
  QueryIterations : Z;
  WarmupIterations : Z;
  PreloadCount : Z;
}.

Module InsertResult.
Record t : Type := {
  TotalEvents : Z;
  Duration : Z;
  Throughput : float64;
  ErrorCount : Z;
  BatchSize : Z;
  WorkerCount : Z;
}.
End InsertResult.

Module QueryResult.
Record t : Type := {
  QueryName : string;
  Iterations : Z;
  AvgDuration : Z;
  MinDuration : Z;
  MaxDuration : Z;
  P50Duration : Z;
  P95Duration : Z;
  P99Duration : Z;
  ErrorCount : Z;
  DateRange : string;
}.
End QueryResult.

(** What a run does to the outside, in the order it happens: the calls on the
    storage target with their results, and the lines logged. *)
Inductive observation : Type :=
  | InsertCall (worker : nat) (batch : list Event) (err : error)
  | QueryCall (measured : bool) (start end_ : Time) (err : error)
  | Logged (line : string).

Section WithRepository.
Context {RT : Runtime} {Repo : Type} {RP : Repository Repo}.

Record World : Type := {
  clock : Clock;
  repo : Repo;
  history : list observation;
}.

Definition on_clock {A} (m : State Clock A) : State World A :=
  fun w => let '(a, c) := m (clock w) in
           (a, {| clock := c; repo := repo w; history := history w |}).

Definition on_repo {A} (m : State Repo A) : State World A :=
  fun w => let '(a, r) := m (repo w) in
           (a, {| clock := clock w; repo := r; history := history w |}).

Definition observe (o : observation) : State World unit :=
  fun w => (tt, {| clock := clock w; repo := repo w; history := history w ++ [o] |}).

Definition log_Printf (line : string) : State World unit := observe (Logged line).

(** [t.Sub(u)] saturates at the largest and smallest [Duration]. *)
Definition time_Sub (t u : Time) : Z := Z.max min_int64 (Z.min max_int64 (t - u)).

Definition time_Since (start : Time) : State World Z :=
  t <-- on_clock time_Now ;; ret (time_Sub t start).

(** [d.Seconds()]: [float64(d / Second) + float64(d % Second) / 1e9]. *)
Definition Seconds (d : Z) : float64 :=
  SFadd prec emax (of_int (Z.quot d Second))
    (div (of_int (Z.rem d Second)) (of_int 1000000000)).

(** *** The insert path *)

(** A worker of [parallelInsert] is about to receive from the channel, is
    inside [InsertBatch] with the batch it received, or has left its loop. *)
Inductive worker : Type :=
  | Receiving
  | Inserting (batch : list Event)
  | Left.

Record Pool : Type := {
  batches : list (list Event);
  workers : list worker;
  totalInserted : Z;
  totalErrors : Z;
}.

Definition set_worker (i : nat) (st : worker) (p : Pool) : Pool :=
  {| batches := batches p; workers := <[i := st]> (workers p);
     totalInserted := totalInserted p; totalErrors := totalErrors p |}.

(** One step of worker [i] in [consumeBatches]: it receives the next batch
    (or leaves, the channel being closed and drained), or its call of
    [InsertBatch] completes and the shared counters are updated. *)
Definition consume_step (total logInterval : Z) (i : nat) (p : Pool)
  : State World Pool :=
  match workers p !! i with
  | Some Receiving =>
      match batches p with
      | [] => ret (set_worker i Left p)
      | batch :: rest =>
          ret {| batches := rest; workers := <[i := Inserting batch]> (workers p);
                 totalInserted := totalInserted p; totalErrors := totalErrors p |}
      end
  | Some (Inserting batch) =>
      err <-- on_repo (InsertBatch batch) ;;
      observe (InsertCall i batch err) ;;;
      match err with
      | Some e =>
          (if Z.of_nat i >=? 0
           then log_Printf ("Worker " +:+ fmt_d (Z.of_nat i) +:+ " insert error: " +:+ e)
           else ret tt) ;;;
          ret {| batches := batches p; workers := <[i := Receiving]> (workers p);
                 totalInserted := totalInserted p;
                 totalErrors := add64 (totalErrors p) 1 |}
      | None =>
          let prev := totalInserted p in
          let inserted := add64 (totalInserted p) (len batch) in
          (if (logInterval >? 0)
              && negb (Z.quot prev logInterval =? Z.quot inserted logInterval)
           then log_Printf ("Insert progress: " +:+ fmt_d inserted +:+ " / "
                            +:+ fmt_d total +:+ " events")
           else ret tt) ;;;
          ret {| batches := batches p; workers := <[i := Receiving]> (workers p);
                 totalInserted := inserted; totalErrors := totalErrors p |}
      end
  | Some Left | None => ret p
  end.

(** The workers run in the interleaving a schedule gives: each entry names
    the worker that takes the next step. *)
Fixpoint run_pool (total logInterval : Z) (sched : list nat) (p : Pool)
  : State World Pool :=
  match sched with
  | [] => ret p
  | i :: sched' =>
      p' <-- consume_step total logInterval i p ;;
      run_pool total logInterval sched' p'
  end.

Definition all_left (p : Pool) : bool :=
  forallb (fun st => match st with Left => true | _ => false end) (workers p).

Definition lift_outcome {A B} (o : outcome A) : outcome B :=
  match o with
  | Returns _ | Panics => Panics
  | Unspecified => Unspecified
  | OutOfFuel => OutOfFuel
  end.

(** [parallelInsert]: the generator's goroutine is run ahead of the workers
    ([fuel] bounds its loop), which loses nothing, since the generator owns
    its random source and the workers only see the batches in channel
    order; [sched] is the interleaving of the workers.  [wg.Wait] returns
    once every worker has left; with no worker it returns at once, and a
    negative channel capacity panics.  A panic of the generator's
    goroutine, which a negative batch size brings about, ends the process;
    it is reported as [Panics] like a panic of the call itself. *)
Definition parallelInsert (r : Runner) (count logInterval : Z)
    (fuel : nat) (sched : list nat) : State World (outcome (Z * Z)) :=
  gen <-- on_clock (Generator.New count (BatchSize r)) ;;
  if mul64 (Workers r) 2 <? 0 then ret Panics
  else if Workers r <=? 0 then ret (Returns (0, 0))
  else
    fun w =>
      let '(out, (_, c)) := Generate fuel (gen, clock w) in
      let w := {| clock := c; repo := repo w; history := history w |} in
      match out with
      | Returns bs =>
          let p := {| batches := bs;
                      workers := replicate (Z.to_nat (Workers r)) Receiving;
                      totalInserted := 0; totalErrors := 0 |} in
          let '(p, w) := run_pool count logInterval sched p w in
          if all_left p then (Returns (totalInserted p, totalErrors p), w)
          else (OutOfFuel, w)
      | _ => (lift_outcome out, w)
      end.

Definition Preload (r : Runner) (fuel : nat) (sched : list nat)
  : State World (outcome error) :=
  if PreloadCount r <=? 0 then ret (Returns None)
  else
    out <-- parallelInsert r (PreloadCount r) (mul64 (BatchSize r) 50) fuel sched ;;
    match out with
    | Returns (inserted, errors) =>
        log_Printf ("Preload complete: " +:+ fmt_d inserted +:+ " events inserted, "
                    +:+ fmt_d errors +:+ " errors") ;;;
        if (errors >? 0) && (inserted =? 0)
        then ret (Returns (Some ("preload failed: all " +:+ fmt_d errors
                                 +:+ " batches errored")%string))
        else ret (Returns None)
    | _ => ret (lift_outcome out)
    end.

Definition RunInsert (r : Runner) (fuel : nat) (sched : list nat)
  : State World (outcome InsertResult.t) :=
  start <-- on_clock time_Now ;;
  out <-- parallelInsert r (EventCount r) (mul64 (BatchSize r) 10) fuel sched ;;
  match out with
  | Returns (inserted, errors) =>
      duration <-- time_Since start ;;
      ret (Returns
        {| InsertResult.TotalEvents := EventCount r;
           InsertResult.Duration := duration;
           InsertResult.Throughput := div (of_int inserted) (Seconds duration);
           InsertResult.ErrorCount := errors;
           InsertResult.BatchSize := BatchSize r;
           InsertResult.WorkerCount := Workers r |})
  | _ => ret (lift_outcome out)
  end.

(** *** The query path *)

Fixpoint measure_loop (n : nat) (start end_ : Time) (durations : list Z) (errors : Z)
  : State World (list Z * Z) :=
  match n with
  | O => ret (durations, errors)
  | S n' =>
      queryStart <-- on_clock time_Now ;;
      err <-- on_repo (GetEventStats start end_) ;;
      observe (QueryCall true start end_ err) ;;;
      d <-- time_Since queryStart ;;
      match err with
      | Some e =>
          log_Printf ("Query error: " +:+ e) ;;;
          measure_loop n' start end_ durations (add64 errors 1)
      | None => measure_loop n' start end_ (durations ++ [d]) errors
      end
  end.

Definition measureQuery (r : Runner) (start end_ : Time) : State World (list Z * Z) :=
  measure_loop (Z.to_nat (QueryIterations r)) start end_ [] 0.

Definition warmup_call (start end_ : Time) : State World unit :=
  err <-- on_repo (GetEventStats start end_) ;;
  observe (QueryCall false start end_ err).

Definition p50 : float64 := lit 50 100.
Definition p95 : float64 := lit 95 100.
Definition p99 : float64 := lit 99 100.

Definition runQuery (r : Runner) (name : string) (start end_ : Time)
  : State World (outcome QueryResult.t) :=
  repeatM (Z.to_nat (WarmupIterations r)) (warmup_call start end_) ;;;
  measured <-- measureQuery r start end_ ;;
  let '(durations, errors) := measured in
  if len durations =? 0 then
    ret (Returns
      {| QueryResult.QueryName := name; QueryResult.Iterations := 0;
         QueryResult.AvgDuration := 0; QueryResult.MinDuration := 0;
         QueryResult.MaxDuration := 0; QueryResult.P50Duration := 0;
         QueryResult.P95Duration := 0; QueryResult.P99Duration := 0;
         QueryResult.ErrorCount := errors; QueryResult.DateRange := EmptyString |})
  else
    match Percentile_of durations p50, Percentile_of durations p95,
          Percentile_of durations p99 with
    | Returns d50, Returns d95, Returns d99 =>
        ret (Returns
          {| QueryResult.QueryName := name;
             QueryResult.Iterations := len durations;
             QueryResult.AvgDuration := AvgDuration durations;
             QueryResult.MinDuration := MinDuration durations;
             QueryResult.MaxDuration := MaxDuration durations;
             QueryResult.P50Duration := d50;
             QueryResult.P95Duration := d95;
             QueryResult.P99Duration := d99;
             QueryResult.ErrorCount := errors;
             QueryResult.DateRange :=
               (time_FormatDate start +:+ " to " +:+ time_FormatDate end_)%string |})
    | Returns _, Returns _, o | Returns _, o, _ | o, _, _ => ret (lift_outcome o)
    end.

Definition scenarios (now : Time) : list (string * Time) :=
  [("1_hour", time_Add (-1 * Hour) now);
   ("1_day", time_Add (-24 * Hour) now);
   ("1_week", time_Add (-7 * 24 * Hour) now);
   ("1_month", time_Add (-30 * 24 * Hour) now)]%string.

Fixpoint run_scenarios (r : Runner) (now : Time) (ss : list (string * Time))
    (results : gmap string QueryResult.t)
  : State World (outcome (gmap string QueryResult.t)) :=
  match ss with
  | [] => ret (Returns results)
  | (name, start) :: ss' =>
      out <-- runQuery r name start now ;;
      match out with
      | Returns q => run_scenarios r now ss' (<[name := q]> results)
      | _ => ret (lift_outcome out)
      end
  end.

Definition RunQueries (r : Runner) : State World (outcome (gmap string QueryResult.t)) :=
  now <-- on_clock time_Now ;;
  run_scenarios r now (scenarios now) ∅.

End WithRepository.
End Benchmark.

(** ** Package orchestrator: waiting for a service *)

Module Orchestrator.
Import GoInt Generator.
Local Open Scope Z_scope.

Abbreviation error := (option string).

Record DBService : Type := {
  Name : string;
  Service : string;
  ReadyCheck : list string;
}.

Definition DefaultServices : list DBService :=
  [ {| Name := "postgres"; Service := "postgres";
       ReadyCheck := ["docker"; "exec"; "benchmark-postgres"; "pg_isready"; "-U";
                      "benchmark"] |};
    {| Name := "mongodb"; Service := "mongodb";
       ReadyCheck := ["docker"; "exec"; "benchmark-mongodb"; "mongosh"; "--quiet";
                      "--eval"; "db.adminCommand('ping').ok"] |};
    {| Name := "clickhouse"; Service := "clickhouse";
       ReadyCheck := ["docker"; "exec"; "benchmark-clickhouse"; "clickhouse-client";
                      "--query"; "SELECT 1"] |};
    {| Name := "cassandra"; Service := "cassandra";
       ReadyCheck := ["docker"; "exec"; "benchmark-cassandra"; "cqlsh"; "-e";
                      "DESCRIBE KEYSPACES"] |} ]%string.

Definition ServiceByName (name : string) : option DBService :=
  find (fun svc => String.eqb (Name svc) name) DefaultServices.

(** The three delays of [WaitReady]. *)
Definition grace : Z := 5 * Second.
Definition deadline : Z := 60 * Second.
Definition interval : Z := 2 * Second.

(** A [context.Context]: when its [Done] channel is closed, if ever, and the
    error [Err] then reports. *)
Record Context : Type := {
  done_at : option Time;
  ctx_Err : string;
}.

(** What [WaitReady] runs against: the context, the readiness probe (the
    [k]-th run of [runReadyCheck], started at a given instant, takes some
    time and succeeds or fails) and the pick [select] makes among several
    ready cases. *)
Record Surroundings : Type := {
  ctx : Context;
  probe : nat -> Time -> nat * error;
  pick : nat -> nat;
}.

Inductive ready_case : Type := CtxDone | DeadlinePassed | Tick.

(** The two errors [WaitReady] returns: the context's, and its own timeout. *)
Inductive failure : Type :=
  | Cancelled (reason : string)
  | TimedOut (message : string).

(** The polling loop between two [select]s: the instant, the instant the
    deadline timer fires, the ticker's next firing and whether a tick waits
    in its channel, and the probes started so far. *)
Record Polling : Type := {
  at_time : Time;
  deadline_at : Time;
  next_tick : Time;
  tick_waiting : bool;
  started : list Time;
  selects : nat;
}.

(** What a call of [WaitReady] came to: when it returned, the error it
    returned ([None] for [nil]) and when each probe was started. *)
Record Returned : Type := {
  returned_at : Time;
  err : option failure;
  probes : list Time;
}.

Definition is_done (c : Context) (t : Time) : bool :=
  match done_at c with
  | Some d => d <=? t
  | None => false
  end.

(** The ticker fires every [interval]; its channel holds one tick and further
    ticks are dropped while that one waits. *)
Definition fire (p : Polling) : Polling :=
  if next_tick p <=? at_time p then
    {| at_time := at_time p; deadline_at := deadline_at p;
       next_tick := next_tick p + interval * ((at_time p - next_tick p) / interval + 1);
       tick_waiting := true; started := started p; selects := selects p |}
  else p.

Definition ready (c : Context) (p : Polling) : list ready_case :=
  (if is_done c (at_time p) then [CtxDone] else [])
  ++ (if deadline_at p <=? at_time p then [DeadlinePassed] else [])
  ++ (if tick_waiting p then [Tick] else []).

Definition next_event (c : Context) (p : Polling) : Time :=
  let t := Z.min (deadline_at p) (next_tick p) in
  match done_at c with
  | Some d => Z.min d t
  | None => t
  end.

Definition sleep_until (t : Time) (p : Polling) : Polling :=
  {| at_time := t; deadline_at := deadline_at p; next_tick := next_tick p;
     tick_waiting := tick_waiting p; started := started p; selects := selects p |}.

(** [select]: when no case is ready the goroutine sleeps until the first
    one is; among several ready cases one is picked. *)
Definition select (s : Surroundings) (p : Polling) : option ready_case * Polling :=
  let p := fire p in
  let p := match ready (ctx s) p with
           | [] => fire (sleep_until (next_event (ctx s) p) p)
           | _ => p
           end in
  let cases := ready (ctx s) p in
  (cases !! (pick s (selects p) mod length cases)%nat,
   {| at_time := at_time p; deadline_at := deadline_at p; next_tick := next_tick p;
      tick_waiting := tick_waiting p; started := started p;
      selects := S (selects p) |}).

Definition timeout_error (svc : DBService) : string :=
  (Name svc +:+ ": readiness timeout after 60s")%string.

Fixpoint poll (fuel : nat) (s : Surroundings) (svc : DBService) (p : Polling)
  : outcome Returned :=
  match fuel with
  | O => OutOfFuel
  | S fuel' =>
      let '(c, p) := select s p in
      match c with
      | None => OutOfFuel
      | Some CtxDone =>
          Returns {| returned_at := at_time p; err := Some (Cancelled (ctx_Err (ctx s)));
                     probes := started p |}
      | Some DeadlinePassed =>
          Returns {| returned_at := at_time p; err := Some (TimedOut (timeout_error svc));
                     probes := started p |}
      | Some Tick =>
          let '(took, e) := probe s (length (started p)) (at_time p) in
          let p := {| at_time := at_time p + Z.of_nat took;
                      deadline_at := deadline_at p; next_tick := next_tick p;
                      tick_waiting := false; started := started p ++ [at_time p];
                      selects := selects p |} in
          match e with
          | None => Returns {| returned_at := at_time p; err := None;
                               probes := started p |}
          | Some _ => poll fuel' s svc p
          end
      end
  end.

(** [WaitReady], called at the instant [t0].  Its first [select] waits for
    the grace delay or for the context, whichever comes first (either, when
    they fall due together); then the deadline timer and the ticker are
    started and the loop polls.  Timers fire on time and a [select] takes
    no time: what is measured is the time the code itself lets pass. *)
Definition WaitReady (fuel : nat) (s : Surroundings) (svc : DBService) (t0 : Time)
  : outcome Returned :=
  let cancelled :=
    match done_at (ctx s) with
    | Some d =>
        if d <? t0 + grace then Some (Z.max t0 d)
        else if (d =? t0 + grace) && (pick s 0 mod 2 =? 1)%nat then Some d
        else None
    | None => None
    end in
  match cancelled with
  | Some t =>
      Returns {| returned_at := t; err := Some (Cancelled (ctx_Err (ctx s)));
                 probes := [] |}
  | None =>
      let t1 := t0 + grace in
      poll fuel s svc
        {| at_time := t1; deadline_at := t1 + deadline; next_tick := t1 + interval;
           tick_waiting := false; started := []; selects := 1 |}
  end.

End Orchestrator.

(** ** Concrete surroundings to run the model on *)

Module Sample.
Import GoInt Float64 Stats Generator Benchmark.
Local Open Scope Z_scope.

(** A linear congruential random source over 63 bits. *)
Definition lcg (r : Z) : Z :=
  (r * 6364136223846793005 + 1442695040888963407) mod 2 ^ 63.

Definition Day : Z := 24 * Hour.

(** A deterministic runtime: the random source is [lcg], the clock advances
    by a microsecond at each reading, days are UTC days, a date is rendered
    as its day number and the logarithm is a stand-in. *)
Definition sample_runtime : Runtime := {|
  Rand := Z;
  rand_NewSource := fun seed => seed mod 2 ^ 63;
  rand_Float64 := fun r => (div (of_int (lcg r / 2 ^ 10)) (of_int (2 ^ 53)), lcg r);
  rand_Intn := fun n r => (lcg r mod n, lcg r);
  rand_Int63 := fun r => (lcg r, lcg r);
  rand_Int63n := fun n r => (lcg r mod n, lcg r);
  Clock := Z;
  time_Now := fun c => (c, c + 1000);
  time_AddDays := fun d t => t + d * Day;
  time_FormatDate := fun t => ("day " +:+ pretty (t / Day))%string;
  math_Log := fun f => SFopp (SFsub prec emax one f);
  impl_int := fun _ => min_int64;
  fmt_f2 := fun f => pretty (default 0 (trunc f));
|}.

(** The instant the sample clock starts at. *)
Definition clock0 : @Clock sample_runtime := 1700000000000000000.

(** A runtime whose clock has not advanced between two readings and whose
    random source repeats its draw. *)
Definition stuck_runtime : Runtime := {|
  Rand := unit;
  rand_NewSource := fun _ => tt;
  rand_Float64 := fun r => (zero, r);
  rand_Intn := fun _ r => (0, r);
  rand_Int63 := fun r => (42, r);
  rand_Int63n := fun _ r => (0, r);
  Clock := unit;
  time_Now := fun c => (1700000000000000000, c);
  time_AddDays := fun d t => t + d * Day;
  time_FormatDate := fun t => ("day " +:+ pretty (t / Day))%string;
  math_Log := fun f => SFopp (SFsub prec emax one f);
  impl_int := fun _ => min_int64;
  fmt_f2 := fun f => pretty (default 0 (trunc f));
|}.



(** The storage target of the runner's tests: it counts its calls, every
    second [InsertBatch] fails and every [GetEventStats] succeeds. *)
Definition every_second_fails : Repository Z := {|
  InsertBatch := fun _ n =>
    (if (n + 1) mod 2 =? 0 then Some "simulated error"%string else None, n + 1);
  GetEventStats := fun _ _ n => (None, n + 1);
|}.

(** A target on which every call fails. *)
Definition always_fails : Repository Z := {|
  InsertBatch := fun _ n => (Some "down"%string, n + 1);
  GetEventStats := fun _ _ n => (Some "down"%string, n + 1);
|}.

(** A target on which every third query fails. *)
Definition every_third_query_fails : Repository Z := {|
  InsertBatch := fun _ n => (None, n + 1);
  GetEventStats := fun _ _ n =>
    (if (n + 1) mod 3 =? 0 then Some "simulated error"%string else None, n + 1);
|}.

(** The durations 1ms, 2ms, ..., 100ms. *)
Definition ms_1_to_100 : list Duration := ms (map Z.of_nat (seq 1 100)).

(** A store holding one slice, at address 1. *)
Definition one_slice (ds : list Duration) : store := {[ 1%positive := ds ]}.

(** A run under [sample_runtime]: five events in batches of two. *)
Definition sample_batches : list (list Event) :=
  match fst (Generate (RT := sample_runtime) 5 (New 5 2 clock0)) with
  | Returns batches => batches
  | _ => []
  end.


(** A runner as the tests build it, and the world a sample run starts in. *)
Definition sample_runner : Runner :=
  {| EventCount := 100; BatchSize := 10; Workers := 1;
     QueryIterations := 5; WarmupIterations := 1; PreloadCount := 30 |}.

Definition sample_world : World (RT := sample_runtime) (Repo := Z) :=
  {| clock := clock0; repo := 0; history := [] |}.

(** The run of the runner's test: 100 events in batches of 10, one worker,
    on a target where every second batch fails.  The worker takes two steps
    for each batch and one more to leave. *)
Definition test_runner : Runner :=
  {| EventCount := 100; BatchSize := 10; Workers := 1;
     QueryIterations := 5; WarmupIterations := 1; PreloadCount := 30 |}.

Definition test_world : World (RT := sample_runtime) (Repo := Z) :=
  {| clock := clock0; repo := 0; history := [] |}.

Definition test_schedule : list nat := replicate 21 0%nat.

Definition no_result : InsertResult.t :=
  {| InsertResult.TotalEvents := 0; InsertResult.Duration := 0;
     InsertResult.Throughput := zero; InsertResult.ErrorCount := 0;
     InsertResult.BatchSize := 0; InsertResult.WorkerCount := 0 |}.

Definition test_result : InsertResult.t :=
  match fst (RunInsert (RP := every_second_fails) test_runner 100 test_schedule
               test_world) with
  | Returns res => res
  | _ => no_result
  end.

Definition preload_error : error :=
  match fst (Preload (RP := always_fails) test_runner 30 (replicate 7 0%nat) test_world) with
  | Returns e => e
  | _ => None
  end.

End Sample.

(** Services to wait for. *)
Module SampleServices.
Import GoInt Generator Orchestrator.
Local Open Scope Z_scope.

Definition postgres : DBService :=
  {| Name := "postgres"; Service := "postgres";
     ReadyCheck := ["docker"; "exec"; "benchmark-postgres"; "pg_isready"; "-U";
                    "benchmark"]%string |}.

(** A service that never gets ready: each probe fails at once; the context
    is never cancelled; [select] takes the first ready case. *)
Definition stubborn : Surroundings :=
  {| ctx := {| done_at := None; ctx_Err := "context canceled" |};
     probe := fun _ _ => (0%nat, Some "exit status 2"%string);
     pick := fun _ => 0%nat |}.

End SampleServices.


(** * The vocabulary of the properties

    What the theorems below speak of: the calls a run has made, read off
    the history of the world, the sizes and identifiers the generator
    yields, the invariant of the worker pool and the real value of a
    float. *)

Module StatsSpec.
Import GoInt Float64 Stats.
Local Open Scope Z_scope.

(** The element [Percentile] picks from the sorted copy, given the rank. *)
Definition pick_rank (sorted : list Z) (r : option Z) : outcome Z :=
  match r with
  | None => Unspecified
  | Some index =>
      let index := if index >=? len sorted then len sorted - 1 else index in
      if index <? 0 then Panics
      else match sorted !! Z.to_nat index with
           | Some d => Returns d
           | None => Panics
           end
  end.

End StatsSpec.

Module GeneratorSpec.
Import GoInt Float64 Generator.
Local Open Scope Z_scope.

(** The sizes of the batches of [n] events: full batches, then the remainder. *)
Definition chunk_sizes (n b : Z) : list Z :=
  replicate (Z.to_nat (n / b)) b ++ (if n mod b =? 0 then [] else [n mod b]).

(** The number of events in batches of the given sizes. *)
Definition sum_sizes (sizes : list Z) : Z := foldr Z.add 0 sizes.

Section WithRuntime.
Context {RT : Runtime}.

(** A step of the generator's goroutine that leaves the counts and the
    cursor alone, as every step but [advance] does. *)
Definition steady {A} (m : Gen A) : Prop :=
  forall g c,
    totalEvents (fst (snd (m (g, c)))) = totalEvents g
    /\ batchSize (fst (snd (m (g, c)))) = batchSize g
    /\ current (fst (snd (m (g, c)))) = current g.

(** What a step yields, whatever the state it starts from. *)
Definition yields {A} (P : A -> Prop) (m : Gen A) : Prop :=
  forall s, P (fst (m s)).

(** An event's ID is made of its creation time and a draw of [Int63]. *)
Definition id_of_parts (e : Event) (r : Z) : Prop :=
  ID e = event_id (CreatedAt e) r /\ exists rs, r = fst (rand_Int63 rs).


(** A step that makes the draws of [Int63] that [P] relates to what it
    yields. *)
Definition draws (drawn : Rand -> list Z) {A} (m : Gen A) (P : A -> list Z -> Prop)
  : Prop :=
  forall s,
    exists ds, P (fst (m s)) ds
               /\ drawn (rand (fst (snd (m s)))) = drawn (rand (fst s)) ++ ds.


End WithRuntime.


(** The character [c] does not occur in [s]. *)
Fixpoint free_of (c : Ascii.ascii) (s : string) : bool :=
  match s with
  | EmptyString => true
  | String a s' => negb (Ascii.eqb a c) && free_of c s'
  end.

End GeneratorSpec.

Module BenchmarkSpec.
Import GoInt Float64 Stats Generator GeneratorSpec Benchmark.
Local Open Scope Z_scope.

(** The calls of [GetEventStats] in a history, oldest first: whether the
    call was a measured one, its time range and its result. *)
Definition query_calls (h : list observation) : list (bool * Time * Time * error) :=
  omap (fun o => match o with
                 | QueryCall m s e err => Some (m, s, e, err)
                 | _ => None
                 end) h.

(** The calls that returned no error, and those that returned one. *)
Fixpoint successes (es : list error) : Z :=
  match es with
  | [] => 0
  | None :: es' => 1 + successes es'
  | Some _ :: es' => successes es'
  end.

Fixpoint failures (es : list error) : Z :=
  match es with
  | [] => 0
  | None :: es' => failures es'
  | Some _ :: es' => 1 + failures es'
  end.

(** The calls of [InsertBatch] in a history, oldest first: the batch and
    the result. *)
Definition insert_calls (h : list observation) : list (list Event * error) :=
  omap (fun o => match o with
                 | InsertCall _ b e => Some (b, e)
                 | _ => None
                 end) h.

(** The events of the calls that succeeded, the events of those that failed
    and the number of calls that failed. *)
Fixpoint inserted_events (calls : list (list Event * error)) : Z :=
  match calls with
  | [] => 0
  | (b, None) :: cs => len b + inserted_events cs
  | (_, Some _) :: cs => inserted_events cs
  end.

Fixpoint failed_events (calls : list (list Event * error)) : Z :=
  match calls with
  | [] => 0
  | (_, None) :: cs => failed_events cs
  | (b, Some _) :: cs => len b + failed_events cs
  end.

Fixpoint failed_batches (calls : list (list Event * error)) : Z :=
  match calls with
  | [] => 0
  | (_, None) :: cs => failed_batches cs
  | (_, Some _) :: cs => 1 + failed_batches cs
  end.

(** The number of events in a list of batches. *)
Definition total_len (bs : list (list Event)) : Z := sum_sizes (map len bs).

(** The batches the workers hold, each inside its call of [InsertBatch]. *)
Definition in_flight (ws : list worker) : list (list Event) :=
  omap (fun st => match st with Inserting b => Some b | _ => None end) ws.

Section WithRepository.
Context {RT : Runtime} {Repo : Type} {RP : Repository Repo}.

(** The time range and kind of each call, without its result. *)
Definition call_shapes (h : list observation) : list (bool * Time * Time) :=
  fst <$> query_calls h.

(** The calls of one scenario: the warmup calls, then the measured ones. *)
Definition scenario_block (r : Runner) (now : Time) (sc : string * Time)
  : list (bool * Time * Time) :=
  replicate (Z.to_nat (WarmupIterations r)) (false, snd sc, now)
  ++ replicate (Z.to_nat (QueryIterations r)) (true, snd sc, now).

(** What holds between two steps of the workers: the counters agree with
    the calls made so far, every batch is with exactly one of the calls
    made, the workers and the channel, and no worker has left while a batch
    is still on the channel. *)
Definition pool_inv (all : list (list Event)) (h0 : list observation) (nw : nat)
    (p : Pool) (w : World (Repo := Repo)) : Prop :=
  exists calls,
    insert_calls (history w) = insert_calls h0 ++ calls
    /\ totalInserted p = inserted_events calls
    /\ totalErrors p = failed_batches calls
    /\ (fst <$> calls) ++ in_flight (workers p) ++ batches p ≡ₚ all
    /\ length (workers p) = nw
    /\ (batches p <> [] -> Forall (fun st => st <> Left) (workers p)).

End WithRepository.

End BenchmarkSpec.

Module Float64Value.
Import Float64.
Local Open Scope R_scope.

(** The real number denoted by a float; infinities and NaN are given 0 and
    are excluded by the lemmas that use it. *)
Definition F2R (f : float64) : R :=
  match f with
  | S754_finite s m e => IZR (if s then Z.neg m else Z.pos m) * powerRZ 2 e
  | _ => 0
  end.

(** Relative size of one unit in the last place of a normal float. *)
Definition ulp : R := / 4503599627370496.

End Float64Value.


(** * More of the code, and the vocabulary of its properties *)

(** ** Package main: flags and the runner built from them *)

Module Main.
Import GoInt Benchmark.
Local Open Scope Z_scope.

(** The command-line flags, after [flag.Parse]. *)
Record Flags : Type := {
  dbType : string;
  eventCount : Z;
  batchSize : Z;
  workers : Z;
  queryIterations : Z;
  outputFormat : string;
  skipInsert : bool;
  skipQuery : bool;
  preloadCount : Z;
  cleanupFlag : bool;
  managed : bool;
}.


(** [newRunner]: the batch size is capped by the larger of the two event
    counts and the workers by the number of batches of that count; an
    integer division by zero panics. *)
Definition newRunner (f : Flags) : outcome Runner :=
  let batch := batchSize f in
  let maxEvents := eventCount f in
  let maxEvents := if preloadCount f >? maxEvents then preloadCount f else maxEvents in
  let batch := if batch >? maxEvents then maxEvents else batch in
  if batch =? 0 then Panics
  else
    let totalBatches := quot64 (sub64 (add64 maxEvents batch) 1) batch in
    let w := workers f in
    let w := if w >? totalBatches then totalBatches else w in
    Returns {| EventCount := eventCount f;
               BatchSize := batch;
               Workers := w;
               QueryIterations := queryIterations f;
               WarmupIterations := 5;
               PreloadCount := preloadCount f |}.

Definition getDatabases (dbType : string) : list string :=
  if String.eqb dbType "all"
  then ["postgres"; "mongodb"; "clickhouse"; "cassandra"]%string
  else [dbType].

End Main.

(** ** Package reporter: what is printed, and in which order *)

Module Reporter.
Import GoInt Float64 Benchmark.
Local Open Scope Z_scope.

(** Go's [<=] on strings: byte-wise lexicographic. *)
Definition string_le (a b : string) : Prop := String.leb a b = true.

#[global] Instance string_le_dec (a b : string) : Decision (string_le a b).
Proof. unfold string_le. apply _. Defined.

(** [sort.Strings]: the slice in ascending order.  The order being total
    and antisymmetric, every sorting algorithm gives the same slice. *)
Definition sort_Strings (l : list string) : list string := merge_sort string_le l.

(** [repository.StorageStats]. *)
Record StorageStats : Type := {
  TotalSize : Z;
  IndexSize : Z;
  CompressionPct : float64;
  RowCount : Z;
}.

(** [benchmark.Results]; a nil pointer or map is [None], and so is the zero
    [time.Time]. *)
Record Results : Type := {
  Database : string;
  Timestamp : option Time;
  Insert : option InsertResult.t;
  Queries : option (gmap string QueryResult.t);
  Storage : option StorageStats;
  Error : error;
  ErrorText : string;
}.

(** [sortedKeys]: the keys are appended as [range] delivers them, in an
    order the language leaves open, and then sorted; [order] is the order
    of delivery. *)
Definition sortedKeys (order : list string) : list string := sort_Strings order.

(** The first loop of [sortedQueryNames]: the set of the names found in
    the [Queries] of the results, visited in some order. *)
Definition queryNames (visited : list Results) : gset string :=
  foldl (fun names result =>
           match Queries result with
           | Some queries => dom queries ∪ names
           | None => names
           end) ∅ visited.

(** Its second loop and the sort; [order] is the order in which [range]
    delivers the names of the set. *)
Definition sortedQueryNames (order : list string) : list string := sort_Strings order.

(** [formatBytes]. *)
Definition kb : Z := 1024.
Definition mb : Z := 1024 * kb.
Definition gb : Z := 1024 * mb.

Definition formatBytes {RT : Runtime} (bytes : Z) : string :=
  if bytes >=? gb then (fmt_f2 (div (of_int bytes) (of_int gb)) +:+ " GB")%string
  else if bytes >=? mb then (fmt_f2 (div (of_int bytes) (of_int mb)) +:+ " MB")%string
  else if bytes >=? kb then (fmt_f2 (div (of_int bytes) (of_int kb)) +:+ " KB")%string
  else (Generator.fmt_d bytes +:+ " B")%string.

(** [StorageStats.TotalSizeGB] and [IndexSizeGB]. *)
Definition TotalSizeGB (s : StorageStats) : float64 :=
  div (of_int (TotalSize s)) (of_int (1024 * 1024 * 1024)).

Definition IndexSizeGB (s : StorageStats) : float64 :=
  div (of_int (IndexSize s)) (of_int (1024 * 1024 * 1024)).

End Reporter.

(** ** Package main: one benchmark from connection to [Close] *)

Module MainRun.
Import GoInt Float64 Generator Benchmark Orchestrator Reporter Main.
Local Open Scope Z_scope.

(** What package main needs beyond the runtime: the four databases with the
    constructors of package repository, the methods of the interface
    [benchmark.Repository] on the connections they return, the commands
    that act on the containers of the databases, and one more verb of
    [fmt].  A connection is a pointer: what it points to is part of the
    state of the databases. *)
Class Backend : Type := {
  Databases : Type;
  Conn : Type;
  NewPostgresRepo : State Databases (string + Conn);
  NewMongoDBRepo : State Databases (string + Conn);
  NewCassandraRepo : State Databases (string + Conn);
  NewClickHouseRepo : State Databases (string + Conn);
  conn_InitSchema : Conn -> State Databases error;
  conn_InsertBatch : Conn -> list Event -> State Databases error;
  conn_GetEventStats : Conn -> Time -> Time -> State Databases error;
  conn_GetStorageStats : Conn -> State Databases (option StorageStats);
  conn_Cleanup : Conn -> State Databases error;
  conn_Close : Conn -> State Databases error;
  (** [exec.CommandContext(ctx, name, args...).Run()] *)
  exec_Run : list string -> State Databases error;
  (** the verb [%.0f] *)
  fmt_f0 : float64 -> string;
}.

(** What a run of package main does, in the order it happens: the
    constructors it calls with their results, the calls on the connection,
    what the runner does and logs in between, the commands run with their
    results, the calls of [WaitReady] with what they came to, and the
    lines written to [os.Stderr]. *)
Inductive step : Type :=
  | Opened (db : string) (err : error)
  | SchemaInit (err : error)
  | Ran (o : observation)
  | StorageRead (found : bool)
  | CleanedUp (err : error)
  | Closed (err : error)
  | Command (args : list string) (err : error)
  | Waited (r : Returned)
  | Printed (line : string).

(** The colours of package main and of package orchestrator, which are the
    same. *)
Definition esc : string := String (Ascii.ascii_of_nat 27) EmptyString.
Definition newline : string := String (Ascii.ascii_of_nat 10) EmptyString.
Definition cGreen : string := esc +:+ "[0;32m".
Definition cBlue : string := esc +:+ "[0;34m".
Definition cYellow : string := esc +:+ "[1;33m".
Definition cRed : string := esc +:+ "[0;31m".
Definition cReset : string := esc +:+ "[0m".

(** The commands of [StartService], [StopService] and [Cleanup]. *)
Definition docker_up (service : string) : list string :=
  ["docker-compose"; "up"; "-d"; service]%string.
Definition docker_stop (service : string) : list string :=
  ["docker-compose"; "stop"; service]%string.
Definition docker_rm (service : string) : list string :=
  ["docker-compose"; "rm"; "-f"; service]%string.
Definition docker_down : list string := ["docker-compose"; "down"; "-v"]%string.

(** The message of an error of [WaitReady]. *)
Definition failure_text (e : failure) : string :=
  match e with
  | Cancelled reason => reason
  | TimedOut message => message
  end.

(** [&benchmark.Results{Database: db, Error: err}]. *)
Definition named_error (db err : string) : Results :=
  {| Database := db; Timestamp := None; Insert := None; Queries := None;
     Storage := None; Error := Some err; ErrorText := EmptyString |}.

Section WithBackend.
Context {RT : Runtime} {BE : Backend}.

(** The connection as the runner sees it. *)
Definition as_Repository (c : Conn) : Repository Databases :=
  {| InsertBatch := conn_InsertBatch c; GetEventStats := conn_GetEventStats c |}.

(** What one call of package main works on: the clock, the databases and
    the trace of what it did.  In direct mode [runAllBenchmarks] gives each
    database a goroutine of its own; a session follows one of them. *)
Record Session : Type := {
  wall : Clock;
  databases : Databases;
  trace : list step;
}.

Definition record (st : step) : State Session unit :=
  fun ss => (tt, {| wall := wall ss; databases := databases ss;
                    trace := trace ss ++ [st] |}).

Definition on_databases {A} (m : State Databases A) : State Session A :=
  fun ss => let '(a, d) := m (databases ss) in
            (a, {| wall := wall ss; databases := d; trace := trace ss |}).

Definition on_wall {A} (m : State Clock A) : State Session A :=
  fun ss => let '(a, c) := m (wall ss) in
            (a, {| wall := c; databases := databases ss; trace := trace ss |}).

(** [log.Printf] of package main writes where the runner's does. *)
Definition main_log (line : string) : State Session unit := record (Ran (Logged line)).

(** A method of the runner: it works on the clock and the databases of the
    session, and what it does is appended to the trace. *)
Definition by_runner {A} (m : State (World (Repo := Databases)) A) : State Session A :=
  fun ss =>
    let '(a, w) := m {| clock := wall ss; repo := databases ss; history := [] |} in
    (a, {| wall := clock w; databases := repo w;
           trace := trace ss ++ (Ran <$> history w) |}).

Definition error_of {A} (r : string + A) : error :=
  match r with inl err => Some err | inr _ => None end.

(** A call of one of the four constructors. *)
Definition open (dbType : string) (new : State Databases (string + Conn))
  : State Session (string + Conn) :=
  r <-- on_databases new ;;
  record (Opened dbType (error_of r)) ;;;
  ret r.

Definition newRepo (dbType : string) : State Session (string + Conn) :=
  if String.eqb dbType "postgres" then open dbType NewPostgresRepo
  else if String.eqb dbType "mongodb" then open dbType NewMongoDBRepo
  else if String.eqb dbType "cassandra" then open dbType NewCassandraRepo
  else if String.eqb dbType "clickhouse" then open dbType NewClickHouseRepo
  else ret (inl ("unsupported database type: " +:+ dbType)%string).

(** [&benchmark.Results{Error: err}]. *)
Definition only_error (err : string) : Results :=
  {| Database := EmptyString; Timestamp := None; Insert := None; Queries := None;
     Storage := None; Error := Some err; ErrorText := EmptyString |}.

(** [preloadIfNeeded]; [fuel] and [sched] are those of [Preload]. *)
Definition preloadIfNeeded (runner : Runner) (c : Conn) (dbName : string)
    (fuel : nat) (sched : list nat) : State Session (outcome error) :=
  if PreloadCount runner <=? 0 then ret (Returns None)
  else
    main_log ("Pre-loading " +:+ dbName +:+ " with " +:+ fmt_d (PreloadCount runner)
              +:+ " events...") ;;;
    out <-- by_runner (Preload (RP := as_Repository c) runner fuel sched) ;;
    match out with
    | Returns (Some err) =>
        main_log ("Failed to preload " +:+ dbName +:+ ": " +:+ err) ;;;
        ret (Returns (Some err))
    | _ => ret out
    end.

(** The two optional parts of [executeBenchmark]. *)
Definition insertPart (f : Flags) (runner : Runner) (c : Conn) (dbName : string)
    (fuel : nat) (sched : list nat) : State Session (outcome (option InsertResult.t)) :=
  if skipInsert f then ret (Returns None)
  else
    main_log ("Benchmarking inserts for " +:+ dbName +:+ " ("
              +:+ fmt_d (EventCount runner) +:+ " events)...") ;;;
    out <-- by_runner (RunInsert (RP := as_Repository c) runner fuel sched) ;;
    match out with
    | Returns res =>
        main_log ("Insert benchmark done for " +:+ dbName +:+ ": "
                  +:+ fmt_f0 (InsertResult.Throughput res) +:+ "/sec") ;;;
        ret (Returns (Some res))
    | _ => ret (lift_outcome out)
    end.

Definition queryPart (f : Flags) (runner : Runner) (c : Conn) (dbName : string)
  : State Session (outcome (option (gmap string QueryResult.t))) :=
  if skipQuery f then ret (Returns None)
  else
    main_log ("Benchmarking queries for " +:+ dbName +:+ "...") ;;;
    out <-- by_runner (RunQueries (RP := as_Repository c) runner) ;;
    match out with
    | Returns qs =>
        main_log ("Query benchmark done for " +:+ dbName) ;;;
        ret (Returns (Some qs))
    | _ => ret (lift_outcome out)
    end.

(** [executeBenchmark]; [fuel] and [sched] are those of [RunInsert]. *)
Definition executeBenchmark (f : Flags) (runner : Runner) (c : Conn) (dbName : string)
    (fuel : nat) (sched : list nat) : State Session (outcome Results) :=
  t <-- on_wall time_Now ;;
  ins <-- insertPart f runner c dbName fuel sched ;;
  match ins with
  | Returns insert =>
      qs <-- queryPart f runner c dbName ;;
      match qs with
      | Returns queries =>
          s <-- on_databases (conn_GetStorageStats c) ;;
          record (StorageRead (bool_decide (is_Some s))) ;;;
          ret (Returns {| Database := dbName; Timestamp := Some t; Insert := insert;
                          Queries := queries; Storage := s; Error := None;
                          ErrorText := EmptyString |})
      | _ => ret (lift_outcome qs)
      end
  | _ => ret (lift_outcome ins)
  end.

(** The deferred function of [runBenchmark] and the end of an iteration of
    [cleanupDatabases]. *)
Definition close (c : Conn) (dbName : string) : State Session unit :=
  e <-- on_databases (conn_Close c) ;;
  record (Closed e) ;;;
  match e with
  | Some err => main_log ("Failed to close " +:+ dbName +:+ ": " +:+ err)
  | None => ret tt
  end.

(** What [runBenchmark] does with the connection before the deferred
    function runs. *)
Definition benchmarkBody (f : Flags) (runner : Runner) (c : Conn) (dbName : string)
    (fuel : nat) (preloadSched insertSched : list nat) : State Session (outcome Results) :=
  e <-- on_databases (conn_InitSchema c) ;;
  record (SchemaInit e) ;;;
  match e with
  | Some err =>
      main_log ("Failed to initialize " +:+ dbName +:+ " schema: " +:+ err) ;;;
      ret (Returns (only_error err))
  | None =>
      p <-- preloadIfNeeded runner c dbName fuel preloadSched ;;
      match p with
      | Returns (Some err) => ret (Returns (only_error err))
      | Returns None => executeBenchmark f runner c dbName fuel insertSched
      | _ => ret (lift_outcome p)
      end
  end.

(** [runBenchmark].  The deferred function runs when the body returns and
    when it panics in this goroutine; a body that is still running has not
    reached it, and once a result is left to the implementation nothing is
    said of what follows.  A panic of the generator's goroutine, which a
    negative batch size brings about, ends the process with no deferred
    function run; the runner reports it like a panic of its own, so what
    is said here of a panic holds for batch sizes that are not negative. *)
Definition runBenchmark (f : Flags) (runner : Runner) (dbName : string)
    (fuel : nat) (preloadSched insertSched : list nat) : State Session (outcome Results) :=
  r <-- newRepo dbName ;;
  match r with
  | inl err =>
      main_log ("Failed to initialize " +:+ dbName +:+ ": " +:+ err) ;;;
      ret (Returns (only_error err))
  | inr c =>
      out <-- benchmarkBody f runner c dbName fuel preloadSched insertSched ;;
      match out with
      | Returns _ | Panics => close c dbName ;;; ret out
      | Unspecified | OutOfFuel => ret out
      end
  end.

(** The loop of [cleanupDatabases]. *)
Fixpoint cleanupEach (dbs : list string) : State Session unit :=
  match dbs with
  | [] => ret tt
  | dbName :: rest =>
      r <-- newRepo dbName ;;
      match r with
      | inl err =>
          main_log ("Failed to connect to " +:+ dbName +:+ " for cleanup: " +:+ err) ;;;
          cleanupEach rest
      | inr c =>
          e <-- on_databases (conn_Cleanup c) ;;
          record (CleanedUp e) ;;;
          match e with
          | Some err => main_log ("Failed to cleanup " +:+ dbName +:+ ": " +:+ err)
          | None => main_log ("Cleaned up " +:+ dbName)
          end ;;;
          close c dbName ;;;
          cleanupEach rest
      end
  end.

Definition cleanupDatabases (dbs : list string) : State Session unit :=
  main_log "Cleaning up databases..." ;;;
  cleanupEach dbs.

(** *** Managed mode *)

Definition print (line : string) : State Session unit := record (Printed line).

Definition colorLogf (color line : string) : State Session unit :=
  print (color +:+ line +:+ cReset +:+ newline).

Definition logInfof (line : string) : State Session unit :=
  print (cBlue +:+ "[orchestrator] " +:+ cReset +:+ line +:+ newline).

Definition logOKf (line : string) : State Session unit :=
  print (cGreen +:+ "✓ " +:+ cReset +:+ line +:+ newline).

Definition logWarnf (line : string) : State Session unit :=
  print (cYellow +:+ "⚠ " +:+ cReset +:+ line +:+ newline).

Definition logErrf (line : string) : State Session unit :=
  print (cRed +:+ "✗ " +:+ cReset +:+ line +:+ newline).

(** A command built and run. *)
Definition command (args : list string) : State Session error :=
  e <-- on_databases (exec_Run args) ;;
  record (Command args e) ;;;
  ret e.

Definition StartService (service : string) : State Session error :=
  logInfof ("Starting " +:+ service +:+ "...") ;;;
  command (docker_up service).

(** [StopService]: the error of [stop] is printed and dropped; what is
    returned is the error of [rm]. *)
Definition StopService (service : string) : State Session error :=
  logWarnf ("Stopping " +:+ service +:+ " to free memory...") ;;;
  e <-- command (docker_stop service) ;;
  match e with
  | Some err => logErrf err
  | None => ret tt
  end ;;;
  command (docker_rm service).

Definition Cleanup : State Session error :=
  logWarnf "Cleaning up containers and volumes..." ;;;
  e <-- command docker_down ;;
  match e with
  | Some err => logErrf ("Cleanup failed: " +:+ err) ;;; ret (Some err)
  | None => logOKf "Cleanup complete" ;;; ret None
  end.

(** [WaitReady] within a session: the call is the one of package
    orchestrator, made at the instant [t0] in the surroundings [s]; the
    lines it writes are those its return accounts for. *)
Definition WaitReady_logged (fuel : nat) (s : Surroundings) (svc : DBService) (t0 : Time)
  : State Session (outcome error) :=
  logInfof ("Waiting for " +:+ Name svc +:+ " to be ready...") ;;;
  match Orchestrator.WaitReady fuel s svc t0 with
  | Returns r =>
      match err r with
      | None => logOKf (Name svc +:+ " is ready")
      | Some (TimedOut _) => logErrf (timeout_error svc)
      | Some (Cancelled _) => ret tt
      end ;;;
      record (Waited r) ;;;
      ret (Returns (failure_text <$> err r))
  | o => ret (lift_outcome o)
  end.

(** The end of both branches of [runManagedBenchmark] that stop the
    service. *)
Definition stop_logged (service : string) : State Session unit :=
  e <-- StopService service ;;
  match e with
  | Some err => main_log ("Failed to stop orchestrator: " +:+ err)
  | None => ret tt
  end.

(** [runManagedBenchmark].  [waitFuel], [s] and [t0] are those of
    [WaitReady], the other parameters those of [runBenchmark].  A panic of
    the benchmark is not recovered: it leaves through this function. *)
Definition runManagedBenchmark (f : Flags) (runner : Runner) (svc : DBService)
    (waitFuel : nat) (s : Surroundings) (t0 : Time)
    (fuel : nat) (preloadSched insertSched : list nat) : State Session (outcome Results) :=
  e <-- StartService (Service svc) ;;
  match e with
  | Some err => ret (Returns (named_error (Name svc) err))
  | None =>
      w <-- WaitReady_logged waitFuel s svc t0 ;;
      match w with
      | Returns (Some err) =>
          stop_logged (Service svc) ;;;
          ret (Returns (named_error (Name svc) err))
      | Returns None =>
          colorLogf cGreen ("Running benchmark for " +:+ Name svc +:+ "...") ;;;
          out <-- runBenchmark f runner (Name svc) fuel preloadSched insertSched ;;
          match out with
          | Returns result =>
              t <-- on_wall time_Now ;;
              stop_logged (Service svc) ;;;
              ret (Returns {| Database := Name svc; Timestamp := Some t;
                              Insert := Insert result; Queries := Queries result;
                              Storage := Storage result; Error := Error result;
                              ErrorText := ErrorText result |})
          | _ => ret out
          end
      | _ => ret (lift_outcome w)
      end
  end.

Definition runManagedDB (f : Flags) (runner : Runner) (dbName : string)
    (waitFuel : nat) (s : Surroundings) (t0 : Time)
    (fuel : nat) (preloadSched insertSched : list nat) : State Session (outcome Results) :=
  match ServiceByName dbName with
  | None =>
      colorLogf cRed ("Unknown database: " +:+ dbName +:+ ", skipping") ;;;
      ret (Returns (named_error dbName ("unknown database: " +:+ dbName)))
  | Some svc =>
      colorLogf cBlue "================================================" ;;;
      colorLogf cBlue ("  " +:+ dbName) ;;;
      colorLogf cBlue "================================================" ;;;
      out <-- runManagedBenchmark f runner svc waitFuel s t0 fuel preloadSched
                insertSched ;;
      match out with
      | Returns result =>
          match Error result with
          | Some err => colorLogf cRed ("✗ " +:+ dbName +:+ " failed: " +:+ err)
          | None => colorLogf cGreen ("✓ " +:+ dbName +:+ " benchmark complete")
          end ;;;
          print newline ;;;
          ret (Returns result)
      | _ => ret out
      end
  end.

End WithBackend.
End MainRun.

Module ReporterSpec.
Import Reporter.

(** Go's [<] on strings. *)
Definition string_lt (a b : string) : Prop := string_le a b /\ a <> b.

(** An order in which [range] may deliver the keys of a map. *)
Definition delivers {V} (m : gmap string V) (order : list string) : Prop :=
  order ≡ₚ (map_to_list m).*1.

End ReporterSpec.

Module StatsSums.
Local Open Scope Z_scope.

(** The sum of durations as a mathematical integer, without wrap-around. *)
Definition sum_Z (l : list Z) : Z := foldr Z.add 0 l.

End StatsSums.

Module GeneratorLaws.
Import GoInt Generator.
Local Open Scope Z_scope.

(** An ASCII letter or digit. *)
Definition is_alnum (a : Ascii.ascii) : bool :=
  let n := Ascii.nat_of_ascii a in
  ((48 <=? n) && (n <=? 57) || (65 <=? n) && (n <=? 90) || (97 <=? n) && (n <=? 122))%nat.

(** [rand.Intn(n)] and [rand.Int63n(n)] return a number in [[0, n)] for a
    positive [n], as their documentation says. *)
Definition draws_in_range (RT : Runtime) : Prop :=
  (forall n rs, 0 < n -> 0 <= fst (rand_Intn n rs) < n)
  /\ (forall n rs, 0 < n -> 0 <= fst (rand_Int63n n rs) < n).

End GeneratorLaws.

Module QuerySpec.
Import GoInt Benchmark.
Local Open Scope Z_scope.

(** The latency figures of a result are in order. *)
Definition ordered_latencies (q : QueryResult.t) : Prop :=
  QueryResult.MinDuration q <= QueryResult.P50Duration q
  /\ QueryResult.P50Duration q <= QueryResult.P95Duration q
  /\ QueryResult.P95Duration q <= QueryResult.P99Duration q
  /\ QueryResult.P99Duration q <= QueryResult.MaxDuration q.

(** The average of a result lies between its extremes, provided the sum of
    the samples cannot have wrapped: the number of samples times the
    smallest and times the largest both fit in an [int64]. *)
Definition average_within (q : QueryResult.t) : Prop :=
  is_int64 (QueryResult.Iterations q * QueryResult.MinDuration q) ->
  is_int64 (QueryResult.Iterations q * QueryResult.MaxDuration q) ->
  QueryResult.MinDuration q <= QueryResult.AvgDuration q <= QueryResult.MaxDuration q.

End QuerySpec.

Module MainSpec.
Import GoInt Benchmark MainRun.
Local Open Scope Z_scope.

(** The database types [newRepo] knows. *)
Definition supported (db : string) : Prop :=
  db ∈ ["postgres"; "mongodb"; "cassandra"; "clickhouse"]%string.

(** The call has come to an end: it returned or it panicked. *)
Definition ended {A} (o : outcome A) : Prop :=
  match o with
  | Returns _ | Panics => True
  | Unspecified | OutOfFuel => False
  end.

(** The steps that are not lines logged or printed. *)
Definition is_call (st : step) : bool :=
  match st with
  | Ran (Logged _) | Printed _ => false
  | _ => true
  end.

Definition calls (tr : list step) : list step := List.filter is_call tr.

(** The steps of a benchmark between [InitSchema] and [Close]: a batch
    inserted, a query run, the storage statistics read. *)
Definition is_work (st : step) : bool :=
  match st with
  | Ran (InsertCall _ _ _) | Ran (QueryCall _ _ _ _) | StorageRead _ => true
  | _ => false
  end.

Definition is_insert (st : step) : bool :=
  match st with
  | Ran (InsertCall _ _ _) => true
  | _ => false
  end.

(** What a step of the session appended to its trace. *)
Definition appends {RT : Runtime} {BE : Backend} (ss ss' : Session) (ext : list step)
  : Prop :=
  trace ss' = trace ss ++ ext.

Definition is_query (o : observation) : bool :=
  match o with
  | QueryCall _ _ _ _ => true
  | _ => false
  end.

(** The steps of managed mode on the containers: a command, a wait. *)
Definition on_container (st : step) : bool :=
  match st with
  | Command _ _ | Waited _ => true
  | _ => false
  end.

(** What a managed benchmark of the service [svc] that has come to an end
    did and gave, [cs] being its calls in order.  Either [up] failed and
    nothing else was run; or the service did not become ready and was
    stopped and removed; or it became ready, the benchmark ran, with calls
    on the database only, and on its return the service was stopped and
    removed.  When the benchmark panicked nothing follows its calls. *)
Definition managed (svc : Orchestrator.DBService) (o : outcome Reporter.Results)
    (cs : list step) : Prop :=
  let service := Orchestrator.Service svc in
  let name := Orchestrator.Name svc in
  (exists err,
      cs = [Command (docker_up service) (Some err)]
      /\ o = Returns (named_error name err))
  \/ (exists r failure e1 e2,
        Orchestrator.err r = Some failure
        /\ cs = [Command (docker_up service) None; Waited r;
                 Command (docker_stop service) e1; Command (docker_rm service) e2]
        /\ o = Returns (named_error name (failure_text failure)))
  \/ (exists r work,
        Orchestrator.err r = None
        /\ Forall (fun st => on_container st = false) work
        /\ match o with
           | Returns res =>
               Reporter.Database res = name
               /\ is_Some (Reporter.Timestamp res)
               /\ exists e1 e2,
                   cs = Command (docker_up service) None :: Waited r
                          :: work ++ [Command (docker_stop service) e1;
                                      Command (docker_rm service) e2]
           | _ => cs = Command (docker_up service) None :: Waited r :: work
           end).

(** The work a trace shows. *)
Definition work_of (tr : list step) : list step := List.filter is_work tr.

(** What a result of [executeBenchmark] holds, and what the trace shows
    for it. *)
Definition complete (f : Main.Flags) (dbName : string) (res : Reporter.Results)
    (ext : list step) : Prop :=
  Reporter.Database res = dbName
  /\ is_Some (Reporter.Timestamp res)
  /\ Reporter.Error res = None
  /\ (is_Some (Reporter.Insert res) <-> Main.skipInsert f = false)
  /\ (is_Some (Reporter.Queries res) <-> Main.skipQuery f = false)
  /\ StorageRead (bool_decide (is_Some (Reporter.Storage res))) ∈ ext.

(** What a result that reports an error holds: nothing else.  Up to the
    failure nothing was done on the connection but the inserts of a
    preload, if one was asked for. *)
Definition failed_early (runner : Runner) (res : Reporter.Results) (work : list step)
  : Prop :=
  exists err,
    res = only_error err
    /\ Forall (fun st => is_insert st = true) work
    /\ (PreloadCount runner <= 0 -> work = []).

(** The calls of a cleanup over a list of databases: nothing for a type
    [newRepo] does not know, the failed constructor for a database that
    cannot be reached, and the constructor, [Cleanup] and [Close] for one
    that can, whatever [Cleanup] returned. *)
Inductive cleaned : list string -> list step -> Prop :=
  | cleaned_nil : cleaned [] []
  | cleaned_unknown db dbs tr :
      ~ supported db -> cleaned dbs tr -> cleaned (db :: dbs) tr
  | cleaned_unreachable db err dbs tr :
      supported db -> cleaned dbs tr ->
      cleaned (db :: dbs) (Opened db (Some err) :: tr)
  | cleaned_reached db e e' dbs tr :
      supported db -> cleaned dbs tr ->
      cleaned (db :: dbs) (Opened db None :: CleanedUp e :: Closed e' :: tr).

End MainSpec.

(** More surroundings to run the model on. *)
Module MoreSamples.
Import GoInt Float64 Stats Generator Benchmark Sample.
Local Open Scope Z_scope.

(** A world whose clock stands still. *)
Definition stopped_world : World (RT := stuck_runtime) (Repo := Z) :=
  {| clock := (tt : @Clock stuck_runtime); repo := 0; history := [] |}.

End MoreSamples.

Module MoreServices.
Import GoInt Generator Orchestrator SampleServices.
Local Open Scope Z_scope.

(** A service that is ready at the third probe: the first two fail, each
    probe takes 500 nanoseconds, and the context is never cancelled. *)
Definition ready_at_third : Surroundings :=
  {| ctx := {| done_at := None; ctx_Err := "context canceled" |};
     probe := fun k _ => (500%nat,
                          if (k <? 2)%nat then Some "exit status 2"%string else None);
     pick := fun _ => 0%nat |}.

(** What [WaitReady], called at instant 0, returns for it. *)
Definition ready_at_third_return : Returned :=
  {| returned_at := 11 * Second + 500; err := None;
     probes := [7 * Second; 9 * Second; 11 * Second] |}.

End MoreServices.

Module MoreResults.
Import GoInt Benchmark Reporter.
Local Open Scope Z_scope.

(** A result that holds nothing but an error. *)
Definition failed (db reason : string) : Results :=
  {| Database := db; Timestamp := None; Insert := None; Queries := None; Storage := None;
     Error := Some reason; ErrorText := EmptyString |}.

(** The results of a run over the four databases, none of which could be
    reached. *)
Definition four_databases : gmap string Results :=
  <[ "postgres"%string := failed "postgres" "connection refused" ]>
    (<[ "mongodb"%string := failed "mongodb" "connection refused" ]>
       (<[ "clickhouse"%string := failed "clickhouse" "connection refused" ]>
          (<[ "cassandra"%string := failed "cassandra" "connection refused" ]> ∅))).

(** A query result with no sample. *)
Definition no_sample (name : string) : QueryResult.t :=
  {| QueryResult.QueryName := name; QueryResult.Iterations := 0;
     QueryResult.AvgDuration := 0; QueryResult.MinDuration := 0;
     QueryResult.MaxDuration := 0; QueryResult.P50Duration := 0;
     QueryResult.P95Duration := 0; QueryResult.P99Duration := 0;
     QueryResult.ErrorCount := 5; QueryResult.DateRange := EmptyString |}.

(** A result that holds the four scenarios of [RunQueries]. *)
Definition queried (db : string) : Results :=
  {| Database := db; Timestamp := None; Insert := None;
     Queries := Some (<[ "1_hour"%string := no_sample "1_hour" ]>
                        (<[ "1_day"%string := no_sample "1_day" ]>
                           (<[ "1_week"%string := no_sample "1_week" ]>
                              (<[ "1_month"%string := no_sample "1_month" ]> ∅))));
     Storage := None; Error := None; ErrorText := EmptyString |}.

(** Storage statistics of the tests of package repository: 500 MB of data
    with an index of 1 GB. *)
Definition test_storage : StorageStats :=
  {| TotalSize := 500 * 1024 * 1024; IndexSize := 1024 * 1024 * 1024;
     CompressionPct := Float64.zero; RowCount := 0 |}.

End MoreResults.

Module MoreFlags.
Import GoInt Main.
Local Open Scope Z_scope.

(** The flags at their defaults on a machine with eight processors. *)
Definition default_flags : Flags :=
  {| dbType := "all"; eventCount := 1000000; batchSize := 10000; workers := 8;
     queryIterations := 100; outputFormat := "table"; skipInsert := false;
     skipQuery := false; preloadCount := 0; cleanupFlag := false; managed := false |}.

(** A small run: fewer events than the batch size and the workers. *)
Definition small_flags : Flags :=
  {| dbType := "postgres"; eventCount := 50; batchSize := 10000; workers := 8;
     queryIterations := 100; outputFormat := "table"; skipInsert := false;
     skipQuery := false; preloadCount := 0; cleanupFlag := false; managed := false |}.

End MoreFlags.

Module MoreBackends.
Import GoInt Float64 Generator Benchmark Reporter Main MainRun Sample.
Local Open Scope Z_scope.

(** Four databases kept as the number of calls made on them.  Postgres and
    ClickHouse accept a connection, MongoDB and Cassandra refuse it; on a
    connection every call succeeds, except [Cleanup] on ClickHouse; no
    storage statistics are available; every command succeeds. *)
Definition two_of_four : Backend := {|
  Databases := Z;
  Conn := string;
  NewPostgresRepo := fun n => (inr "postgres"%string, n + 1);
  NewMongoDBRepo := fun n => (inl "connection refused"%string, n + 1);
  NewCassandraRepo := fun n => (inl "connection refused"%string, n + 1);
  NewClickHouseRepo := fun n => (inr "clickhouse"%string, n + 1);
  conn_InitSchema := fun _ n => (None, n + 1);
  conn_InsertBatch := fun _ _ n => (None, n + 1);
  conn_GetEventStats := fun _ _ _ n => (None, n + 1);
  conn_GetStorageStats := fun _ n => (None, n + 1);
  conn_Cleanup := fun c n =>
    (if String.eqb c "clickhouse" then Some "timeout"%string else None, n + 1);
  conn_Close := fun _ n => (None, n + 1);
  exec_Run := fun _ n => (None, n + 1);
  fmt_f0 := fun f => pretty (default 0 (trunc f));
|}.

(** A session that has done nothing yet. *)
Definition fresh_session : Session (RT := sample_runtime) (BE := two_of_four) :=
  {| wall := clock0; databases := (0 : @Databases two_of_four); trace := [] |}.

(** Four events in batches of two for one worker, one measured query per
    scenario, no preload. *)
Definition tiny_runner : Runner :=
  {| EventCount := 4; BatchSize := 2; Workers := 1; QueryIterations := 1;
     WarmupIterations := 5; PreloadCount := 0 |}.

(** The same with a negative number of workers, on which [RunInsert]
    panics. *)
Definition broken_runner : Runner :=
  {| EventCount := 4; BatchSize := 2; Workers := -1; QueryIterations := 1;
     WarmupIterations := 5; PreloadCount := 0 |}.

(** The schedule of the one worker: it receives and inserts two batches
    and leaves. *)
Definition one_worker : list nat := replicate 6 0%nat.

(** What [runBenchmark] returns for [tiny_runner] on Postgres. *)
Definition tiny_result : Results :=
  Eval vm_compute in
    match fst (runBenchmark MoreFlags.default_flags tiny_runner "postgres" 10 []
                 one_worker fresh_session) with
    | Returns res => res
    | _ => only_error EmptyString
    end.

End MoreBackends.

Module OrchestratorSpec.
Import GoInt Generator Orchestrator.
Local Open Scope Z_scope.

(** Every probe of a run failed: the [k]-th one, started at the [k]-th of
    the given instants, returned an error. *)
Definition all_failed (s : Surroundings) (ts : list Time) : Prop :=
  forall k t, ts !! k = Some t -> is_Some (snd (probe s k t)).

(** The instants of the ticker's first [n] firings after the instant [t1]
    at which it was started. *)
Definition ticks (t1 : Time) (n : nat) : list Time :=
  map (fun j => t1 + Z.of_nat (S j) * interval) (seq 0 n).

End OrchestratorSpec.

(** * Properties of the embedded code *)

(** ** Rounding in float64 *)

Module Float64Facts.
Import GoInt Float64.
Local Open Scope Z_scope.

Lemma digits2_pos_bounds (m : positive) :
  2 ^ (Z.pos (digits2_pos m) - 1) <= Z.pos m < 2 ^ Z.pos (digits2_pos m).
Proof.
  induction m as [m IH | m IH |]; cbn [digits2_pos].
  - rewrite Pos2Z.inj_succ.
    replace (Z.succ (Z.pos (digits2_pos m)) - 1) with (Z.succ (Z.pos (digits2_pos m) - 1)) by lia.
    rewrite !Z.pow_succ_r by lia. lia.
  - rewrite Pos2Z.inj_succ.
    replace (Z.succ (Z.pos (digits2_pos m)) - 1) with (Z.succ (Z.pos (digits2_pos m) - 1)) by lia.
    rewrite !Z.pow_succ_r by lia. lia.
  - cbn. lia.
Qed.

Lemma digits2_pos_le (m : positive) (k : Z) :
  0 <= k -> Z.pos m < 2 ^ k -> Z.pos (digits2_pos m) <= k.
Proof.
  intros Hk Hm. pose proof (digits2_pos_bounds m) as [Hlo _].
  destruct (Z_le_gt_dec (Z.pos (digits2_pos m)) k) as [|Hgt]; [assumption|].
  assert (2 ^ k <= 2 ^ (Z.pos (digits2_pos m) - 1)) by (apply Z.pow_le_mono_r; lia).
  lia.
Qed.

Lemma digits2_pos_unique (m : positive) (k : Z) :
  2 ^ (k - 1) <= Z.pos m < 2 ^ k -> 1 <= k -> Z.pos (digits2_pos m) = k.
Proof.
  intros [Hlo Hhi] Hk. pose proof (digits2_pos_bounds m) as [Hlo' Hhi'].
  apply Z.le_antisymm.
  - apply digits2_pos_le; lia.
  - destruct (Z_le_gt_dec k (Z.pos (digits2_pos m))) as [|Hgt]; [assumption|].
    assert (2 ^ Z.pos (digits2_pos m) <= 2 ^ (k - 1)) by (apply Z.pow_le_mono_r; lia).
    lia.
Qed.

Lemma Zdigits2_nonneg (m : Z) : 0 <= Zdigits2 m.
Proof. destruct m; cbn; lia. Qed.

Lemma Zdigits2_upper (m : Z) : 0 <= m -> m < 2 ^ Zdigits2 m.
Proof.
  destruct m as [|p|p]; intros H; cbn [Zdigits2]; [cbn; lia | | lia].
  apply digits2_pos_bounds.
Qed.

Lemma Zdigits2_le (m k : Z) : 0 <= m -> 0 <= k -> m < 2 ^ k -> Zdigits2 m <= k.
Proof.
  destruct m as [|p|p]; intros H Hk Hm; cbn [Zdigits2]; [lia | | lia].
  now apply digits2_pos_le.
Qed.

(** *** Shifting a mantissa right *)

Lemma iter_pos_nat {A} (f : A -> A) (n : positive) (x : A) :
  SpecFloat.iter_pos f n x = Nat.iter (Pos.to_nat n) f x.
Proof.
  revert x. induction n as [n IH | n IH |]; intros x; cbn [SpecFloat.iter_pos].
  - rewrite !IH, Pos2Nat.inj_xI.
    replace (2 * Pos.to_nat n)%nat with (Pos.to_nat n + Pos.to_nat n)%nat by lia.
    change (S (Pos.to_nat n + Pos.to_nat n)) with (1 + (Pos.to_nat n + Pos.to_nat n))%nat.
    rewrite Nat.add_comm, !Nat.iter_add. reflexivity.
  - rewrite !IH, Pos2Nat.inj_xO.
    replace (2 * Pos.to_nat n)%nat with (Pos.to_nat n + Pos.to_nat n)%nat by lia.
    rewrite Nat.iter_add. reflexivity.
  - reflexivity.
Qed.

Lemma shr_m_shr_1 (mrs : shr_record) :
  0 <= shr_m mrs -> shr_m (shr_1 mrs) = shr_m mrs / 2.
Proof.
  destruct mrs as [m r s]; cbn [shr_m]. intros Hm.
  destruct m as [|[p|p|]|p]; cbn [shr_1 shr_m]; try lia;
    try reflexivity; Z.div_mod_to_equations; lia.
Qed.

Lemma shr_m_iter (k : nat) (mrs : shr_record) :
  0 <= shr_m mrs ->
  shr_m (Nat.iter k shr_1 mrs) = shr_m mrs / 2 ^ Z.of_nat k.
Proof.
  intros Hm. induction k as [|k IH].
  - cbn. now rewrite Z.div_1_r.
  - change (Nat.iter (S k) shr_1 mrs) with (shr_1 (Nat.iter k shr_1 mrs)).
    rewrite shr_m_shr_1.
    + rewrite IH, Nat2Z.inj_succ, Z.pow_succ_r, Z.div_div by lia.
      f_equal. lia.
    + rewrite IH. apply Z.div_pos; lia.
Qed.

Lemma shr_spec (mrs : shr_record) (e n : Z) :
  0 <= shr_m mrs ->
  shr_m (fst (shr mrs e n)) = shr_m mrs / 2 ^ Z.max 0 n
  /\ snd (shr mrs e n) = e + Z.max 0 n.
Proof.
  intros Hm. destruct n as [|p|p]; cbn [shr fst snd].
  - cbn. rewrite Z.div_1_r. lia.
  - rewrite iter_pos_nat, shr_m_iter by assumption.
    rewrite positive_nat_Z. split; [f_equal; f_equal; lia | lia].
  - cbn. rewrite Z.div_1_r. lia.
Qed.

Lemma shr_m_of_loc (m : Z) (l : location) : shr_m (shr_record_of_loc m l) = m.
Proof. destruct l as [|[]]; reflexivity. Qed.

(** After [shr_fexp] the mantissa fits the precision and the exponent is the
    larger of the given one and the canonical one. *)
Lemma shr_fexp_spec (m e : Z) (l : location) :
  0 <= m ->
  let e' := Z.max e (fexp prec emax (Zdigits2 m + e)) in
  shr_m (fst (shr_fexp prec emax m e l)) = m / 2 ^ (e' - e)
  /\ snd (shr_fexp prec emax m e l) = e'
  /\ 0 <= shr_m (fst (shr_fexp prec emax m e l)) < 2 ^ prec.
Proof.
  intros Hm e'. unfold shr_fexp.
  pose proof (shr_spec (shr_record_of_loc m l) e
                (fexp prec emax (Zdigits2 m + e) - e)) as [Hs He].
  { now rewrite shr_m_of_loc. }
  rewrite shr_m_of_loc in Hs.
  assert (Hn : Z.max 0 (fexp prec emax (Zdigits2 m + e) - e) = e' - e) by (unfold e'; lia).
  rewrite Hn in Hs, He. rewrite Hs, He.
  split; [reflexivity|]. split; [lia|].
  split; [apply Z.div_pos; [lia | apply Z.pow_pos_nonneg; unfold e'; lia]|].
  apply Z.div_lt_upper_bound; [apply Z.pow_pos_nonneg; unfold e'; lia|].
  rewrite <- Z.pow_add_r by (unfold e', prec; lia).
  pose proof (Zdigits2_upper m Hm) as Hup.
  pose proof (Zdigits2_nonneg m) as Hd.
  eapply Z.lt_le_trans; [exact Hup|].
  apply Z.pow_le_mono_r; [lia|].
  unfold e', fexp, prec. lia.
Qed.

Lemma round_nearest_even_bounds (m : Z) (l : location) :
  m <= round_nearest_even m l <= m + 1.
Proof. destruct l as [|[]]; cbn [round_nearest_even]; try lia. destruct (Z.even m); lia. Qed.

(** What [binary_round_aux] can return: the sign is kept, the mantissa fits
    the precision, and the exponent is the canonical one or one above. *)
Lemma binary_round_aux_cases (s : bool) (m e : Z) (l : location) :
  0 <= m ->
  let e1 := Z.max e (fexp prec emax (Zdigits2 m + e)) in
  match binary_round_aux prec emax s m e l with
  | S754_zero s' => s' = s
  | S754_finite s' m' e' =>
      s' = s /\ Z.pos m' < 2 ^ prec /\ e1 <= e' <= e1 + 1 /\ e' <= emax - prec
  | S754_infinity s' => s' = s /\ emax - prec < e1 + 1
  | S754_nan => False
  end.
Proof.
  intros Hm e1. unfold binary_round_aux.
  pose proof (shr_fexp_spec m e l Hm) as (_ & He' & Hm1).
  destruct (shr_fexp prec emax m e l) as [mrs' e'] eqn:E1. cbn [fst snd] in *.
  fold e1 in He'. subst e'.
  set (mr := round_nearest_even (shr_m mrs') (loc_of_shr_record mrs')).
  assert (Hmr : shr_m mrs' <= mr <= shr_m mrs' + 1) by apply round_nearest_even_bounds.
  assert (Hmr0 : 0 <= mr) by lia.
  pose proof (shr_fexp_spec mr e1 loc_Exact Hmr0) as (_ & He'' & Hm2).
  destruct (shr_fexp prec emax mr e1 loc_Exact) as [mrs'' e''] eqn:E2. cbn [fst snd] in *.
  assert (Hdig : Zdigits2 mr <= prec + 1).
  { apply Zdigits2_le; [lia | unfold prec; lia |].
    unfold prec in *. change (2 ^ (53 + 1)) with (2 * 2 ^ 53). lia. }
  assert (He1 : emin prec emax <= e1) by (unfold e1, fexp; lia).
  assert (Hb : e1 <= e'' <= e1 + 1) by (subst e''; unfold fexp in *; lia).
  destruct (shr_m mrs'') as [|p|p] eqn:Em; [reflexivity | | lia].
  destruct (Z.leb_spec e'' (emax - prec)); repeat split; lia.
Qed.

(** *** Integers as floats *)

Lemma shift_xO (m d : positive) : Z.pos (Pos.iter xO m d) = Z.pos m * 2 ^ Z.pos d.
Proof.
  induction d as [|d IH] using Pos.peano_ind.
  - cbn. lia.
  - rewrite Pos.iter_succ, Pos2Z.inj_succ, Z.pow_succ_r by lia.
    rewrite Pos2Z.inj_xO, IH. lia.
Qed.

Lemma binary_round_aux_canonical (s : bool) (m : positive) (e : Z) :
  2 ^ (prec - 1) <= Z.pos m < 2 ^ prec ->
  emin prec emax <= e <= emax - prec ->
  binary_round_aux prec emax s (Z.pos m) e loc_Exact = S754_finite s m e.
Proof.
  intros Hm He.
  assert (Hd : Z.pos (digits2_pos m) = prec)
    by (apply digits2_pos_unique; [exact Hm | unfold prec; lia]).
  assert (Hs : shr_fexp prec emax (Z.pos m) e loc_Exact
               = ({| shr_m := Z.pos m; shr_r := false; shr_s := false |}, e)).
  { unfold shr_fexp. cbn [Zdigits2]. rewrite Hd.
    replace (fexp prec emax (prec + e) - e) with 0 by (unfold fexp; lia).
    reflexivity. }
  unfold binary_round_aux. rewrite Hs. cbn [shr_m loc_of_shr_record round_nearest_even].
  rewrite Hs. cbn [shr_m].
  destruct (Z.leb_spec e (emax - prec)); [reflexivity | lia].
Qed.

(** [float64(n)] is exact for [1 <= n < 2^53]. *)
Lemma of_int_exact (n : Z) :
  1 <= n < 2 ^ prec ->
  exists (m : positive) (e : Z),
    of_int n = S754_finite false m e
    /\ Z.pos m = n * 2 ^ (- e)
    /\ 2 ^ (prec - 1) <= Z.pos m < 2 ^ prec
    /\ 1 - prec <= e <= 0.
Proof.
  intros Hn. destruct n as [|p|p]; try lia.
  unfold of_int. cbn [binary_normalize]. unfold binary_round.
  pose proof (digits2_pos_bounds p) as Hb.
  assert (Hd : Z.pos (digits2_pos p) <= prec) by (apply digits2_pos_le; [unfold prec|]; lia).
  assert (Hf : fexp prec emax (Z.pos (digits2_pos p) + 0) = Z.pos (digits2_pos p) - prec)
    by (unfold fexp, emin, prec, emax in *; lia).
  rewrite Hf. unfold shl_align.
  destruct (Z.pos (digits2_pos p) - prec - 0) as [|d|d] eqn:Ed; try lia.
  - exists p, 0.
    assert (Hdp : Z.pos (digits2_pos p) = prec) by lia. rewrite Hdp in Hb.
    split; [apply binary_round_aux_canonical; unfold emin, prec, emax in *; lia|].
    cbn. unfold prec in *. lia.
  - exists (Pos.iter xO p d), (Z.pos (digits2_pos p) - prec).
    assert (Hz : Z.pos (Pos.iter xO p d) = Z.pos p * 2 ^ Z.pos d) by apply shift_xO.
    assert (Hdd : Z.pos d = prec - Z.pos (digits2_pos p)) by lia.
    assert (Hm : 2 ^ (prec - 1) <= Z.pos (Pos.iter xO p d) < 2 ^ prec).
    { rewrite Hz, Hdd.
      replace (prec - 1) with ((Z.pos (digits2_pos p) - 1) + (prec - Z.pos (digits2_pos p))) by lia.
      replace (2 ^ prec) with (2 ^ Z.pos (digits2_pos p) * 2 ^ (prec - Z.pos (digits2_pos p))).
      2:{ rewrite <- Z.pow_add_r by lia. f_equal. lia. }
      rewrite Z.pow_add_r by lia.
      assert (0 < 2 ^ (prec - Z.pos (digits2_pos p))) by (apply Z.pow_pos_nonneg; lia).
      nia. }
    split; [apply binary_round_aux_canonical; [exact Hm | unfold emin, prec, emax in *; lia]|].
    split; [rewrite Hz; f_equal; f_equal; lia|].
    split; [exact Hm | unfold prec in *; lia].
Qed.

Lemma trunc_of_int (n : Z) : 1 <= n < 2 ^ prec -> trunc (of_int n) = Some n.
Proof.
  intros Hn. destruct (of_int_exact n Hn) as (m & e & -> & Hm & _ & He).
  cbn [trunc]. f_equal. rewrite Z.shiftl_div_pow2 by lia.
  rewrite Hm. apply Z.div_mul. apply Z.pow_nonzero; lia.
Qed.

Lemma one_eq : one = S754_finite false 4503599627370496 (-52).
Proof. reflexivity. Qed.

(** Multiplying a normal float by [1.0] changes nothing. *)
Lemma mul_one_r (m : positive) (e : Z) :
  2 ^ (prec - 1) <= Z.pos m < 2 ^ prec ->
  emin prec emax <= e <= emax - prec ->
  mul (S754_finite false m e) one = S754_finite false m e.
Proof.
  intros Hm He. rewrite one_eq. unfold mul. cbn [SFmul xorb].
  assert (Hd : Z.pos (digits2_pos m) = prec)
    by (apply digits2_pos_unique; [exact Hm | unfold prec; lia]).
  rewrite Pos.mul_comm.
  assert (Hs : shr_fexp prec emax (Z.pos (4503599627370496 * m)) (e + -52) loc_Exact
               = ({| shr_m := Z.pos m; shr_r := false; shr_s := false |}, e)).
  { unfold shr_fexp.
    assert (Hdm : Zdigits2 (Z.pos (4503599627370496 * m)) = prec + 52).
    { cbn [Zdigits2]. apply digits2_pos_unique; [|unfold prec; lia].
      rewrite Pos2Z.inj_mul. unfold prec in *.
      change (2 ^ (53 + 52 - 1)) with (4503599627370496 * 2 ^ 52).
      change (2 ^ (53 + 52)) with (4503599627370496 * 2 ^ 53).
      change (2 ^ (53 - 1)) with (2 ^ 52) in Hm. lia. }
    rewrite Hdm.
    replace (fexp prec emax (prec + 52 + (e + -52)) - (e + -52)) with 52
      by (unfold fexp; lia).
    cbn -[Z.add]. f_equal. lia. }
  unfold binary_round_aux. rewrite Hs. cbn [shr_m loc_of_shr_record round_nearest_even].
  assert (Hs' : shr_fexp prec emax (Z.pos m) e loc_Exact
               = ({| shr_m := Z.pos m; shr_r := false; shr_s := false |}, e)).
  { unfold shr_fexp. cbn [Zdigits2]. rewrite Hd.
    replace (fexp prec emax (prec + e) - e) with 0 by (unfold fexp; lia).
    reflexivity. }
  rewrite Hs'. cbn [shr_m].
  destruct (Z.leb_spec e (emax - prec)); [reflexivity | lia].
Qed.

(** [int(float64(n) * 1.0) = n] for [1 <= n < 2^53]. *)
Lemma to_int_mul_one (n : Z) :
  1 <= n < 2 ^ prec -> to_int (mul (of_int n) one) = Some n.
Proof.
  intros Hn. pose proof (trunc_of_int n Hn) as Ht.
  destruct (of_int_exact n Hn) as (m & e & Hof & _ & Hm & He).
  rewrite Hof in *. rewrite mul_one_r; [|exact Hm | unfold emin, prec, emax in *; lia].
  unfold to_int. rewrite Ht.
  replace (in_int64 n) with true; [reflexivity|].
  symmetry. unfold in_int64, min_int64, max_int64, prec in *.
  apply andb_true_intro. split; apply Z.leb_le; lia.
Qed.

(** *** Rounding a mantissa of at least 53 bits *)

Lemma Zdigits2_pos_lower (m : positive) : 2 ^ (Zdigits2 (Z.pos m) - 1) <= Z.pos m.
Proof. cbn [Zdigits2]. apply digits2_pos_bounds. Qed.

(** In the normal range [binary_round_aux] drops the low bits of the
    mantissa and rounds up by at most one unit in the last place; the result
    is a normal float. *)
Lemma binary_round_aux_normal (s : bool) (M : positive) (E : Z) (l : location) :
  let k := Zdigits2 (Z.pos M) - prec in
  0 <= k ->
  emin prec emax <= E + k ->
  E + k + 1 <= emax - prec ->
  exists (m : positive) (e mr : Z),
    binary_round_aux prec emax s (Z.pos M) E l = S754_finite s m e
    /\ 2 ^ (prec - 1) <= Z.pos m < 2 ^ prec
    /\ E + k <= e <= E + k + 1
    /\ Z.pos M / 2 ^ k <= mr <= Z.pos M / 2 ^ k + 1
    /\ Z.pos m * 2 ^ (e - (E + k)) = mr
    /\ 2 ^ (prec - 1) <= Z.pos M / 2 ^ k.
Proof.
  intros k Hk Hmin Hmax.
  assert (Hfexp : fexp prec emax (Zdigits2 (Z.pos M) + E) = E + k)
    by (unfold fexp, k in *; lia).
  assert (He1 : Z.max E (fexp prec emax (Zdigits2 (Z.pos M) + E)) = E + k) by lia.
  unfold binary_round_aux.
  pose proof (shr_fexp_spec (Z.pos M) E l ltac:(lia)) as (Hm1 & He' & Hb1).
  cbn zeta in Hm1, He', Hb1. rewrite He1 in Hm1, He'.
  replace (E + k - E) with k in Hm1 by lia.
  destruct (shr_fexp prec emax (Z.pos M) E l) as [mrs' e'] eqn:E1. cbn [fst snd] in *.
  subst e'.
  assert (Hlow : 2 ^ (prec - 1) <= shr_m mrs').
  { rewrite Hm1. apply Z.div_le_lower_bound; [apply Z.pow_pos_nonneg; lia|].
    rewrite Z.mul_comm, <- Z.pow_add_r by (unfold prec; lia).
    replace (prec - 1 + k) with (Zdigits2 (Z.pos M) - 1) by (unfold k; lia).
    apply Zdigits2_pos_lower. }
  set (mr := round_nearest_even (shr_m mrs') (loc_of_shr_record mrs')).
  assert (Hmr : shr_m mrs' <= mr <= shr_m mrs' + 1) by apply round_nearest_even_bounds.
  assert (Hpow : 2 ^ prec = 2 * 2 ^ (prec - 1)) by reflexivity.
  assert (Hp52 : 0 < 2 ^ (prec - 1)) by reflexivity.
  destruct (Z_lt_le_dec mr (2 ^ prec)) as [Hsmall|Hbig].
  - (* no carry: the rounded mantissa still fits *)
    assert (Hd : Zdigits2 mr = prec).
    { destruct mr as [|p|p]; try lia. cbn [Zdigits2].
      apply digits2_pos_unique; [lia | unfold prec; lia]. }
    assert (Hs : shr_fexp prec emax mr (E + k) loc_Exact
                 = ({| shr_m := mr; shr_r := false; shr_s := false |}, E + k)).
    { unfold shr_fexp. rewrite Hd.
      replace (fexp prec emax (prec + (E + k)) - (E + k)) with 0 by (unfold fexp; lia).
      reflexivity. }
    rewrite Hs. cbn [shr_m].
    destruct mr as [|p|p] eqn:Emr; try lia.
    destruct (Z.leb_spec (E + k) (emax - prec)); [|lia].
    exists p, (E + k), (Z.pos p). rewrite Z.sub_diag, Z.mul_1_r.
    rewrite <- Hm1. split_and!; try reflexivity; lia.
  - (* carry: the mantissa became 2^53 and is shifted once more *)
    assert (Hmr53 : mr = 2 ^ prec) by lia.
    assert (Hs : shr_fexp prec emax mr (E + k) loc_Exact
                 = ({| shr_m := 2 ^ (prec - 1); shr_r := false; shr_s := false |},
                    E + k + 1)).
    { rewrite Hmr53. unfold shr_fexp.
      change (Zdigits2 (2 ^ prec)) with (prec + 1).
      replace (fexp prec emax (prec + 1 + (E + k)) - (E + k)) with 1 by (unfold fexp; lia).
      reflexivity. }
    rewrite Hs. cbn [shr_m]. change (2 ^ (prec - 1)) with (Z.pos 4503599627370496).
    destruct (Z.leb_spec (E + k + 1) (emax - prec)); [|lia].
    exists 4503599627370496%positive, (E + k + 1), mr.
    rewrite <- Hm1.
    replace (E + k + 1 - (E + k)) with 1 by lia.
    change (2 ^ (prec - 1)) with 4503599627370496 in *.
    change (2 ^ prec) with 9007199254740992 in *.
    split_and!; try reflexivity; lia.
Qed.

End Float64Facts.


(** ** The real value of [float64] operations

    The throughput of an insert run is a quotient of two [float64] numbers.
    To compare it with integer counts the finite floats are given their real
    value, and each rounding step is bounded by one unit in the last place. *)
Module Float64Real.
Import Float64 Float64Facts.
Import Float64Value.
Local Open Scope R_scope.

Lemma ulp_pos : 0 < ulp.
Proof. unfold ulp. lra. Qed.

Lemma pow2_pos (e : Z) : 0 < powerRZ 2 e.
Proof. apply powerRZ_lt. lra. Qed.

Lemma pow2_add (a b : Z) : powerRZ 2 (a + b) = powerRZ 2 a * powerRZ 2 b.
Proof. apply powerRZ_add. lra. Qed.

Lemma pow2_IZR (k : Z) : (0 <= k)%Z -> IZR (2 ^ k) = powerRZ 2 k.
Proof.
  destruct k as [|p|p]; intros Hk.
  - reflexivity.
  - apply (Zpower_pos_powerRZ 2 p).
  - lia.
Qed.

Lemma binary_round_aux_upper (M : positive) (E : Z) (l : location) :
  let k := (Zdigits2 (Z.pos M) - prec)%Z in
  (0 <= k)%Z ->
  (emin prec emax <= E + k)%Z ->
  (E + k + 1 <= emax - prec)%Z ->
  exists (m : positive) (e : Z),
    binary_round_aux prec emax false (Z.pos M) E l = S754_finite false m e
    /\ (2 ^ (prec - 1) <= Z.pos m < 2 ^ prec)%Z
    /\ (E + k <= e <= E + k + 1)%Z
    /\ F2R (S754_finite false m e) <= IZR (Z.pos M) * powerRZ 2 E * (1 + ulp).
Proof.
  intros k Hk Hlo Hhi. cbn [F2R].
  destruct (binary_round_aux_normal false M E l Hk Hlo Hhi)
    as (m & e & mr & Heq & Hm & He & Hmr & Hval & Hfl).
  fold k in Hmr, Hval, Hfl, He.
  exists m, e. split_and!; try assumption; try lia.
  replace e with ((e - (E + k)) + (E + k))%Z by lia.
  rewrite !pow2_add, <- pow2_IZR by lia.
  rewrite <- Rmult_assoc, <- mult_IZR, Hval.
  set (f := (Z.pos M / 2 ^ k)%Z) in *.
  assert (Hf : IZR f * powerRZ 2 k <= IZR (Z.pos M)).
  { rewrite <- pow2_IZR, <- mult_IZR by lia. apply IZR_le.
    unfold f. pose proof (Z.pow_pos_nonneg 2 k). Z.div_mod_to_equations. lia. }
  assert (Hmr' : IZR mr <= IZR f + 1).
  { rewrite <- plus_IZR. apply IZR_le. lia. }
  assert (Hf52 : 4503599627370496 <= IZR f).
  { apply IZR_le. change (2 ^ (prec - 1))%Z with 4503599627370496%Z in Hfl. lia. }
  pose proof (pow2_pos E) as HE. pose proof (pow2_pos k) as Hpk.
  assert (Hone : IZR f + 1 <= IZR f * (1 + ulp)).
  { unfold ulp. lra. }
  apply Rle_trans with (IZR f * (1 + ulp) * (powerRZ 2 E * powerRZ 2 k)).
  - apply Rmult_le_compat_r; [|lra].
    apply Rlt_le, Rmult_lt_0_compat; assumption.
  - pose proof ulp_pos.
    replace (IZR f * (1 + ulp) * (powerRZ 2 E * powerRZ 2 k))
      with (IZR f * powerRZ 2 k * (powerRZ 2 E * (1 + ulp))) by ring.
    replace (IZR (Z.pos M) * powerRZ 2 E * (1 + ulp))
      with (IZR (Z.pos M) * (powerRZ 2 E * (1 + ulp))) by ring.
    apply Rmult_le_compat_r; [|assumption].
    apply Rlt_le, Rmult_lt_0_compat; lra.
Qed.

Lemma Zdigits2_range (m : positive) (j : Z) :
  (1 <= j)%Z -> (2 ^ (j - 1) <= Z.pos m < 2 ^ (j + 1))%Z ->
  (j <= Zdigits2 (Z.pos m) <= j + 1)%Z.
Proof.
  intros Hj [Hlo Hhi]. split.
  - pose proof (Zdigits2_upper (Z.pos m) ltac:(lia)) as Hup.
    pose proof (Zdigits2_nonneg (Z.pos m)) as Hnn.
    assert (Hlt : (2 ^ (j - 1) < 2 ^ Zdigits2 (Z.pos m))%Z) by lia.
    apply Z.pow_lt_mono_r_iff in Hlt; lia.
  - apply Zdigits2_le; lia.
Qed.

(** The quotient of two positive normal floats: a positive normal float that
    exceeds the exact quotient by at most one unit in the last place. *)
Lemma div_upper (mx my : positive) (ex ey : Z) :
  (2 ^ (prec - 1) <= Z.pos mx < 2 ^ prec)%Z ->
  (2 ^ (prec - 1) <= Z.pos my < 2 ^ prec)%Z ->
  (-1000 <= ex - ey <= 1000)%Z ->
  exists (mq : positive) (eq : Z),
    div (S754_finite false mx ex) (S754_finite false my ey) = S754_finite false mq eq
    /\ (2 ^ (prec - 1) <= Z.pos mq < 2 ^ prec)%Z
    /\ (ex - ey - 53 <= eq <= ex - ey - 51)%Z
    /\ F2R (S754_finite false mq eq) * F2R (S754_finite false my ey)
       <= F2R (S754_finite false mx ex) * (1 + ulp).
Proof.
  intros Hx Hy He. cbn [F2R].
  change (2 ^ (prec - 1))%Z with 4503599627370496%Z in *.
  change (2 ^ prec)%Z with 9007199254740992%Z in *.
  unfold div, SFdiv, SFdiv_core_binary. cbn [xorb].
  assert (Hdx : Zdigits2 (Z.pos mx) = 53%Z).
  { cbn [Zdigits2]. apply digits2_pos_unique; [|lia].
    change (2 ^ (53 - 1))%Z with 4503599627370496%Z.
    change (2 ^ 53)%Z with 9007199254740992%Z. lia. }
  assert (Hdy : Zdigits2 (Z.pos my) = 53%Z).
  { cbn [Zdigits2]. apply digits2_pos_unique; [|lia].
    change (2 ^ (53 - 1))%Z with 4503599627370496%Z.
    change (2 ^ 53)%Z with 9007199254740992%Z. lia. }
  rewrite Hdx, Hdy.
  assert (He' : Z.min (fexp prec emax (53 + ex - (53 + ey))) (ex - ey)
                = (ex - ey - 53)%Z).
  { unfold fexp, emin, prec, emax. lia. }
  rewrite He'.
  replace (ex - ey - (ex - ey - 53))%Z with 53%Z by lia.
  cbv iota. rewrite Z.shiftl_mul_pow2 by lia.
  change (2 ^ 53)%Z with 9007199254740992%Z.
  pose proof (Z_div_mod (Z.pos mx * 9007199254740992) (Z.pos my) ltac:(lia)) as Hdm.
  destruct (Z.div_eucl (Z.pos mx * 9007199254740992) (Z.pos my)) as [q r].
  destruct Hdm as [Hdm Hr].
  assert (Hq : (4503599627370496 <= q < 18014398509481984)%Z) by nia.
  destruct q as [|Q|Q]; try lia.
  pose proof (Zdigits2_range Q 53 ltac:(lia)) as HdQ.
  change (2 ^ (53 - 1))%Z with 4503599627370496%Z in HdQ.
  change (2 ^ (53 + 1))%Z with 18014398509481984%Z in HdQ.
  specialize (HdQ Hq).
  destruct (binary_round_aux_upper Q (ex - ey - 53) (new_location (Z.pos my) r))
    as (m & e & Heq & Hm & Hee & Hval).
  { unfold prec. lia. }
  { unfold emin, prec, emax. lia. }
  { unfold prec, emax. lia. }
  exists m, e. split_and!; try assumption; try (unfold prec in *; lia).
  pose proof ulp_pos as Hu.
  pose proof (pow2_pos ey) as Hpy. pose proof (pow2_pos ex) as Hpx.
  pose proof (pow2_pos (ex - ey - 53)) as Hpe.
  assert (HQy : IZR (Z.pos Q) * IZR (Z.pos my) <= IZR (Z.pos mx) * 9007199254740992).
  { rewrite <- !mult_IZR. apply IZR_le. lia. }
  assert (Hpow : powerRZ 2 ex
                 = 9007199254740992 * powerRZ 2 (ex - ey - 53) * powerRZ 2 ey).
  { replace ex with (53 + (ex - ey - 53) + ey)%Z at 1 by lia.
    rewrite !pow2_add. f_equal. f_equal. rewrite <- pow2_IZR by lia. reflexivity. }
  apply Rle_trans with
    (IZR (Z.pos Q) * powerRZ 2 (ex - ey - 53) * (1 + ulp)
     * (IZR (Z.pos my) * powerRZ 2 ey)).
  - apply Rmult_le_compat_r; [|assumption].
    apply Rlt_le, Rmult_lt_0_compat; [apply IZR_lt; lia | assumption].
  - rewrite Hpow.
    replace (IZR (Z.pos Q) * powerRZ 2 (ex - ey - 53) * (1 + ulp)
             * (IZR (Z.pos my) * powerRZ 2 ey))
      with (IZR (Z.pos Q) * IZR (Z.pos my)
            * (powerRZ 2 (ex - ey - 53) * powerRZ 2 ey * (1 + ulp))) by ring.
    replace (IZR (Z.pos mx)
             * (9007199254740992 * powerRZ 2 (ex - ey - 53) * powerRZ 2 ey)
             * (1 + ulp))
      with (IZR (Z.pos mx) * 9007199254740992
            * (powerRZ 2 (ex - ey - 53) * powerRZ 2 ey * (1 + ulp))) by ring.
    apply Rmult_le_compat_r; [|assumption].
    apply Rlt_le. repeat apply Rmult_lt_0_compat; lra.
Qed.

(** The product of two positive normal floats exceeds the exact product by
    at most one unit in the last place. *)
Lemma mul_upper (mx my : positive) (ex ey : Z) :
  (2 ^ (prec - 1) <= Z.pos mx < 2 ^ prec)%Z ->
  (2 ^ (prec - 1) <= Z.pos my < 2 ^ prec)%Z ->
  (-1000 <= ex + ey <= 900)%Z ->
  exists (mp : positive) (ep : Z),
    mul (S754_finite false mx ex) (S754_finite false my ey) = S754_finite false mp ep
    /\ (2 ^ (prec - 1) <= Z.pos mp < 2 ^ prec)%Z
    /\ (ex + ey + 52 <= ep <= ex + ey + 54)%Z
    /\ F2R (S754_finite false mp ep)
       <= F2R (S754_finite false mx ex) * F2R (S754_finite false my ey)
          * (1 + ulp).
Proof.
  intros Hx Hy He. cbn [F2R].
  change (2 ^ (prec - 1))%Z with 4503599627370496%Z in *.
  change (2 ^ prec)%Z with 9007199254740992%Z in *.
  unfold mul, SFmul. cbn [xorb].
  pose proof (Zdigits2_range (mx * my) 105 ltac:(lia)) as Hd.
  change (2 ^ (105 - 1))%Z with (4503599627370496 * 4503599627370496)%Z in Hd.
  change (2 ^ (105 + 1))%Z with (9007199254740992 * 9007199254740992)%Z in Hd.
  rewrite Pos2Z.inj_mul in Hd. specialize (Hd ltac:(nia)).
  rewrite <- Pos2Z.inj_mul in Hd.
  destruct (binary_round_aux_upper (mx * my) (ex + ey) loc_Exact)
    as (m & e & Heq & Hm & Hee & Hval).
  { unfold prec. lia. }
  { unfold emin, prec, emax. lia. }
  { unfold prec, emax. lia. }
  exists m, e. split_and!; try assumption; try (unfold prec in *; lia).
  eapply Rle_trans; [exact Hval|].
  rewrite Pos2Z.inj_mul, mult_IZR, pow2_add.
  apply Req_le. ring.
Qed.

(** Truncation never exceeds the value. *)
Lemma trunc_lower (m : positive) (e : Z) :
  (0 <= Z.shiftl (Z.pos m) e)%Z
  /\ IZR (Z.shiftl (Z.pos m) e) <= F2R (S754_finite false m e).
Proof.
  cbn [F2R].
  split; [apply Z.shiftl_nonneg; lia|].
  destruct (Z_le_gt_dec 0 e) as [He|He].
  - rewrite Z.shiftl_mul_pow2, mult_IZR, pow2_IZR by lia. apply Rle_refl.
  - rewrite Z.shiftl_div_pow2 by lia.
    pose proof (pow2_pos (- e)) as Hp.
    apply Rmult_le_reg_r with (powerRZ 2 (- e)); [assumption|].
    rewrite Rmult_assoc, <- pow2_add.
    replace (e + - e)%Z with 0%Z by lia. cbn [powerRZ]. rewrite Rmult_1_r.
    rewrite <- pow2_IZR, <- mult_IZR by lia. apply IZR_le.
    pose proof (Z.pow_pos_nonneg 2 (- e)). Z.div_mod_to_equations. lia.
Qed.

(** Dividing a count by a positive normal float and multiplying the quotient
    by the same float again gives, once truncated, at most the count. *)
Theorem div_mul_to_int (x : Z) (my : positive) (ey : Z) :
  (0 <= x < 2 ^ 50)%Z ->
  (2 ^ (prec - 1) <= Z.pos my < 2 ^ prec)%Z ->
  (-200 <= ey <= 200)%Z ->
  let y := S754_finite false my ey in
  exists v : Z, to_int (mul (div (of_int x) y) y) = Some v /\ (0 <= v <= x)%Z.
Proof.
  intros Hx Hy Hey y.
  destruct (Z.eq_dec x 0%Z) as [->|Hx0].
  { exists 0%Z. split; [reflexivity | lia]. }
  destruct (of_int_exact x) as (mx & ex & Hof & Hmx & Hnx & Hex).
  { change (2 ^ prec)%Z with (2 ^ 50 * 8)%Z. lia. }
  unfold prec in Hex.
  destruct (div_upper mx my ex ey Hnx Hy ltac:(lia))
    as (mq & eq & Hdiv & Hnq & Heq & Hq).
  destruct (mul_upper mq my eq ey Hnq Hy ltac:(lia))
    as (mp & ep & Hmul & Hnp & Hep & Hp).
  cbn [F2R] in Hq, Hp.
  rewrite Hof. unfold y. rewrite Hdiv, Hmul.
  unfold to_int. cbn [trunc].
  destruct (trunc_lower mp ep) as [Hv0 Hv]. cbn [F2R] in Hv.
  set (v := Z.shiftl (Z.pos mp) ep) in *.
  assert (HxR : IZR (Z.pos mx) * powerRZ 2 ex = IZR x).
  { rewrite Hmx, mult_IZR, pow2_IZR, Rmult_assoc, <- pow2_add by lia.
    replace (- ex + ex)%Z with 0%Z by lia. cbn [powerRZ]. ring. }
  rewrite HxR in Hq.
  assert (Hx50 : 1 <= IZR x <= 1125899906842624).
  { split; apply IZR_le; [lia|]. change (2 ^ 50)%Z with 1125899906842624%Z in Hx. lia. }
  pose proof ulp_pos as Hu.
  assert (Hbound : IZR v < IZR x + 1).
  { eapply Rle_lt_trans; [exact Hv|]. eapply Rle_lt_trans; [exact Hp|].
    apply Rle_lt_trans with (IZR x * (1 + ulp) * (1 + ulp)).
    - apply Rmult_le_compat_r; [lra | exact Hq].
    - unfold ulp in *. nra. }
  rewrite <- plus_IZR in Hbound. apply lt_IZR in Hbound.
  exists v. split; [|lia].
  assert (Hfit : GoInt.in_int64 v = true).
  { unfold GoInt.in_int64, GoInt.min_int64, GoInt.max_int64.
    change (2 ^ 50)%Z with 1125899906842624%Z in Hx.
    change (2 ^ 63)%Z with 9223372036854775808%Z.
    apply andb_true_intro; split; apply Z.leb_le; lia. }
  now rewrite Hfit.
Qed.

End Float64Real.


(** ** [Duration.Seconds] as a float *)

Module SecondsFacts.
Import GoInt Float64 Float64Facts Float64Real Generator Benchmark.
Import Float64Value.
Local Open Scope Z_scope.

Lemma of_int_billion :
  of_int 1000000000 = S754_finite false 8388608000000000 (-23).
Proof. vm_compute. reflexivity. Qed.

Lemma shl_align_spec (m : positive) (e e' : Z) :
  e' <= e -> Z.pos (fst (shl_align m e e')) = Z.pos m * 2 ^ (e - e').
Proof.
  intros He. unfold shl_align.
  destruct (e' - e) as [|d|d] eqn:Hd; cbn [fst]; try lia.
  - replace (e - e') with 0 by lia. lia.
  - rewrite shift_xO. f_equal. f_equal. lia.
Qed.

(** The sum of two positive normal floats whose exponents are moderate is a
    positive normal float. *)
Lemma add_normal (mx my : positive) (ex ey : Z) :
  2 ^ (prec - 1) <= Z.pos mx < 2 ^ prec ->
  2 ^ (prec - 1) <= Z.pos my < 2 ^ prec ->
  -100 <= ex <= 0 -> -100 <= ey <= 0 ->
  exists (m : positive) (e : Z),
    SFadd prec emax (S754_finite false mx ex) (S754_finite false my ey)
    = S754_finite false m e
    /\ 2 ^ (prec - 1) <= Z.pos m < 2 ^ prec
    /\ -100 <= e <= 200.
Proof.
  intros Hx Hy Hex Hey.
  change (2 ^ (prec - 1)) with 4503599627370496 in *.
  change (2 ^ prec) with 9007199254740992 in *.
  cbn [SFadd cond_Zopp].
  set (ez := Z.min ex ey).
  assert (Hez : -100 <= ez <= 0 /\ ez <= ex /\ ez <= ey) by (unfold ez; lia).
  pose proof (shl_align_spec mx ex ez ltac:(lia)) as Ha.
  pose proof (shl_align_spec my ey ez ltac:(lia)) as Hb.
  set (a := fst (shl_align mx ex ez)) in *.
  set (b := fst (shl_align my ey ez)) in *.
  change (Z.pos a + Z.pos b) with (Z.pos (a + b)).
  cbn [binary_normalize]. unfold binary_round.
  assert (Hpx : 1 <= 2 ^ (ex - ez) <= 2 ^ 100).
  { split; [pose proof (Z.pow_pos_nonneg 2 (ex - ez)); lia|].
    apply Z.pow_le_mono_r; lia. }
  assert (Hpy : 1 <= 2 ^ (ey - ez) <= 2 ^ 100).
  { split; [pose proof (Z.pow_pos_nonneg 2 (ey - ez)); lia|].
    apply Z.pow_le_mono_r; lia. }
  assert (Hsum : 2 ^ 52 <= Z.pos (a + b) < 2 ^ 154).
  { rewrite Pos2Z.inj_add, Ha, Hb.
    change (2 ^ 52) with 4503599627370496.
    change (2 ^ 154) with (9007199254740992 * 2 ^ 100 + 9007199254740992 * 2 ^ 100).
    nia. }
  assert (Hd : 53 <= Zdigits2 (Z.pos (a + b)) <= 154).
  { split.
    - pose proof (Zdigits2_upper (Z.pos (a + b)) ltac:(lia)) as Hup.
      pose proof (Zdigits2_nonneg (Z.pos (a + b))) as Hnn.
      assert (Hlt : 2 ^ 52 < 2 ^ Zdigits2 (Z.pos (a + b))) by lia.
      apply Z.pow_lt_mono_r_iff in Hlt; lia.
    - apply Zdigits2_le; lia. }
  cbn [Zdigits2] in Hd.
  assert (Hal : shl_align (a + b) ez
                  (fexp prec emax (Z.pos (digits2_pos (a + b)) + ez))
                = (a + b, ez)%positive).
  { assert (Hf : fexp prec emax (Z.pos (digits2_pos (a + b)) + ez)
                 = Z.pos (digits2_pos (a + b)) + ez - 53)
      by (unfold fexp, emin, prec, emax; lia).
    rewrite Hf. unfold shl_align.
    destruct (Z.pos (digits2_pos (a + b)) + ez - 53 - ez) eqn:Hs;
      try reflexivity. exfalso. clear - Hd Hs. lia. }
  rewrite Hal.
  destruct (binary_round_aux_normal false (a + b) ez loc_Exact)
    as (m & e & mr & Heq & Hm & He & _).
  { cbn [Zdigits2]. unfold prec. lia. }
  { cbn [Zdigits2]. unfold emin, prec, emax. lia. }
  { cbn [Zdigits2]. unfold prec, emax. lia. }
  exists m, e. cbn [Zdigits2] in He. unfold prec in He.
  change (2 ^ (prec - 1)) with 4503599627370496 in Hm.
  change (2 ^ prec) with 9007199254740992 in Hm.
  split_and!; try assumption; lia.
Qed.

(** A positive duration lasts a positive, normal number of seconds. *)
Lemma Seconds_normal (d : Z) :
  1 <= d <= max_int64 ->
  exists (m : positive) (e : Z),
    Seconds d = S754_finite false m e
    /\ 2 ^ (prec - 1) <= Z.pos m < 2 ^ prec
    /\ -200 <= e <= 200.
Proof.
  intros Hd. unfold Seconds, Second.
  rewrite Z.quot_div_nonneg, Z.rem_mod_nonneg by lia.
  assert (Hsec : 0 <= d / 1000000000 < 2 ^ 34).
  { unfold max_int64 in Hd. change (2 ^ 63) with 9223372036854775808 in Hd.
    change (2 ^ 34) with 17179869184. Z.div_mod_to_equations. lia. }
  assert (Hns : 0 <= d mod 1000000000 < 1000000000)
    by (apply Z.mod_pos_bound; lia).
  assert (Hne : d / 1000000000 <> 0 \/ d mod 1000000000 <> 0)
    by (Z.div_mod_to_equations; lia).
  set (sec := d / 1000000000) in *. set (ns := d mod 1000000000) in *.
  rewrite of_int_billion.
  destruct (Z.eq_dec ns 0) as [Hz|Hnz].
  - rewrite Hz. change (div (of_int 0) _) with (S754_zero false).
    destruct (of_int_exact sec) as (m & e & -> & _ & Hm & He).
    { change (2 ^ prec) with (2 ^ 34 * 524288). lia. }
    exists m, e. cbn [SFadd]. unfold prec in He. split_and!; try done; lia.
  - destruct (of_int_exact ns) as (mn & en & -> & _ & Hmn & Hen).
    { change (2 ^ prec) with 9007199254740992. lia. }
    unfold prec in Hen.
    destruct (div_upper mn 8388608000000000 en (-23) Hmn)
      as (mf & ef & -> & Hmf & Hef & _).
    { split; [apply Z.leb_le | apply Z.ltb_lt]; reflexivity. }
    { lia. }
    destruct (Z.eq_dec sec 0) as [Hs|Hs].
    + rewrite Hs. change (of_int 0) with (S754_zero false). cbn [SFadd].
      exists mf, ef. split_and!; try done; lia.
    + destruct (of_int_exact sec) as (m & e & -> & _ & Hm & He).
      { change (2 ^ prec) with (2 ^ 34 * 524288). lia. }
      unfold prec in He.
      destruct (add_normal m mf e ef Hm Hmf ltac:(lia) ltac:(lia))
        as (m' & e' & -> & Hm' & He').
      exists m', e'. split_and!; try done; lia.
Qed.

End SecondsFacts.

(** ** Percentile, MaxDuration and the store *)

Module StatsFacts.
Import GoInt Float64 Float64Facts Stats.
Import StatsSpec.
Local Open Scope Z_scope.

Lemma contents_insert (h : store) (s : loc) (l : list Z) :
  contents (<[s := l]> h) s = l.
Proof. unfold contents. now rewrite lookup_insert_eq. Qed.

Lemma contents_insert_ne (h : store) (s s' : loc) (l : list Z) :
  s ≠ s' -> contents (<[s := l]> h) s' = contents h s'.
Proof. intros Hne. unfold contents. now rewrite lookup_insert_ne. Qed.

Lemma contents_allocated (h : store) (s : loc) :
  contents h s ≠ [] -> s ∈ dom h.
Proof.
  unfold contents. intros Hne. apply elem_of_dom.
  destruct (h !! s); [eauto | now cbn in Hne].
Qed.

Lemma fresh_not_allocated (h : store) (s : loc) :
  contents h s ≠ [] -> fresh (dom h) ≠ s.
Proof.
  intros Hne Heq. apply contents_allocated in Hne.
  rewrite <- Heq in Hne. now apply is_fresh in Hne.
Qed.

Lemma merge_sort_length (l : list Z) : length (merge_sort Z.le l) = length l.
Proof. apply Permutation_length, merge_sort_Permutation. Qed.

(** On a non-empty slice [Percentile] allocates one new backing array, which
    ends up holding the ascending arrangement of the input, and picks from it. *)
Lemma Percentile_unfold (h : store) (durations : loc) (p : float64) :
  contents h durations ≠ [] ->
  Percentile durations p h
  = (pick_rank (merge_sort Z.le (contents h durations))
       (rank (len (contents h durations)) p),
     <[fresh (dom h) := merge_sort Z.le (contents h durations)]> h).
Proof.
  intros Hne. pose proof (fresh_not_allocated h durations Hne) as Hfresh.
  unfold Percentile.
  destruct (Z.eqb_spec (len (contents h durations)) 0) as [H0|_].
  { unfold len in H0. destruct (contents h durations); [congruence | cbn in H0; lia]. }
  unfold make, copy, sort_Slice. cbv beta iota zeta.
  remember (fresh (dom h)) as s eqn:Es.
  rewrite !contents_insert.
  rewrite (contents_insert_ne _ s durations) by assumption.
  remember (contents h durations) as ds eqn:Eds.
  rewrite length_replicate, Nat.min_id.
  rewrite firstn_all, drop_ge by (rewrite length_replicate; lia).
  rewrite ?app_nil_r, ?insert_insert_eq, ?contents_insert.
  unfold len. rewrite merge_sort_length.
  unfold pick_rank, len. rewrite merge_sort_length.
  destruct (rank (Z.of_nat (length ds)) p) as [index|]; [|reflexivity].
  destruct (_ <? 0); [reflexivity|].
  destruct (_ !! _); reflexivity.
Qed.

(** *** The rank of a percentile in [0, 1] *)

Lemma leb_zero_cases (p : float64) :
  leb zero p = true ->
  match p with
  | S754_zero _ | S754_infinity false | S754_finite false _ _ => True
  | _ => False
  end.
Proof.
  intros Hle. destruct p as [s|[]| |[] m e]; cbn in *; try exact I; discriminate.
Qed.

Lemma leb_one_exponent (m : positive) (e : Z) :
  leb (S754_finite false m e) one = true -> e <= -52.
Proof.
  rewrite one_eq. unfold leb, SFleb. cbn [SFcompare].
  destruct (Z.compare_spec e (-52)) as [Hc|Hc|Hc]; intros Hle; try lia; discriminate.
Qed.

Lemma valid_mantissa (s : bool) (m : positive) (e : Z) :
  is_float64 (S754_finite s m e) -> Z.pos m < 2 ^ prec.
Proof.
  unfold is_float64. cbn [valid_binary]. unfold bounded, canonical_mantissa.
  intros H. apply andb_prop in H as [H _]. apply Z.eqb_eq in H.
  pose proof (digits2_pos_bounds m) as [_ Hhi].
  eapply Z.lt_le_trans; [exact Hhi|].
  apply Z.pow_le_mono_r; [lia|]. unfold fexp, prec in *. lia.
Qed.

(** For [p] in [0, 1] and a length below [2^53] the conversion [int(...)]
    is defined and the index is not negative. *)
Lemma rank_in_range (n : Z) (p : float64) :
  is_float64 p -> leb zero p = true -> leb p one = true ->
  1 <= n < 2 ^ prec ->
  exists index, rank n p = Some index /\ 0 <= index.
Proof.
  intros Hv H0 H1 Hn.
  destruct (of_int_exact n Hn) as (ml & el & Hof & _ & Hml & Hel).
  unfold rank. rewrite Hof.
  pose proof (leb_zero_cases p H0) as Hc.
  destruct p as [s|[]| |[] mp ep]; try contradiction.
  - exists 0. split; [reflexivity | lia].
  - discriminate H1.
  - pose proof (leb_one_exponent mp ep H1) as Hep.
    pose proof (valid_mantissa false mp ep Hv) as Hmp.
    unfold mul. cbn [SFmul xorb].
    pose proof (binary_round_aux_cases false (Z.pos (ml * mp)) (el + ep) loc_Exact
                  ltac:(lia)) as Hr.
    cbn zeta in Hr.
    assert (Hdig : Zdigits2 (Z.pos (ml * mp)) <= 2 * prec).
    { apply Zdigits2_le; [lia | unfold prec; lia |].
      rewrite Pos2Z.inj_mul. unfold prec in *.
      change (2 ^ (2 * 53)) with (2 ^ 53 * 2 ^ 53). nia. }
    assert (He1 : Z.max (el + ep) (fexp prec emax (Zdigits2 (Z.pos (ml * mp)) + (el + ep))) <= 1)
      by (unfold fexp, emin, prec, emax in *; lia).
    destruct (binary_round_aux prec emax false (Z.pos (ml * mp)) (el + ep) loc_Exact)
      as [s'|s'| |s' m' e'].
    + exists 0. split; [reflexivity | lia].
    + unfold prec, emax in *. lia.
    + contradiction.
    + destruct Hr as (-> & Hm' & He' & _).
      assert (Hb : 0 <= Z.shiftl (Z.pos m') e' < 2 ^ 55).
      { destruct (Z_le_gt_dec 0 e') as [Hpos|Hneg].
        - rewrite Z.shiftl_mul_pow2 by lia.
          assert (2 ^ e' <= 2 ^ 2) by (apply Z.pow_le_mono_r; lia).
          assert (0 < 2 ^ e') by (apply Z.pow_pos_nonneg; lia).
          unfold prec in *. change (2 ^ 55) with (2 ^ 53 * 2 ^ 2). nia.
        - rewrite Z.shiftl_div_pow2 by lia.
          assert (0 < 2 ^ (- e')) by (apply Z.pow_pos_nonneg; lia).
          split; [apply Z.div_pos; lia|].
          apply Z.div_lt_upper_bound; [lia|]. unfold prec in *.
          assert (1 <= 2 ^ (- e')) by lia.
          assert (2 ^ 53 < 2 ^ 55) by (cbn; lia). nia. }
      exists (Z.shiftl (Z.pos m') e'). split; [|lia].
      unfold to_int. cbn [trunc].
      replace (in_int64 (Z.shiftl (Z.pos m') e')) with true; [reflexivity|].
      symmetry. unfold in_int64, min_int64, max_int64.
      assert (2 ^ 55 < 2 ^ 63) by (cbn; lia).
      apply andb_true_intro. split; apply Z.leb_le; lia.
Qed.

(** *** The largest element *)

Lemma fold_max_spec (rest : list Z) (d0 : Z) :
  let r := fold_left (fun result d => if d >? result then d else result) rest d0 in
  r ∈ d0 :: rest /\ Forall (fun d => d <= r) (d0 :: rest).
Proof.
  revert d0. induction rest as [|d rest IH]; intros d0; cbn [fold_left].
  - split; [left | repeat constructor; lia].
  - specialize (IH (if d >? d0 then d else d0)). cbn zeta in IH.
    destruct IH as [Hin Hall].
    apply Forall_cons in Hall as [Hhd Hall].
    split.
    + apply elem_of_cons in Hin as [Hin|Hin].
      * rewrite Hin. destruct (d >? d0); [right; left | left].
      * right; right; exact Hin.
    + destruct (Z.gtb_spec d d0); repeat (apply Forall_cons; split); try lia; exact Hall.
Qed.

Lemma MaxDuration_in (ds : list Z) : ds ≠ [] -> MaxDuration ds ∈ ds.
Proof. destruct ds as [|d0 rest]; [congruence|]. intros _. apply fold_max_spec. Qed.

Lemma MaxDuration_upper (ds : list Z) (d : Z) : d ∈ ds -> d <= MaxDuration ds.
Proof.
  destruct ds as [|d0 rest]; [now intros ?%elem_of_nil|].
  intros Hin. pose proof (fold_max_spec rest d0) as [_ Hall].
  rewrite Forall_forall in Hall. now apply Hall.
Qed.

Lemma Sorted_last_upper (l : list Z) (i : nat) (x y : Z) :
  Sorted Z.le l -> l !! i = Some x -> l !! (length l - 1)%nat = Some y -> x <= y.
Proof.
  intros Hs. apply (Sorted_StronglySorted Z.le) in Hs.
  revert i. induction Hs as [|a l Hs IH Hall]; intros i Hx Hy; [discriminate|].
  destruct l as [|b l'].
  - destruct i; cbn in *; [injection Hx as <-; injection Hy as <-; lia | discriminate].
  - cbn [length] in Hy. replace (S (S (length l')) - 1)%nat with (S (length l')) in Hy by lia.
    cbn [lookup list_lookup] in Hy.
    destruct i as [|i]; cbn in Hx.
    + injection Hx as <-. rewrite Forall_forall in Hall.
      apply Hall. eapply list_elem_of_lookup_2. exact Hy.
    + apply (IH i Hx). cbn [length]. now replace (S (length l') - 1)%nat with (length l') by lia.
Qed.

(** The last element of the ascending arrangement is [MaxDuration]. *)
Lemma sorted_last_is_Max (ds : list Z) :
  ds ≠ [] ->
  merge_sort Z.le ds !! (length ds - 1)%nat = Some (MaxDuration ds).
Proof.
  intros Hne.
  assert (Hlen : (0 < length ds)%nat) by (destruct ds; [congruence | cbn; lia]).
  destruct (lookup_lt_is_Some_2 (merge_sort Z.le ds) (length ds - 1)) as [y Hy].
  { rewrite merge_sort_length. lia. }
  rewrite Hy. f_equal. apply Z.le_antisymm.
  - apply MaxDuration_upper. rewrite <- (merge_sort_Permutation Z.le ds).
    eapply list_elem_of_lookup_2. exact Hy.
  - assert (Hin : MaxDuration ds ∈ merge_sort Z.le ds)
      by (rewrite merge_sort_Permutation; now apply MaxDuration_in).
    apply list_elem_of_lookup_1 in Hin as [i Hi].
    eapply Sorted_last_upper; [apply Sorted_merge_sort, _ | exact Hi |].
    rewrite merge_sort_length. exact Hy.
Qed.

(** On a slice given by its value, a percentile in [0, 1] is returned. *)
Lemma Percentile_of_returns (ds : list Z) (p : float64) :
  ds ≠ [] -> len ds < 2 ^ 53 ->
  is_float64 p -> leb zero p = true -> leb p one = true ->
  exists d, Percentile_of ds p = Returns d.
Proof.
  intros Hne Hlen Hv H0 H1. unfold Percentile_of.
  assert (Hc : contents {[1%positive := ds]} 1%positive = ds)
    by (unfold contents; now rewrite lookup_singleton_eq).
  rewrite Percentile_unfold by (now rewrite Hc). cbn [fst]. rewrite Hc.
  assert (Hpos : 1 <= len ds) by (unfold len; destruct ds; [congruence | cbn; lia]).
  destruct (rank_in_range (len ds) p Hv H0 H1) as (index & Hr & Hi).
  { unfold prec. lia. }
  rewrite Hr. unfold pick_rank.
  assert (Hsl : len (merge_sort Z.le ds) = len ds)
    by (unfold len; now rewrite merge_sort_length).
  rewrite Hsl.
  destruct (lookup_lt_is_Some_2 (merge_sort Z.le ds)
              (Z.to_nat (if index >=? len ds then len ds - 1 else index))) as [d Hd].
  { rewrite merge_sort_length. unfold len in *.
    destruct (Z.geb_spec index (Z.of_nat (length ds))); lia. }
  exists d. rewrite Hd.
  destruct (Z.geb_spec index (len ds)) as [Hge|Hlt].
  - destruct (Z.ltb_spec (len ds - 1) 0); [lia | reflexivity].
  - destruct (Z.ltb_spec index 0); [lia | reflexivity].
Qed.

End StatsFacts.

(** ** Percentile: what it returns and what it leaves alone *)

Module StatsClaims.
Import GoInt Float64 Float64Facts Stats StatsFacts.
Import StatsSpec Sample.
Local Open Scope Z_scope.

(** C4.  For a non-empty slice and [p] in [0, 1], [Percentile] returns the
    element of the ascending arrangement of the input at the index
    [int(float64(len) * p)], the floor of the float64 product, clamped to
    [len - 1]: the nearest rank, with no interpolation.  On 1ms..100ms the
    indices for 0.50, 0.95 and 0.99 are 50, 95 and 99, and the results 51ms,
    96ms and 100ms.  (A slice holds fewer than [2^53] elements.) *)
Theorem Percentile_nearest_rank (h : store) (durations : loc) (p : float64) :
  contents h durations ≠ [] ->
  len (contents h durations) < 2 ^ 53 ->
  is_float64 p -> leb zero p = true -> leb p one = true ->
  (exists index sorted d,
      rank (len (contents h durations)) p = Some index
      /\ 0 <= index
      /\ Sorted Z.le sorted
      /\ sorted ≡ₚ contents h durations
      /\ sorted !! Z.to_nat (Z.min index (len sorted - 1)) = Some d
      /\ fst (Percentile durations p h) = Returns d)
  /\ (rank 100 (lit 50 100) = Some 50
      /\ Percentile_of ms_1_to_100 (lit 50 100) = Returns (51 * Millisecond))
  /\ (rank 100 (lit 95 100) = Some 95
      /\ Percentile_of ms_1_to_100 (lit 95 100) = Returns (96 * Millisecond))
  /\ (rank 100 (lit 99 100) = Some 99
      /\ Percentile_of ms_1_to_100 (lit 99 100) = Returns (100 * Millisecond)).
Proof.
  intros Hne Hlen Hv H0 H1.
  split; [|repeat split; vm_compute; reflexivity].
  set (ds := contents h durations) in *.
  assert (Hpos : 1 <= len ds) by (unfold len; destruct ds; [congruence | cbn; lia]).
  destruct (rank_in_range (len ds) p Hv H0 H1) as (index & Hr & Hi).
  { unfold prec. lia. }
  assert (Hsl : len (merge_sort Z.le ds) = len ds)
    by (unfold len; now rewrite merge_sort_length).
  destruct (lookup_lt_is_Some_2 (merge_sort Z.le ds)
              (Z.to_nat (Z.min index (len ds - 1)))) as [d Hd].
  { rewrite merge_sort_length. unfold len in *. lia. }
  exists index, (merge_sort Z.le ds), d.
  split; [exact Hr|]. split; [exact Hi|].
  split; [apply Sorted_merge_sort, _|].
  split; [apply merge_sort_Permutation|].
  rewrite Hsl. split; [exact Hd|].
  rewrite Percentile_unfold by assumption. cbn [fst]. fold ds.
  rewrite Hr. unfold pick_rank. rewrite Hsl.
  replace (if index >=? len ds then len ds - 1 else index)
    with (Z.min index (len ds - 1)) by (destruct (Z.geb_spec index (len ds)); lia).
  destruct (Z.ltb_spec (Z.min index (len ds - 1)) 0); [lia|].
  now rewrite Hd.
Qed.

Lemma Percentile_nearest_rank_witness :
  (exists index sorted d,
      rank (len (contents (one_slice (ms [300; 100; 200])) 1%positive)) (lit 50 100)
        = Some index
      /\ 0 <= index
      /\ Sorted Z.le sorted
      /\ sorted ≡ₚ contents (one_slice (ms [300; 100; 200])) 1%positive
      /\ sorted !! Z.to_nat (Z.min index (len sorted - 1)) = Some d
      /\ fst (Percentile 1%positive (lit 50 100) (one_slice (ms [300; 100; 200])))
         = Returns d)
  /\ (rank 100 (lit 50 100) = Some 50
      /\ Percentile_of ms_1_to_100 (lit 50 100) = Returns (51 * Millisecond))
  /\ (rank 100 (lit 95 100) = Some 95
      /\ Percentile_of ms_1_to_100 (lit 95 100) = Returns (96 * Millisecond))
  /\ (rank 100 (lit 99 100) = Some 99
      /\ Percentile_of ms_1_to_100 (lit 99 100) = Returns (100 * Millisecond)).
Proof.
  apply (Percentile_nearest_rank (one_slice (ms [300; 100; 200])) 1%positive (lit 50 100)).
  - intros H. vm_compute in H. discriminate H.
  - vm_compute. reflexivity.
  - vm_compute. reflexivity.
  - vm_compute. reflexivity.
  - vm_compute. reflexivity.
Defined.

(** The second of [300ms; 100ms; 200ms] in ascending order is 200ms. *)
Example Percentile_median_of_three :
  Percentile_of (ms [300; 100; 200]) (lit 50 100) = Returns (200 * Millisecond).
Proof. vm_compute. reflexivity. Qed.

Lemma Percentile_empty (h : store) (durations : loc) (p : float64) :
  contents h durations = [] -> Percentile durations p h = (Returns 0, h).
Proof. intros He. unfold Percentile. now rewrite He. Qed.

(** C5.  [Percentile] sorts a copy: the slice it was given holds the same
    elements in the same order afterwards, and so does every other slice of
    the store; after [Percentile(x, 0.5)] on [300ms; 100ms; 200ms] the first
    element of [x] is still 300ms. *)
Theorem Percentile_leaves_input (h : store) (durations : loc) (p : float64) :
  contents (snd (Percentile durations p h)) durations = contents h durations
  /\ h ⊆ snd (Percentile durations p h)
  /\ contents (snd (Percentile 1%positive (lit 50 100) (one_slice (ms [300; 100; 200]))))
       1%positive !! 0%nat = Some (300 * Millisecond).
Proof.
  split; [|split; [|vm_compute; reflexivity]].
  - destruct (decide (contents h durations = [])) as [He|Hne].
    + now rewrite Percentile_empty.
    + rewrite Percentile_unfold by assumption. cbn [snd].
      apply contents_insert_ne. now apply fresh_not_allocated.
  - destruct (decide (contents h durations = [])) as [He|Hne].
    + now rewrite Percentile_empty.
    + rewrite Percentile_unfold by assumption. cbn [snd].
      apply insert_subseteq. apply not_elem_of_dom. apply is_fresh.
Qed.

(** C10.  On a non-empty slice [Percentile] with [p = 1.0], and with any [p]
    whose index reaches the length, returns the largest element, the one
    [MaxDuration] returns: the index is clamped to the last position of the
    ascending arrangement. *)
Theorem Percentile_one_is_MaxDuration (h : store) (durations : loc) :
  contents h durations ≠ [] ->
  (len (contents h durations) < 2 ^ 53 ->
   fst (Percentile durations one h) = Returns (MaxDuration (contents h durations)))
  /\ (forall (p : float64) (index : Z),
        rank (len (contents h durations)) p = Some index ->
        len (contents h durations) <= index ->
        fst (Percentile durations p h) = Returns (MaxDuration (contents h durations))).
Proof.
  intros Hne.
  set (ds := contents h durations) in *.
  assert (Hpos : 1 <= len ds) by (unfold len; destruct ds; [congruence | cbn; lia]).
  assert (Hgen : forall p index, rank (len ds) p = Some index -> len ds <= index ->
                 fst (Percentile durations p h) = Returns (MaxDuration ds)).
  { intros p index Hr Hge.
    rewrite Percentile_unfold by assumption. cbn [fst]. fold ds.
    rewrite Hr. unfold pick_rank.
    assert (Hsl : len (merge_sort Z.le ds) = len ds)
      by (unfold len; now rewrite merge_sort_length).
    rewrite Hsl.
    destruct (Z.geb_spec index (len ds)); [|lia].
    destruct (Z.ltb_spec (len ds - 1) 0); [lia|].
    replace (Z.to_nat (len ds - 1)) with (length ds - 1)%nat by (unfold len; lia).
    now rewrite sorted_last_is_Max. }
  split; [|exact Hgen].
  intros Hlen. apply (Hgen one (len ds)); [|lia].
  apply to_int_mul_one. unfold prec. lia.
Qed.

Lemma Percentile_one_is_MaxDuration_witness :
  (len (contents (one_slice (ms [300; 100; 200])) 1%positive) < 2 ^ 53 ->
   fst (Percentile 1%positive one (one_slice (ms [300; 100; 200])))
   = Returns (MaxDuration (contents (one_slice (ms [300; 100; 200])) 1%positive)))
  /\ (forall (p : float64) (index : Z),
        rank (len (contents (one_slice (ms [300; 100; 200])) 1%positive)) p = Some index ->
        len (contents (one_slice (ms [300; 100; 200])) 1%positive) <= index ->
        fst (Percentile 1%positive p (one_slice (ms [300; 100; 200])))
        = Returns (MaxDuration (contents (one_slice (ms [300; 100; 200])) 1%positive))).
Proof.
  apply (Percentile_one_is_MaxDuration (one_slice (ms [300; 100; 200])) 1%positive).
  intros H. vm_compute in H. discriminate H.
Defined.

(** On 1ms..100ms, [Percentile] at 1.0 and [MaxDuration] both give 100ms. *)
Example Percentile_one_of_hundred :
  Percentile_of ms_1_to_100 one = Returns (100 * Millisecond)
  /\ MaxDuration ms_1_to_100 = 100 * Millisecond.
Proof. split; vm_compute; reflexivity. Qed.

End StatsClaims.

(** ** The generator: batches and event IDs *)

Module GeneratorFacts.
Import GoInt Float64 Generator.
Import GeneratorSpec.
Local Open Scope Z_scope.

Lemma wrap64_id (z : Z) : is_int64 z -> wrap64 z = z.
Proof.
  unfold is_int64, min_int64, max_int64, wrap64. intros Hz.
  rewrite Z.mod_small; lia.
Qed.

Lemma repeatM_length {S A} (n : nat) (body : State S A) (s : S) :
  length (fst (repeatM n body s)) = n.
Proof.
  revert s. induction n as [|n IH]; intros s; [reflexivity|].
  cbn [repeatM]. unfold bind, ret. destruct (body s) as [a s1].
  specialize (IH s1). destruct (repeatM n body s1) as [l s2]. cbn in *. lia.
Qed.

Lemma repeatM_Forall {S A} (P : A -> Prop) (n : nat) (body : State S A) (s : S) :
  (forall s0, P (fst (body s0))) -> Forall P (fst (repeatM n body s)).
Proof.
  intros Hbody. revert s. induction n as [|n IH]; intros s; [constructor|].
  cbn [repeatM]. unfold bind, ret. pose proof (Hbody s) as Ha.
  destruct (body s) as [a s1]. specialize (IH s1).
  destruct (repeatM n body s1) as [l s2]. cbn in *. now constructor.
Qed.

Lemma chunk_sizes_0 (b : Z) : 1 <= b -> chunk_sizes 0 b = [].
Proof. intros Hb. unfold chunk_sizes. now rewrite Z.div_0_l, Z.mod_0_l by lia. Qed.

Lemma chunk_sizes_small (n b : Z) : 0 < n < b -> chunk_sizes n b = [n].
Proof.
  intros H. unfold chunk_sizes. rewrite Z.div_small, Z.mod_small by lia.
  destruct (Z.eqb_spec n 0); [lia | reflexivity].
Qed.

Lemma chunk_sizes_step (n b : Z) :
  1 <= b <= n -> chunk_sizes n b = b :: chunk_sizes (n - b) b.
Proof.
  intros H. unfold chunk_sizes.
  assert (Hd : n / b = (n - b) / b + 1).
  { replace n with ((n - b) + 1 * b) at 1 by lia. rewrite Z.div_add by lia. lia. }
  assert (Hm : n mod b = (n - b) mod b).
  { replace n with ((n - b) + 1 * b) at 1 by lia. now rewrite Z.mod_add by lia. }
  assert (0 <= (n - b) / b) by (apply Z.div_pos; lia).
  rewrite Hd, Hm, Z2Nat.inj_add by lia.
  rewrite Nat.add_comm. reflexivity.
Qed.

Lemma chunk_sizes_length (n b : Z) :
  0 <= n -> 1 <= b -> len (chunk_sizes n b) = (n + b - 1) / b.
Proof.
  intros Hn Hb. unfold chunk_sizes, len.
  assert (0 <= n / b) by (apply Z.div_pos; lia).
  pose proof (Z.div_mod n b ltac:(lia)) as Hdm.
  pose proof (Z.mod_pos_bound n b ltac:(lia)) as Hmb.
  rewrite length_app, length_replicate, Nat2Z.inj_add, Z2Nat.id by lia.
  destruct (Z.eqb_spec (n mod b) 0) as [H0|H0]; cbn [length].
  - apply Z.div_unique with (r := b - 1); lia.
  - apply Z.div_unique with (r := n mod b - 1); lia.
Qed.

Lemma sum_sizes_replicate (k : nat) (b : Z) :
  sum_sizes (replicate k b) = Z.of_nat k * b.
Proof. induction k as [|k IH]; [reflexivity|]. cbn [replicate]. unfold sum_sizes in *. cbn [foldr]. lia. Qed.

Lemma sum_sizes_app (l1 l2 : list Z) : sum_sizes (l1 ++ l2) = sum_sizes l1 + sum_sizes l2.
Proof. induction l1 as [|x l1 IH]; unfold sum_sizes in *; cbn [foldr app]; lia. Qed.

Lemma chunk_sizes_sum (n b : Z) : 0 <= n -> 1 <= b -> sum_sizes (chunk_sizes n b) = n.
Proof.
  intros Hn Hb. unfold chunk_sizes.
  assert (0 <= n / b) by (apply Z.div_pos; lia).
  pose proof (Z.div_mod n b ltac:(lia)) as Hdm.
  rewrite sum_sizes_app, sum_sizes_replicate, Z2Nat.id by lia.
  destruct (Z.eqb_spec (n mod b) 0) as [H0|H0]; unfold sum_sizes; cbn [foldr]; lia.
Qed.

Lemma chunk_sizes_bound (n b : Z) :
  0 <= n -> 1 <= b -> Forall (fun k => 1 <= k <= b) (chunk_sizes n b).
Proof.
  intros Hn Hb. unfold chunk_sizes.
  pose proof (Z.mod_pos_bound n b ltac:(lia)) as Hmb.
  apply Forall_app. split.
  - apply Forall_replicate. lia.
  - destruct (Z.eqb_spec (n mod b) 0); repeat constructor; lia.
Qed.

Lemma chunk_sizes_last (n b : Z) :
  0 <= n -> 1 <= b -> n mod b <> 0 -> last (chunk_sizes n b) = Some (n mod b).
Proof.
  intros Hn Hb Hm. unfold chunk_sizes.
  destruct (Z.eqb_spec (n mod b) 0); [contradiction|].
  apply last_snoc.
Qed.

Section WithRuntime.
Context {RT : Runtime}.

Lemma steady_ret {A} (a : A) : steady (ret a).
Proof. intros g c. now cbn. Qed.

Lemma steady_bind {A B} (m : Gen A) (k : A -> Gen B) :
  steady m -> (forall a, steady (k a)) -> steady (bind m k).
Proof.
  intros Hm Hk g c. unfold bind. specialize (Hm g c).
  destruct (m (g, c)) as [a [g1 c1]]. cbn [fst snd] in Hm.
  specialize (Hk a g1 c1). destruct Hm as (<- & <- & <-). exact Hk.
Qed.

Lemma steady_with_rand {A} (m : State Rand A) : steady (with_rand m).
Proof. intros g c. unfold with_rand. destruct (m (rand g)). now cbn. Qed.

Lemma steady_now : steady now.
Proof. intros g c. unfold now. destruct (time_Now c). now cbn. Qed.

Lemma steady_repeatM {A} (n : nat) (body : Gen A) : steady body -> steady (repeatM n body).
Proof.
  intros Hb. induction n as [|n IH]; cbn [repeatM]; [apply steady_ret|].
  apply steady_bind; [exact Hb|]. intros a.
  apply steady_bind; [exact IH|]. intros l. apply steady_ret.
Qed.

Local Ltac steady_tac :=
  repeat first
    [ assumption | apply steady_ret | apply steady_with_rand | apply steady_now
    | apply steady_repeatM | (apply steady_bind; [|intros ?]) ].

Lemma steady_generatePayload : steady generatePayload.
Proof.
  unfold generatePayload, randomString. apply steady_bind; [steady_tac|].
  intros [|[[[]|[]|]|[]|]|]; steady_tac.
Qed.

Lemma steady_generateEvent : steady generateEvent.
Proof.
  pose proof steady_generatePayload. unfold generateEvent. steady_tac.
Qed.

(** The loop of [Generate], started with [current <= totalEvents] and a
    batch size of at least one, sends batches of exactly the sizes
    [chunk_sizes] lists and then stops, unless the fuel runs out first. *)
Lemma Generate_loop_cases (fuel : nat) :
  forall (sent : list (list Event)) (g : Generator) (c : Clock),
    1 <= batchSize g <= max_int64 ->
    0 <= current g <= totalEvents g ->
    totalEvents g <= max_int64 ->
    (exists bs s',
        Generate_loop fuel sent (g, c) = (Returns (sent ++ bs), s')
        /\ map len bs = chunk_sizes (totalEvents g - current g) (batchSize g))
    \/ (fst (Generate_loop fuel sent (g, c)) = OutOfFuel
        /\ (fuel < Z.to_nat (totalEvents g - current g))%nat).
Proof.
  induction fuel as [|fuel IH]; intros sent g c Hb Hc Ht.
  - cbn [Generate_loop fst].
    destruct (Z.ltb_spec (current g) (totalEvents g)); [right; split; [reflexivity | lia]|].
    left. exists [], (g, c). rewrite app_nil_r. split; [reflexivity|].
    replace (totalEvents g - current g) with 0 by lia.
    now rewrite chunk_sizes_0 by lia.
  - cbn [Generate_loop fst].
    destruct (Z.ltb_spec (current g) (totalEvents g)) as [Hlt|Hge].
    2:{ left. exists [], (g, c). rewrite app_nil_r. split; [reflexivity|].
        replace (totalEvents g - current g) with 0 by lia.
        now rewrite chunk_sizes_0 by lia. }
    unfold sub64. rewrite wrap64_id by (unfold is_int64, min_int64, max_int64 in *; lia).
    remember (totalEvents g - current g) as n eqn:En.
    remember (if n <? batchSize g then n else batchSize g) as size eqn:Es.
    assert (Hsize : 1 <= size <= n /\ size <= batchSize g)
      by (subst size; destruct (Z.ltb_spec n (batchSize g)); lia).
    destruct (Z.ltb_spec size 0); [lia|].
    pose proof (repeatM_length (Z.to_nat size) generateEvent (g, c)) as Hlen.
    pose proof (steady_repeatM (Z.to_nat size) generateEvent steady_generateEvent g c)
      as (Ht1 & Hb1 & Hc1).
    destruct (repeatM (Z.to_nat size) generateEvent (g, c)) as [batch [g1 c1]] eqn:Eb.
    cbn [fst snd] in Hlen, Ht1, Hb1, Hc1.
    cbn [advance]. unfold add64. rewrite Hc1, Ht1, Hb1.
    rewrite wrap64_id by (unfold is_int64, min_int64, max_int64 in *; lia).
    destruct (IH (sent ++ [batch])
                 {| totalEvents := totalEvents g; batchSize := batchSize g;
                    current := current g + size; rand := rand g1 |} c1)
      as [(bs & s' & Hrun & Hmap) | [Hout Hfuel]];
      cbn [totalEvents batchSize current] in *; try lia.
    + left. exists (batch :: bs), s'. rewrite Hrun, <- app_assoc. split; [reflexivity|].
      cbn [map]. rewrite Hmap.
      replace (totalEvents g - (current g + size)) with (n - size) by lia.
      unfold len at 1. rewrite Hlen, Z2Nat.id by lia.
      destruct (Z.ltb_spec n (batchSize g)); subst size.
      * rewrite (chunk_sizes_small n) by lia. replace (n - n) with 0 by lia.
        now rewrite chunk_sizes_0 by lia.
      * now rewrite (chunk_sizes_step n) by lia.
    + right. split; [exact Hout | lia].
Qed.

Lemma Generate_loop_sizes (fuel : nat) :
  forall (sent : list (list Event)) (g : Generator) (c : Clock),
    1 <= batchSize g <= max_int64 ->
    0 <= current g <= totalEvents g ->
    totalEvents g <= max_int64 ->
    (Z.to_nat (totalEvents g - current g) <= fuel)%nat ->
    exists bs s',
      Generate_loop fuel sent (g, c) = (Returns (sent ++ bs), s')
      /\ map len bs = chunk_sizes (totalEvents g - current g) (batchSize g).
Proof.
  intros sent g c Hb Hc Ht Hf.
  destruct (Generate_loop_cases fuel sent g c Hb Hc Ht) as [H|[_ H]]; [exact H | lia].
Qed.

(** Whatever the fuel, the batches a run of [Generate] returned hold at
    least one and at most [batchSize] events each and [totalEvents] in all. *)
Lemma Generate_returned_sizes (fuel : nat) (total bs : Z) (c : Clock)
    (batches : list (list Event)) :
  0 <= total <= max_int64 -> 1 <= bs <= max_int64 ->
  fst (Generate fuel (New total bs c)) = Returns batches ->
  Forall (fun b => 1 <= len b <= bs) batches
  /\ sum_sizes (map len batches) = total.
Proof.
  intros Ht Hb Hret. unfold New, bind, ret in Hret.
  destruct (time_Now c) as [t c1].
  destruct (Generate_loop_cases fuel []
              {| totalEvents := total; batchSize := bs; current := 0;
                 rand := rand_NewSource t |} c1)
    as [(l & s' & Hrun & Hmap) | [Hout _]];
    cbn [totalEvents batchSize current] in *; try lia.
  - unfold Generate in Hret. rewrite Hrun in Hret. cbn [fst app] in Hret.
    injection Hret as <-. rewrite Z.sub_0_r in Hmap. split.
    + pose proof (chunk_sizes_bound total bs ltac:(lia) ltac:(lia)) as Hall.
      rewrite <- Hmap in Hall. now apply Forall_map in Hall.
    + rewrite Hmap. apply chunk_sizes_sum; lia.
  - unfold Generate in Hret. rewrite Hout in Hret. discriminate.
Qed.

Lemma yields_ret {A} (P : A -> Prop) (a : A) : P a -> yields P (ret a).
Proof. intros Ha s. exact Ha. Qed.

Lemma yields_bind {A B} (P : B -> Prop) (m : Gen A) (k : A -> Gen B) :
  (forall a, yields P (k a)) -> yields P (bind m k).
Proof. intros Hk s. unfold bind. destruct (m s) as [a s1]. apply Hk. Qed.

(** A value bound from the random source is a draw from some state of it. *)
Lemma yields_bind_rand {A B} (P : B -> Prop) (m : State Rand A) (k : A -> Gen B) :
  (forall rs, yields P (k (fst (m rs)))) -> yields P (bind (with_rand m) k).
Proof.
  intros Hk [g c]. unfold bind, with_rand. specialize (Hk (rand g)).
  destruct (m (rand g)) as [a r1]. apply Hk.
Qed.

Lemma generateEvent_id : yields (fun e => exists r, id_of_parts e r) generateEvent.
Proof.
  unfold generateEvent.
  do 5 (apply yields_bind; intros ?).
  apply yields_bind_rand; intros rs.
  do 3 (apply yields_bind; intros ?).
  apply yields_ret. exists (fst (rand_Int63 rs)). split; [reflexivity | now exists rs].
Qed.

Lemma Generate_loop_Forall (P : Event -> Prop) (fuel : nat) :
  yields P generateEvent ->
  forall sent s batches s',
    Forall (Forall P) sent ->
    Generate_loop fuel sent s = (Returns batches, s') ->
    Forall (Forall P) batches.
Proof.
  intros HP. induction fuel as [|fuel IH]; intros sent s batches s' Hsent Hrun.
  - cbn [Generate_loop] in Hrun. destruct (_ <? _); inversion Hrun; now subst.
  - cbn [Generate_loop] in Hrun. destruct (_ <? _); [|inversion Hrun; now subst].
    destruct (_ <? 0); [discriminate|].
    pose proof (repeatM_Forall P (Z.to_nat
      (if sub64 (totalEvents s.1) (current s.1) <? batchSize s.1
       then sub64 (totalEvents s.1) (current s.1) else batchSize s.1))
      generateEvent s HP) as Hb.
    destruct (repeatM _ generateEvent s) as [batch s1].
    destruct (advance _ s1) as [u s2]. cbn [fst] in Hb.
    eapply IH; [|exact Hrun].
    apply Forall_app. split; [exact Hsent | repeat constructor; exact Hb].
Qed.

End WithRuntime.

(** *** IDs are an injective rendering of their two parts *)

Lemma append_split (c : Ascii.ascii) (a a' b b' : string) :
  free_of c a = true -> free_of c a' = true ->
  (a +:+ String c b = a' +:+ String c b')%string -> a = a' /\ b = b'.
Proof.
  revert a'. induction a as [|x a IH]; intros [|x' a'] Ha Ha' Heq; cbn in *.
  - now inversion Heq.
  - inversion Heq; subst. rewrite Ascii.eqb_refl in Ha'. discriminate.
  - inversion Heq; subst. rewrite Ascii.eqb_refl in Ha. discriminate.
  - inversion Heq; subst.
    apply andb_prop in Ha as [_ Ha]. apply andb_prop in Ha' as [_ Ha'].
    destruct (IH a' Ha Ha' ltac:(assumption)) as [-> ->]. now split.
Qed.

Lemma pretty_N_char_free (x : N) : Ascii.eqb (pretty_N_char x) "_"%char = false.
Proof. unfold pretty_N_char. repeat case_match; reflexivity. Qed.

Lemma pretty_N_go_free (x : N) (s : string) :
  free_of "_"%char s = true -> free_of "_"%char (pretty_N_go x s) = true.
Proof.
  revert s. induction (N.lt_wf_0 x) as [x _ IH]; intros s Hs.
  destruct (decide (x = 0%N)) as [->|Hx]; [now rewrite pretty_N_go_0|].
  rewrite pretty_N_go_step by lia. apply IH.
  - apply N.div_lt; lia.
  - cbn [free_of]. now rewrite pretty_N_char_free.
Qed.

Lemma fmt_d_free (z : Z) : free_of "_"%char (fmt_d z) = true.
Proof.
  unfold fmt_d, pretty, pretty_Z. destruct z as [|p|p].
  - reflexivity.
  - unfold pretty, pretty_positive, pretty, pretty_N.
    case_decide; [reflexivity | now apply pretty_N_go_free].
  - cbn [String.append free_of]. unfold pretty, pretty_positive, pretty, pretty_N.
    case_decide; [reflexivity | now apply pretty_N_go_free].
Qed.

Lemma event_id_inj (n r n' r' : Z) :
  event_id n r = event_id n' r' -> n = n' /\ r = r'.
Proof.
  unfold event_id. cbn [String.append]. intros Heq.
  injection Heq as Heq.
  apply append_split in Heq as [Hn Hr]; try apply fmt_d_free.
  split; now apply (inj pretty).
Qed.

End GeneratorFacts.

(** ** The generator's batches and IDs *)

Module GeneratorClaims.
Import GoInt Float64 Generator GeneratorFacts Sample.
Import GeneratorSpec.
Local Open Scope Z_scope.

(** C2.  For [totalCount >= 0] and [batchSize >= 1] a fresh generator's
    [Generate] sends exactly [ceil(totalCount / batchSize)] batches and then
    closes its channel; every batch holds at least one and at most
    [batchSize] events, the sizes add up to [totalCount], the last batch
    holds the remainder [totalCount mod batchSize] when that is not zero, and
    for [totalCount = 0] no batch is sent. *)
Theorem Generate_batch_sizes {RT : Runtime}
    (totalCount batchSize : Z) (clk : Clock) (fuel : nat) :
  0 <= totalCount <= max_int64 ->
  1 <= batchSize <= max_int64 ->
  (Z.to_nat totalCount <= fuel)%nat ->
  exists batches s',
    Generate fuel (New totalCount batchSize clk) = (Returns batches, s')
    /\ len batches = (totalCount + batchSize - 1) / batchSize
    /\ Forall (fun b => 1 <= len b <= batchSize) batches
    /\ sum_sizes (map len batches) = totalCount
    /\ (totalCount mod batchSize <> 0 ->
        last (map len batches) = Some (totalCount mod batchSize))
    /\ (totalCount = 0 -> batches = []).
Proof.
  intros Ht Hb Hf. unfold New, bind, ret.
  destruct (time_Now clk) as [t clk1].
  destruct (Generate_loop_sizes fuel []
              {| totalEvents := totalCount; batchSize := batchSize; current := 0;
                 rand := rand_NewSource t |} clk1)
    as (bs & s' & Hrun & Hmap); cbn [totalEvents Generator.batchSize current]; try lia.
  cbn [totalEvents Generator.batchSize current app] in *.
  rewrite Z.sub_0_r in Hmap.
  exists bs, s'. split; [exact Hrun|].
  split.
  { rewrite <- (chunk_sizes_length totalCount batchSize), <- Hmap by lia.
    unfold len. now rewrite length_map. }
  split.
  { pose proof (chunk_sizes_bound totalCount batchSize ltac:(lia) ltac:(lia)) as Hall.
    rewrite <- Hmap in Hall. now apply Forall_map in Hall. }
  split; [rewrite Hmap; apply chunk_sizes_sum; lia|].
  split; [intros Hm; rewrite Hmap; apply chunk_sizes_last; lia|].
  intros ->. rewrite chunk_sizes_0 in Hmap by lia. now destruct bs.
Qed.

Lemma Generate_batch_sizes_witness :
  exists batches s',
    Generate (RT := sample_runtime) 5 (New 5 2 clock0) = (Returns batches, s')
    /\ len batches = (5 + 2 - 1) / 2
    /\ Forall (fun b => 1 <= len b <= 2) batches
    /\ sum_sizes (map len batches) = 5
    /\ (5 mod 2 <> 0 -> last (map len batches) = Some (5 mod 2))
    /\ (5 = 0 -> batches = []).
Proof.
  apply (Generate_batch_sizes (RT := sample_runtime) 5 2 clock0 5);
    unfold max_int64; lia.
Defined.

(** Five events in batches of two: sizes 2, 2 and 1. *)
Example Generate_five_by_two :
  match fst (Generate (RT := sample_runtime) 5 (New 5 2 clock0)) with
  | Returns batches => map len batches
  | _ => []
  end = [2; 2; 1].
Proof. vm_compute. reflexivity. Qed.

(** *** Event IDs *)

Lemma Forall_choose {A B} (R : A -> B -> Prop) (l : list A) :
  Forall (fun a => exists b, R a b) l -> exists l', Forall2 R l l'.
Proof.
  induction 1 as [|a l [b Hb] _ [l' IH]]; [now exists []|].
  exists (b :: l'). now constructor.
Qed.

Lemma ids_of_parts {RT : Runtime} (events : list Event) (draws : list Z) :
  Forall2 id_of_parts events draws ->
  ID <$> events
  = (fun p => event_id (fst p) (snd p)) <$> zip (CreatedAt <$> events) draws.
Proof.
  induction 1 as [|e r events draws [He _] _ IH]; [reflexivity|].
  cbn. now rewrite He, IH.
Qed.

(** The generator itself keeps no record of the IDs it has issued: under
    [stuck_runtime], whose source repeats its draw and whose clock stands
    still, one run gives two events one ID. *)
Lemma event_ids_can_collide :
  exists e1 e2,
    fst (Generate (RT := stuck_runtime) 1 (New (RT := stuck_runtime) 2 2 tt))
    = Returns [[e1; e2]]
    /\ ID e1 = ID e2
    /\ ID e1 = "evt_1700000000000000000_42"%string.
Proof. eexists _, _. vm_compute. repeat split; reflexivity. Qed.

(** Every ID of a generation run is
    [evt_<nanoseconds of the creation time>_<a draw of Int63>], and that
    rendering is injective; so the IDs of a run are pairwise distinct exactly
    when the pairs of creation time and draw are. *)
Theorem event_ids_distinct_iff_parts_distinct {RT : Runtime}
    (fuel : nat) (s : Generator * Clock) (batches : list (list Event)) :
  fst (Generate fuel s) = Returns batches ->
  exists draws : list Z,
    Forall2 id_of_parts (concat batches) draws
    /\ (NoDup (ID <$> concat batches)
        <-> NoDup (zip (CreatedAt <$> concat batches) draws)).
Proof.
  intros Hrun. destruct (Generate fuel s) as [o s'] eqn:Hgen.
  cbn [fst] in Hrun. subst o.
  pose proof (Generate_loop_Forall _ fuel generateEvent_id [] s batches s'
                ltac:(constructor) Hgen) as Hall.
  apply Forall_concat in Hall.
  destruct (Forall_choose _ _ Hall) as [draws Hd].
  exists draws. split; [exact Hd|].
  rewrite (ids_of_parts _ _ Hd).
  apply NoDup_fmap. intros [n r] [n' r'] Heq. cbn [fst snd] in Heq.
  apply event_id_inj in Heq as [-> ->]. reflexivity.
Qed.

Lemma sample_run :
  fst (Generate (RT := sample_runtime) 5 (New 5 2 clock0)) = Returns sample_batches.
Proof. vm_compute. reflexivity. Defined.

Lemma event_ids_distinct_iff_parts_distinct_witness :
  exists draws : list Z,
    Forall2 (id_of_parts (RT := sample_runtime)) (concat sample_batches) draws
    /\ (NoDup (ID <$> concat sample_batches)
        <-> NoDup (zip (CreatedAt <$> concat sample_batches) draws)).
Proof.
  exact (event_ids_distinct_iff_parts_distinct (RT := sample_runtime) 5
           (New 5 2 clock0) sample_batches sample_run).
Defined.

(** The five IDs of that run are distinct. *)
Example sample_ids_distinct : NoDup (ID <$> concat sample_batches).
Proof. apply (bool_decide_unpack _). vm_compute. reflexivity. Qed.

(** *** Distinct draws give distinct IDs *)

Section Draws.
Context {RT : Runtime} (drawn : Rand -> list Z).
Hypothesis drawn_Float64 : forall rs, drawn (snd (rand_Float64 rs)) = drawn rs.
Hypothesis drawn_Intn : forall n rs, drawn (snd (rand_Intn n rs)) = drawn rs.
Hypothesis drawn_Int63n : forall n rs, drawn (snd (rand_Int63n n rs)) = drawn rs.
Hypothesis drawn_Int63 :
  forall rs, drawn (snd (rand_Int63 rs)) = drawn rs ++ [fst (rand_Int63 rs)].














End Draws.






End GeneratorClaims.

(** ** The query path *)

Module QueryFacts.
Import GoInt Float64 Float64Facts Stats StatsFacts Generator GeneratorFacts Benchmark.
Import StatsSpec GeneratorSpec BenchmarkSpec.
Local Open Scope Z_scope.

Lemma successes_failures (es : list error) :
  0 <= successes es /\ 0 <= failures es /\ successes es + failures es = len es.
Proof.
  unfold len. induction es as [|[e|] es IH]; cbn [successes failures length]; lia.
Qed.

Lemma query_calls_app (h1 h2 : list observation) :
  query_calls (h1 ++ h2) = query_calls h1 ++ query_calls h2.
Proof. apply omap_app. Qed.

Lemma p50_in_range : is_float64 p50 /\ leb zero p50 = true /\ leb p50 one = true.
Proof. repeat split; vm_compute; reflexivity. Qed.

Lemma p95_in_range : is_float64 p95 /\ leb zero p95 = true /\ leb p95 one = true.
Proof. repeat split; vm_compute; reflexivity. Qed.

Lemma p99_in_range : is_float64 p99 /\ leb zero p99 = true /\ leb p99 one = true.
Proof. repeat split; vm_compute; reflexivity. Qed.

(** Unfolds the state-passing combinators at the head of a run. *)
Ltac run_state :=
  repeat (progress (unfold bind, ret, on_clock, on_repo, observe, log_Printf, time_Since;
                    cbv beta iota zeta; cbn [clock repo history fst snd])).

Section WithRepository.
Context {RT : Runtime} {Repo : Type} {RP : Repository Repo}.

(** The measured loop: one call per iteration, a sample per success, one
    more error per failure. *)
Lemma measure_loop_spec (n : nat) :
  forall (start end_ : Time) (ds : list Z) (errs : Z) (w : World),
    0 <= errs -> errs + Z.of_nat n <= max_int64 ->
    exists es : list error,
      length es = n
      /\ query_calls (history (snd (measure_loop n start end_ ds errs w)))
         = query_calls (history w) ++ map (fun e => (true, start, end_, e)) es
      /\ len (fst (fst (measure_loop n start end_ ds errs w))) = len ds + successes es
      /\ snd (fst (measure_loop n start end_ ds errs w)) = errs + failures es.
Proof.
  induction n as [|n IH]; intros start end_ ds errs w H0 Hmax.
  - exists []. cbn. rewrite app_nil_r. repeat split; lia.
  - cbn [measure_loop]. run_state.
    destruct (time_Now (clock w)) as [t0 c1]. run_state.
    destruct (GetEventStats start end_ (repo w)) as [e r1]. run_state.
    destruct (time_Now c1) as [t1 c2]. run_state.
    destruct e as [msg|]; run_state.
    + match goal with |- context [measure_loop n start end_ ?d ?e ?w'] =>
        destruct (IH start end_ d e w') as (es & Hlen & Hq & Hd & He) end.
      * unfold add64. rewrite wrap64_id; unfold is_int64, min_int64, max_int64 in *; lia.
      * unfold add64. rewrite wrap64_id; unfold is_int64, min_int64, max_int64 in *; lia.
      * exists (Some msg :: es).
        rewrite Hq, Hd, He. cbn [history length map successes failures].
        rewrite !query_calls_app. cbn. rewrite <- !app_assoc. cbn.
        unfold add64. rewrite wrap64_id by (unfold is_int64, min_int64, max_int64 in *; lia).
        repeat split; lia.
    + match goal with |- context [measure_loop n start end_ ?d ?e ?w'] =>
        destruct (IH start end_ d e w') as (es & Hlen & Hq & Hd & He) end; try lia.
      exists (None :: es).
      rewrite Hq, Hd, He. cbn [history length map successes failures].
      rewrite !query_calls_app. cbn. rewrite <- !app_assoc. cbn.
      unfold len. rewrite length_app. cbn [length].
      repeat split; lia.
Qed.

Lemma warmup_call_history (start end_ : Time) (w : World) :
  exists e, history (snd (warmup_call start end_ w))
            = history w ++ [QueryCall false start end_ e].
Proof.
  unfold warmup_call. run_state.
  destruct (GetEventStats start end_ (repo w)) as [e r1]. run_state. now exists e.
Qed.

Lemma warmup_spec (n : nat) (start end_ : Time) (w : World) :
  exists es : list error,
    length es = n
    /\ query_calls (history (snd (repeatM n (warmup_call start end_) w)))
       = query_calls (history w) ++ map (fun e => (false, start, end_, e)) es.
Proof.
  revert w. induction n as [|n IH]; intros w.
  - exists []. cbn. now rewrite app_nil_r.
  - cbn [repeatM]. unfold bind, ret.
    destruct (warmup_call_history start end_ w) as [e He].
    destruct (warmup_call start end_ w) as [u w1]. cbn [snd] in He.
    destruct (IH w1) as (es & Hlen & Hq).
    destruct (repeatM n (warmup_call start end_) w1) as [l w2]. cbn [snd] in *.
    exists (e :: es). rewrite Hq, He, query_calls_app. cbn.
    rewrite <- app_assoc. cbn. split; [lia | reflexivity].
Qed.

(** What [runQuery] does and returns, in terms of the results [ws] of its
    warmup calls and [es] of its measured calls. *)
Lemma runQuery_spec (r : Runner) (name : string) (start end_ : Time) (w : World) :
  0 <= QueryIterations r < 2 ^ 53 ->
  exists (q : QueryResult.t) (ws es : list error),
    fst (runQuery r name start end_ w) = Returns q
    /\ length ws = Z.to_nat (WarmupIterations r)
    /\ length es = Z.to_nat (QueryIterations r)
    /\ query_calls (history (snd (runQuery r name start end_ w)))
       = query_calls (history w)
         ++ map (fun e => (false, start, end_, e)) ws
         ++ map (fun e => (true, start, end_, e)) es
    /\ QueryResult.QueryName q = name
    /\ QueryResult.Iterations q = successes es
    /\ QueryResult.ErrorCount q = failures es
    /\ (successes es = 0 ->
        QueryResult.AvgDuration q = 0 /\ QueryResult.MinDuration q = 0
        /\ QueryResult.MaxDuration q = 0 /\ QueryResult.P50Duration q = 0
        /\ QueryResult.P95Duration q = 0 /\ QueryResult.P99Duration q = 0
        /\ QueryResult.DateRange q = EmptyString).
Proof.
  intros HQ. unfold runQuery, bind.
  destruct (warmup_spec (Z.to_nat (WarmupIterations r)) start end_ w) as (ws & Hws & Hqw).
  destruct (repeatM _ (warmup_call start end_) w) as [l w1]. cbn [snd] in Hqw.
  unfold measureQuery.
  destruct (measure_loop_spec (Z.to_nat (QueryIterations r)) start end_ [] 0 w1)
    as (es & Hes & Hqm & Hd & He);
    [lia | unfold max_int64; assert (2 ^ 53 < 2 ^ 63) by (cbn; lia); lia |].
  destruct (measure_loop _ start end_ [] 0 w1) as [[ds errs] w2].
  cbn [fst snd] in *. change (len []) with 0 in Hd.
  pose proof (successes_failures es) as (Hs0 & Hf0 & Hsf).
  destruct (Z.eqb_spec (len ds) 0) as [Hz|Hnz].
  - eexists _, ws, es. unfold ret. cbn [fst snd].
    split; [reflexivity|]. cbn [QueryResult.QueryName QueryResult.Iterations
      QueryResult.ErrorCount QueryResult.AvgDuration QueryResult.MinDuration
      QueryResult.MaxDuration QueryResult.P50Duration QueryResult.P95Duration
      QueryResult.P99Duration QueryResult.DateRange].
    rewrite Hqm, Hqw, <- app_assoc. repeat split; try lia; reflexivity.
  - assert (Hne : ds ≠ []) by (intros ->; now apply Hnz).
    assert (Hlt : len ds < 2 ^ 53) by (unfold len in *; lia).
    destruct p50_in_range as (V1 & Z1 & O1).
    destruct p95_in_range as (V2 & Z2 & O2).
    destruct p99_in_range as (V3 & Z3 & O3).
    destruct (Percentile_of_returns ds p50 Hne Hlt V1 Z1 O1) as [d50 ->].
    destruct (Percentile_of_returns ds p95 Hne Hlt V2 Z2 O2) as [d95 ->].
    destruct (Percentile_of_returns ds p99 Hne Hlt V3 Z3 O3) as [d99 ->].
    eexists _, ws, es. unfold ret. cbn [fst snd].
    split; [reflexivity|]. cbn [QueryResult.QueryName QueryResult.Iterations
      QueryResult.ErrorCount QueryResult.AvgDuration QueryResult.MinDuration
      QueryResult.MaxDuration QueryResult.P50Duration QueryResult.P95Duration
      QueryResult.P99Duration QueryResult.DateRange].
    rewrite Hqm, Hqw, <- app_assoc. repeat split; try lia; reflexivity.
Qed.

Lemma shapes_of_results (m : bool) (s e : Time) (es : list error) :
  fst <$> map (fun err => (m, s, e, err)) es = replicate (length es) (m, s, e).
Proof. induction es as [|x es IH]; [reflexivity|]. cbn. now rewrite <- IH. Qed.

Lemma run_scenarios_spec (r : Runner) (now : Time) (ss : list (string * Time)) :
  0 <= QueryIterations r < 2 ^ 53 ->
  forall (results : gmap string QueryResult.t) (w : World),
    exists results',
      fst (run_scenarios r now ss results w) = Returns results'
      /\ dom results' = dom results ∪ list_to_set (fst <$> ss)
      /\ call_shapes (history (snd (run_scenarios r now ss results w)))
         = call_shapes (history w) ++ concat (scenario_block r now <$> ss).
Proof.
  intros HQ. induction ss as [|[name start] ss IH]; intros results w.
  - exists results. cbn. rewrite app_nil_r. split; [reflexivity|].
    split; [now rewrite (right_id_L ∅ (∪)) | reflexivity].
  - cbn [run_scenarios]. unfold bind.
    destruct (runQuery_spec r name start now w HQ)
      as (q & ws & es & Hret & Hws & Hes & Hq & _).
    destruct (runQuery r name start now w) as [o w1]. cbn [fst snd] in Hret, Hq.
    subst o.
    destruct (IH (<[name := q]> results) w1) as (res' & Hr & Hdom & Hsh).
    exists res'. split; [exact Hr|]. split.
    + rewrite Hdom, dom_insert_L. cbn.
      now rewrite (comm_L (∪) {[name]}), <- (assoc_L (∪)).
    + rewrite Hsh. unfold call_shapes at 1. rewrite Hq.
      rewrite !fmap_app, !shapes_of_results, Hws, Hes.
      cbn [fmap list_fmap concat]. unfold scenario_block at 2. cbn [snd].
      unfold call_shapes. now rewrite <- !app_assoc.
Qed.

End WithRepository.
End QueryFacts.

(** ** RunQueries and runQuery *)

Module QueryClaims.
Import GoInt Float64 Stats Generator Benchmark QueryFacts Sample.
Import StatsSpec GeneratorSpec BenchmarkSpec.
Local Open Scope Z_scope.

(** C6.  [RunQueries] returns a mapping with exactly the keys [1_hour],
    [1_day], [1_week] and [1_month]; the calls of [GetEventStats] it makes
    are, scenario by scenario, [WarmupIterations] warmup calls followed by
    [QueryIterations] measured calls on that scenario's time range, so the
    warmup calls of a scenario all come before its measured calls and a
    scenario makes [WarmupIterations + QueryIterations] calls in all. *)
Theorem RunQueries_keys_and_calls
    {RT : Runtime} {Repo : Type} {RP : Repository Repo} (r : Runner) (w : World) :
  0 <= WarmupIterations r ->
  0 <= QueryIterations r < 2 ^ 53 ->
  exists results : gmap string QueryResult.t,
    fst (RunQueries r w) = Returns results
    /\ dom results = ({[ "1_hour"; "1_day"; "1_week"; "1_month" ]}%string : gset string)
    /\ call_shapes (history (snd (RunQueries r w)))
       = call_shapes (history w)
         ++ concat (scenario_block r (fst (time_Now (clock w)))
                      <$> scenarios (fst (time_Now (clock w))))
    /\ (forall sc, len (scenario_block r (fst (time_Now (clock w))) sc)
                   = WarmupIterations r + QueryIterations r).
Proof.
  intros HW HQ. unfold RunQueries, bind, on_clock.
  destruct (time_Now (clock w)) as [now c1]. cbn [fst].
  destruct (run_scenarios_spec r now (scenarios now) HQ ∅
              {| clock := c1; repo := repo w; history := history w |})
    as (results & Hret & Hdom & Hsh).
  exists results. split; [exact Hret|]. split.
  - rewrite Hdom. cbn. set_solver.
  - split; [exact Hsh|].
    intros sc. unfold scenario_block, len.
    rewrite length_app, !length_replicate. lia.
Qed.

Lemma RunQueries_keys_and_calls_witness :
  exists results : gmap string QueryResult.t,
    fst (RunQueries (RP := every_third_query_fails) sample_runner sample_world)
    = Returns results
    /\ dom results = ({[ "1_hour"; "1_day"; "1_week"; "1_month" ]}%string : gset string)
    /\ call_shapes (history (snd (RunQueries (RP := every_third_query_fails)
                                   sample_runner sample_world)))
       = call_shapes (history sample_world)
         ++ concat (scenario_block sample_runner
                      (fst (time_Now (clock sample_world)))
                      <$> scenarios
                            (fst (time_Now (clock sample_world))))
    /\ (forall sc, len (scenario_block sample_runner
                      (fst (time_Now (clock sample_world)))
                      sc)
                   = WarmupIterations sample_runner + QueryIterations sample_runner).
Proof.
  apply (RunQueries_keys_and_calls (RP := every_third_query_fails)
           sample_runner sample_world); cbn; lia.
Defined.

(** C7.  In the result of [runQuery], [Iterations] is the number of measured
    calls that succeeded and [ErrorCount] the number that failed (warmup
    calls count for neither); each measured call adds to exactly one of the
    two, a latency sample being kept only for a success; and when no
    measured call succeeded every latency field is zero and the date range
    is empty: only the name and the error count are set. *)
Theorem runQuery_counts_successes
    {RT : Runtime} {Repo : Type} {RP : Repository Repo}
    (r : Runner) (name : string) (start end_ : Time) (w : World) :
  0 <= QueryIterations r < 2 ^ 53 ->
  exists (q : QueryResult.t) (ws es : list error),
    fst (runQuery r name start end_ w) = Returns q
    /\ length ws = Z.to_nat (WarmupIterations r)
    /\ len es = QueryIterations r
    /\ query_calls (history (snd (runQuery r name start end_ w)))
       = query_calls (history w)
         ++ map (fun e => (false, start, end_, e)) ws
         ++ map (fun e => (true, start, end_, e)) es
    /\ QueryResult.QueryName q = name
    /\ QueryResult.Iterations q = successes es
    /\ QueryResult.ErrorCount q = failures es
    /\ QueryResult.Iterations q + QueryResult.ErrorCount q = QueryIterations r
    /\ (successes es = 0 ->
        QueryResult.Iterations q = 0
        /\ QueryResult.AvgDuration q = 0 /\ QueryResult.MinDuration q = 0
        /\ QueryResult.MaxDuration q = 0 /\ QueryResult.P50Duration q = 0
        /\ QueryResult.P95Duration q = 0 /\ QueryResult.P99Duration q = 0
        /\ QueryResult.DateRange q = EmptyString).
Proof.
  intros HQ.
  destruct (runQuery_spec r name start end_ w HQ)
    as (q & ws & es & Hret & Hws & Hes & Hq & Hn & Hi & He & Hz).
  pose proof (successes_failures es) as (_ & _ & Hsf).
  assert (Hlen : len es = QueryIterations r) by (unfold len; lia).
  exists q, ws, es. repeat split; try assumption; try lia; try (now apply Hz).
Qed.

Lemma runQuery_counts_successes_witness :
  exists (q : QueryResult.t) (ws es : list error),
    fst (runQuery (RP := always_fails) sample_runner "1_hour" 0 3600 sample_world) = Returns q
    /\ length ws = Z.to_nat (WarmupIterations sample_runner)
    /\ len es = QueryIterations sample_runner
    /\ query_calls (history (snd (runQuery (RP := always_fails) sample_runner "1_hour"
                                   0 3600 sample_world)))
       = query_calls (history sample_world)
         ++ map (fun e => (false, 0, 3600, e)) ws
         ++ map (fun e => (true, 0, 3600, e)) es
    /\ QueryResult.QueryName q = "1_hour"%string
    /\ QueryResult.Iterations q = successes es
    /\ QueryResult.ErrorCount q = failures es
    /\ QueryResult.Iterations q + QueryResult.ErrorCount q = QueryIterations sample_runner
    /\ (successes es = 0 ->
        QueryResult.Iterations q = 0
        /\ QueryResult.AvgDuration q = 0 /\ QueryResult.MinDuration q = 0
        /\ QueryResult.MaxDuration q = 0 /\ QueryResult.P50Duration q = 0
        /\ QueryResult.P95Duration q = 0 /\ QueryResult.P99Duration q = 0
        /\ QueryResult.DateRange q = EmptyString).
Proof.
  apply (runQuery_counts_successes (RP := always_fails) sample_runner "1_hour"
           0 3600 sample_world); cbn; lia.
Defined.

(** On a target where every call fails: five errors and nothing else. *)
Example runQuery_all_failed :
  fst (runQuery (RP := always_fails) sample_runner "1_hour" 0 3600 sample_world)
  = Returns {| QueryResult.QueryName := "1_hour"; QueryResult.Iterations := 0;
               QueryResult.AvgDuration := 0; QueryResult.MinDuration := 0;
               QueryResult.MaxDuration := 0; QueryResult.P50Duration := 0;
               QueryResult.P95Duration := 0; QueryResult.P99Duration := 0;
               QueryResult.ErrorCount := 5; QueryResult.DateRange := EmptyString |}.
Proof. vm_compute. reflexivity. Qed.

(** One warmup call and five measured ones, the third and the sixth of the
    six calls failing: three samples of a microsecond and two errors. *)
Example runQuery_one_failed :
  match fst (runQuery (RP := every_third_query_fails) sample_runner "1_hour"
               0 3600 sample_world) with
  | Returns q => (QueryResult.Iterations q, QueryResult.ErrorCount q,
                  QueryResult.P50Duration q, QueryResult.MaxDuration q)
  | _ => (0, 0, 0, 0)
  end = (3, 2, 1000, 1000).
Proof. vm_compute. reflexivity. Qed.

End QueryClaims.

(** ** The insert path *)

Module InsertFacts.
Import GoInt Float64 Generator GeneratorFacts Benchmark QueryFacts.
Import GeneratorSpec BenchmarkSpec.
Local Open Scope Z_scope.

Lemma insert_calls_app (h1 h2 : list observation) :
  insert_calls (h1 ++ h2) = insert_calls h1 ++ insert_calls h2.
Proof. apply omap_app. Qed.

Lemma inserted_events_app (c1 c2 : list (list Event * error)) :
  inserted_events (c1 ++ c2) = inserted_events c1 + inserted_events c2.
Proof. induction c1 as [|[b [e|]] c1 IH]; cbn [app inserted_events]; lia. Qed.

Lemma failed_events_app (c1 c2 : list (list Event * error)) :
  failed_events (c1 ++ c2) = failed_events c1 + failed_events c2.
Proof. induction c1 as [|[b [e|]] c1 IH]; cbn [app failed_events]; lia. Qed.

Lemma failed_batches_app (c1 c2 : list (list Event * error)) :
  failed_batches (c1 ++ c2) = failed_batches c1 + failed_batches c2.
Proof. induction c1 as [|[b [e|]] c1 IH]; cbn [app failed_batches]; lia. Qed.

Lemma total_len_app (l1 l2 : list (list Event)) :
  total_len (l1 ++ l2) = total_len l1 + total_len l2.
Proof. unfold total_len. now rewrite map_app, sum_sizes_app. Qed.

Lemma total_len_cons (b : list Event) (l : list (list Event)) :
  total_len (b :: l) = len b + total_len l.
Proof. reflexivity. Qed.

Lemma total_len_perm (l1 l2 : list (list Event)) :
  l1 ≡ₚ l2 -> total_len l1 = total_len l2.
Proof.
  induction 1 as [|x l l' _ IH|x y l|l l' l'' _ IH1 _ IH2];
    rewrite ?total_len_cons; try lia; reflexivity.
Qed.

Lemma total_len_nonneg (l : list (list Event)) : 0 <= total_len l.
Proof.
  induction l as [|b l IH]; [vm_compute; discriminate|].
  rewrite total_len_cons. unfold len. lia.
Qed.

Lemma total_len_ge_length (l : list (list Event)) :
  Forall (fun b => 1 <= len b) l -> len l <= total_len l.
Proof.
  induction 1 as [|b l Hb _ IH]; [vm_compute; discriminate|].
  rewrite total_len_cons. unfold len in *. cbn [length]. lia.
Qed.

Lemma attempted_split (calls : list (list Event * error)) :
  total_len (fst <$> calls) = inserted_events calls + failed_events calls.
Proof.
  induction calls as [|[b [e|]] cs IH]; cbn [fmap list_fmap fst inserted_events failed_events];
    rewrite ?total_len_cons; [reflexivity | lia | lia].
Qed.

Lemma counts_nonneg (calls : list (list Event * error)) :
  0 <= inserted_events calls /\ 0 <= failed_events calls
  /\ 0 <= failed_batches calls <= len calls.
Proof.
  induction calls as [|[b [e|]] cs IH];
    cbn [inserted_events failed_events failed_batches length]; unfold len in *;
    cbn [length]; lia.
Qed.

Lemma failed_batches_le_events (calls : list (list Event * error)) :
  Forall (fun c => 1 <= len (fst c)) calls -> failed_batches calls <= failed_events calls.
Proof.
  induction 1 as [|[b [e|]] cs Hb _ IH]; cbn [failed_batches failed_events fst] in *; lia.
Qed.

(** *** Workers and the batches in flight *)

Lemma in_flight_cons (st : worker) (ws : list worker) :
  in_flight (st :: ws)
  = match st with Inserting b => b :: in_flight ws | _ => in_flight ws end.
Proof. now destruct st. Qed.

Lemma in_flight_receive (ws : list worker) (i : nat) (b : list Event) :
  ws !! i = Some Receiving ->
  in_flight (<[i := Inserting b]> ws) ≡ₚ b :: in_flight ws.
Proof.
  revert i. induction ws as [|st ws IH]; intros [|i] Hi; try discriminate.
  - cbn in Hi. injection Hi as ->. reflexivity.
  - cbn in Hi. specialize (IH i Hi).
    change (<[S i := Inserting b]> (st :: ws)) with (st :: <[i := Inserting b]> ws).
    rewrite !in_flight_cons.
    destruct st; rewrite IH; [reflexivity | apply Permutation_swap | reflexivity].
Qed.

Lemma in_flight_complete (ws : list worker) (i : nat) (b : list Event) :
  ws !! i = Some (Inserting b) ->
  in_flight ws ≡ₚ b :: in_flight (<[i := Receiving]> ws).
Proof.
  revert i. induction ws as [|st ws IH]; intros [|i] Hi; try discriminate.
  - cbn in Hi. injection Hi as ->. reflexivity.
  - cbn in Hi. specialize (IH i Hi).
    change (<[S i := Receiving]> (st :: ws)) with (st :: <[i := Receiving]> ws).
    rewrite !in_flight_cons.
    destruct st; rewrite IH; [reflexivity | apply Permutation_swap | reflexivity].
Qed.

Lemma in_flight_leave (ws : list worker) (i : nat) :
  ws !! i = Some Receiving -> in_flight (<[i := Left]> ws) = in_flight ws.
Proof.
  revert i. induction ws as [|st ws IH]; intros [|i] Hi; try discriminate.
  - cbn in Hi. injection Hi as ->. reflexivity.
  - cbn in Hi. specialize (IH i Hi).
    change (<[S i := Left]> (st :: ws)) with (st :: <[i := Left]> ws).
    rewrite !in_flight_cons. now rewrite IH.
Qed.

Lemma all_left_spec (p : Pool) :
  all_left p = true <-> Forall (fun st => st = Left) (workers p).
Proof.
  unfold all_left. rewrite forallb_forall, Forall_forall.
  split; intros H st Hin.
  - apply list_elem_of_In in Hin. specialize (H st Hin). now destruct st.
  - apply list_elem_of_In in Hin. now rewrite (H st Hin).
Qed.

Lemma in_flight_all_left (ws : list worker) :
  Forall (fun st => st = Left) ws -> in_flight ws = [].
Proof. induction 1 as [|st ws -> _ IH]; [reflexivity|]. exact IH. Qed.

Section WithRepository.
Context {RT : Runtime} {Repo : Type} {RP : Repository Repo}.

Lemma consume_step_inv (all : list (list Event)) (h0 : list observation) (nw : nat)
    (total logInterval : Z) (i : nat) (p : Pool) (w : World) :
  Forall (fun b => 1 <= len b) all ->
  total_len all <= max_int64 ->
  pool_inv all h0 nw p w ->
  pool_inv all h0 nw (fst (consume_step total logInterval i p w))
    (snd (consume_step total logInterval i p w)).
Proof.
  intros Hpos Hmax (calls & Hh & Hins & Herr & Hperm & Hnw & Hleft).
  unfold consume_step.
  destruct (workers p !! i) as [[|batch|]|] eqn:Hi.
  - destruct (batches p) as [|b rest] eqn:Hb; unfold ret; cbn [fst snd].
    + exists calls. cbn [batches workers totalInserted totalErrors set_worker].
      rewrite in_flight_leave, length_insert by assumption.
      rewrite Hb. split_and!; try assumption. intros Hne. now contradict Hne.
    + exists calls. cbn [batches workers totalInserted totalErrors].
      rewrite length_insert. split_and!; try assumption.
      * rewrite in_flight_receive by assumption. rewrite <- Hperm.
        apply Permutation_app_head. cbn. apply Permutation_middle.
      * intros _. specialize (Hleft ltac:(discriminate)).
        rewrite Forall_forall in *. intros st Hin.
        apply list_elem_of_lookup_1 in Hin as [j Hj].
        destruct (decide (i = j)) as [->|Hne].
        -- rewrite list_lookup_insert_eq in Hj by (now apply lookup_lt_Some in Hi).
           injection Hj as <-. discriminate.
        -- rewrite list_lookup_insert_ne in Hj by assumption.
           apply Hleft. eapply list_elem_of_lookup_2. exact Hj.
  - run_state. destruct (InsertBatch batch (repo w)) as [e r1]. run_state.
    pose proof (in_flight_complete _ _ _ Hi) as Hfl.
    assert (Hsum : total_len (fst <$> calls) + len batch <= total_len all).
    { rewrite <- (total_len_perm _ _ Hperm), !total_len_app.
      rewrite (total_len_perm _ _ Hfl), total_len_cons.
      pose proof (total_len_nonneg (in_flight (<[i:=Receiving]> (workers p)))).
      pose proof (total_len_nonneg (batches p)). lia. }
    assert (Hcnt : len calls + 1 <= total_len all).
    { pose proof (total_len_ge_length all Hpos) as Hge.
      pose proof (Permutation_length Hperm) as Hl.
      rewrite !length_app, length_fmap, (Permutation_length Hfl) in Hl.
      cbn [length] in Hl. unfold len in *. lia. }
    pose proof (attempted_split calls) as Hsplit.
    pose proof (counts_nonneg calls) as (Hi0 & Hf0 & Hb0).
    assert (Hleft' : batches p <> [] ->
                     Forall (fun st => st <> Left) (<[i:=Receiving]> (workers p))).
    { intros Hne. specialize (Hleft Hne). rewrite Forall_forall in *. intros st Hin.
      apply list_elem_of_lookup_1 in Hin as [j Hj].
      destruct (decide (i = j)) as [->|Hneq].
      - rewrite list_lookup_insert_eq in Hj by (now apply lookup_lt_Some in Hi).
        injection Hj as <-. discriminate.
      - rewrite list_lookup_insert_ne in Hj by assumption.
        apply Hleft. eapply list_elem_of_lookup_2. exact Hj. }
    assert (Hperm' : (fst <$> calls ++ [(batch, e)])
                     ++ in_flight (<[i:=Receiving]> (workers p)) ++ batches p ≡ₚ all).
    { rewrite <- Hperm, Hfl, fmap_app. cbn [fmap list_fmap fst].
      rewrite <- !app_assoc. apply Permutation_app_head. reflexivity. }
    destruct e as [msg|]; run_state.
    + destruct (Z.of_nat i >=? 0); run_state;
        exists (calls ++ [(batch, Some msg)]);
        cbn [batches workers totalInserted totalErrors history clock repo];
        rewrite ?insert_calls_app, ?Hh, ?length_insert, ?failed_batches_app,
          ?inserted_events_app;
        cbn [insert_calls omap list_omap app failed_batches inserted_events];
        rewrite ?app_nil_r, <- ?app_assoc; unfold add64;
        rewrite wrap64_id by (unfold is_int64, min_int64, max_int64 in *; lia);
        split_and!; try assumption; try reflexivity; try lia.
    + destruct ((logInterval >? 0) && _); run_state;
        exists (calls ++ [(batch, None)]);
        cbn [batches workers totalInserted totalErrors history clock repo];
        rewrite ?insert_calls_app, ?Hh, ?length_insert, ?failed_batches_app,
          ?inserted_events_app;
        cbn [insert_calls omap list_omap app failed_batches inserted_events];
        rewrite ?app_nil_r, <- ?app_assoc; unfold add64;
        rewrite wrap64_id by (unfold is_int64, min_int64, max_int64, len in *; lia);
        split_and!; try assumption; try reflexivity; try lia.
  - unfold ret. cbn [fst snd]. now exists calls.
  - unfold ret. cbn [fst snd]. now exists calls.
Qed.

Lemma run_pool_inv (all : list (list Event)) (h0 : list observation) (nw : nat)
    (total logInterval : Z) (sched : list nat) :
  Forall (fun b => 1 <= len b) all ->
  total_len all <= max_int64 ->
  forall (p : Pool) (w : World),
    pool_inv all h0 nw p w ->
    pool_inv all h0 nw (fst (run_pool total logInterval sched p w))
      (snd (run_pool total logInterval sched p w)).
Proof.
  intros Hpos Hmax. induction sched as [|i sched IH]; intros p w Hinv; [exact Hinv|].
  cbn [run_pool]. unfold bind.
  pose proof (consume_step_inv all h0 nw total logInterval i p w Hpos Hmax Hinv) as Hstep.
  destruct (consume_step total logInterval i p w) as [p1 w1]. now apply IH.
Qed.

Lemma in_flight_replicate (n : nat) : in_flight (replicate n Receiving) = [].
Proof. induction n as [|n IH]; [reflexivity | exact IH]. Qed.

(** What [parallelInsert] returns, in terms of the calls of [InsertBatch]
    it made: the events of the calls that succeeded and the number of calls
    that failed; every batch of the run was tried exactly once. *)
Lemma parallelInsert_spec (r : Runner) (count logInterval : Z) (fuel : nat)
    (sched : list nat) (w : World) (inserted errors : Z) :
  0 <= count <= max_int64 ->
  1 <= BatchSize r <= max_int64 ->
  fst (parallelInsert r count logInterval fuel sched w) = Returns (inserted, errors) ->
  exists calls,
    insert_calls (history (snd (parallelInsert r count logInterval fuel sched w)))
    = insert_calls (history w) ++ calls
    /\ inserted = inserted_events calls
    /\ errors = failed_batches calls
    /\ Forall (fun c => 1 <= len (fst c) <= BatchSize r) calls
    /\ inserted_events calls + failed_events calls <= count
    /\ (0 < Workers r -> inserted_events calls + failed_events calls = count).
Proof.
  intros Hc Hb. unfold parallelInsert, bind, on_clock.
  destruct (New count (BatchSize r) (clock w)) as [gen c1] eqn:HNew.
  destruct (mul64 (Workers r) 2 <? 0); [discriminate|].
  destruct (Z.leb_spec (Workers r) 0) as [Hw0|Hw1].
  { unfold ret. cbn [fst snd history]. intros [= <- <-].
    exists []. rewrite app_nil_r. cbn. split_and!; try reflexivity; try lia. constructor. }
  cbn [clock repo history].
  pose proof (Generate_returned_sizes fuel count (BatchSize r) (clock w)) as Hsizes.
  rewrite HNew in Hsizes.
  destruct (Generate fuel (gen, c1)) as [out [g' c2]].
  destruct out as [bs| | |]; try discriminate.
  destruct (Hsizes bs Hc Hb eq_refl) as [Hall Hsum].
  assert (Hpos : Forall (fun b => 1 <= len b) bs)
    by (eapply Forall_impl; [exact Hall | cbn; intros; lia]).
  pose proof (run_pool_inv bs (history w) (Z.to_nat (Workers r)) count logInterval sched
                Hpos ltac:(unfold total_len; lia)
                {| batches := bs; workers := replicate (Z.to_nat (Workers r)) Receiving;
                   totalInserted := 0; totalErrors := 0 |}
                {| clock := c2; repo := repo w; history := history w |}) as Hrun.
  destruct (run_pool count logInterval sched _ _) as [p w1].
  cbn [fst snd] in Hrun.
  destruct (all_left p) eqn:Hleft; [|discriminate].
  cbn [fst snd]. intros [= <- <-].
  destruct Hrun as (calls & Hh & Hins & Herr & Hperm & Hnw & Hne).
  { exists []. cbn [batches workers totalInserted totalErrors history].
    rewrite app_nil_r, in_flight_replicate, length_replicate.
    split_and!; try reflexivity.
    intros _. apply Forall_replicate. discriminate. }
  apply all_left_spec in Hleft.
  assert (Hempty : batches p = []).
  { destruct (batches p) as [|b rest] eqn:Eb; [reflexivity|].
    specialize (Hne ltac:(discriminate)).
    destruct (workers p) as [|st ws]; [cbn in Hnw; lia|].
    apply Forall_cons in Hleft as [-> _]. apply Forall_cons in Hne as [Hst _].
    now contradict Hst. }
  rewrite Hempty, in_flight_all_left, !app_nil_r in Hperm by assumption.
  assert (Htot : total_len (fst <$> calls) = count)
    by (rewrite (total_len_perm _ _ Hperm); exact Hsum).
  rewrite attempted_split in Htot.
  exists calls. split_and!; try assumption; try lia.
  rewrite <- Hperm in Hall. now apply Forall_fmap in Hall.
Qed.

End WithRepository.
End InsertFacts.

(** ** RunInsert and Preload *)

Module InsertClaims.
Import GoInt Float64 Float64Real Generator GeneratorFacts Benchmark SecondsFacts.
Import GeneratorSpec BenchmarkSpec Float64Value.
Import QueryFacts InsertFacts Sample.
Local Open Scope Z_scope.

Lemma test_run :
  fst (RunInsert (RP := every_second_fails) test_runner 100 test_schedule test_world)
  = Returns test_result.
Proof. vm_compute. reflexivity. Defined.

(** C1.  In the result of [RunInsert] the throughput is the float64 quotient
    of the number of inserted events by the elapsed seconds, where the
    inserted events are those of the batches whose call of [InsertBatch]
    returned no error, and the error count is the number of calls that
    returned one; the events inserted and the events of the failed batches
    never exceed the events requested, so as soon as one batch has failed
    the inserted count is strictly below [TotalEvents].  The same holds of
    the rounded numbers: when time has passed and fewer than 2^50 events
    were requested, throughput times duration, computed in float64 and
    truncated, is at most the inserted count, hence strictly below
    [TotalEvents] once a batch has failed. *)
Theorem RunInsert_throughput_counts_successes
    {RT : Runtime} {Repo : Type} {RP : Repository Repo}
    (r : Runner) (fuel : nat) (sched : list nat) (w : World) (res : InsertResult.t) :
  0 <= EventCount r <= max_int64 ->
  1 <= BatchSize r <= max_int64 ->
  fst (RunInsert r fuel sched w) = Returns res ->
  exists calls,
    insert_calls (history (snd (RunInsert r fuel sched w)))
    = insert_calls (history w) ++ calls
    /\ InsertResult.Throughput res
       = div (of_int (inserted_events calls)) (Seconds (InsertResult.Duration res))
    /\ InsertResult.ErrorCount res = failed_batches calls
    /\ InsertResult.TotalEvents res = EventCount r
    /\ inserted_events calls + failed_events calls <= InsertResult.TotalEvents res
    /\ (0 < failed_batches calls ->
        inserted_events calls < InsertResult.TotalEvents res)
    /\ (0 < InsertResult.Duration res -> EventCount r < 2 ^ 50 ->
        exists v,
          to_int (mul (InsertResult.Throughput res)
                    (Seconds (InsertResult.Duration res))) = Some v
          /\ 0 <= v <= inserted_events calls
          /\ (0 < failed_batches calls -> v < InsertResult.TotalEvents res)).
Proof.
  intros Hc Hb. unfold RunInsert, bind, on_clock.
  destruct (time_Now (clock w)) as [start c1].
  pose proof (parallelInsert_spec r (EventCount r) (mul64 (BatchSize r) 10) fuel sched
                {| clock := c1; repo := repo w; history := history w |}) as Hspec.
  destruct (parallelInsert r (EventCount r) (mul64 (BatchSize r) 10) fuel sched _)
    as [out w1].
  destruct out as [[inserted errors]| | |]; try discriminate.
  destruct (Hspec inserted errors Hc Hb eq_refl) as (calls & Hh & -> & -> & Hall & Hle & _).
  unfold time_Since, bind, on_clock, ret.
  destruct (time_Now (clock w1)) as [t c2]. cbn [fst snd history]. intros [= <-].
  cbn [InsertResult.Throughput InsertResult.Duration InsertResult.ErrorCount
       InsertResult.TotalEvents].
  exists calls. cbn [snd history] in Hh.
  assert (Hlt : 0 < failed_batches calls -> inserted_events calls < EventCount r).
  { intros Hfail.
    assert (failed_batches calls <= failed_events calls).
    { apply failed_batches_le_events.
      eapply Forall_impl; [exact Hall | cbn; intros; lia]. }
    lia. }
  split_and!; try assumption; try reflexivity.
  intros Hdur Hsmall.
  destruct (Seconds_normal (time_Sub t start)) as (m & e & -> & Hm & He).
  { split; [lia | unfold time_Sub, max_int64, min_int64; lia]. }
  pose proof (counts_nonneg calls) as (Hin & Hfe & _).
  destruct (div_mul_to_int (inserted_events calls) m e) as (v & Hv & Hle');
    [lia | assumption | assumption |].
  exists v. split_and!; [exact Hv | lia | lia | intros Hfail; specialize (Hlt Hfail); lia].
Qed.

Lemma RunInsert_throughput_counts_successes_witness :
  exists calls,
    insert_calls (history (snd (RunInsert (RP := every_second_fails) test_runner 100
                                  test_schedule test_world)))
    = insert_calls (history test_world) ++ calls
    /\ InsertResult.Throughput test_result
       = div (of_int (inserted_events calls)) (Seconds (InsertResult.Duration test_result))
    /\ InsertResult.ErrorCount test_result = failed_batches calls
    /\ InsertResult.TotalEvents test_result = EventCount test_runner
    /\ inserted_events calls + failed_events calls <= InsertResult.TotalEvents test_result
    /\ (0 < failed_batches calls ->
        inserted_events calls < InsertResult.TotalEvents test_result)
    /\ (0 < InsertResult.Duration test_result -> EventCount test_runner < 2 ^ 50 ->
        exists v,
          to_int (mul (InsertResult.Throughput test_result)
                    (Seconds (InsertResult.Duration test_result))) = Some v
          /\ 0 <= v <= inserted_events calls
          /\ (0 < failed_batches calls -> v < InsertResult.TotalEvents test_result)).
Proof.
  apply (RunInsert_throughput_counts_successes (RP := every_second_fails)
           test_runner 100 test_schedule test_world test_result).
  - cbn. unfold max_int64. lia.
  - cbn. unfold max_int64. lia.
  - exact test_run.
Defined.

(** The test's run: 5 of the 10 batches fail, time passes, and throughput
    times duration gives back the 50 events inserted, fewer than the 100
    requested. *)
Example RunInsert_every_second_fails :
  InsertResult.TotalEvents test_result = 100
  /\ InsertResult.ErrorCount test_result = 5
  /\ 0 < InsertResult.Duration test_result
  /\ to_int (mul (InsertResult.Throughput test_result)
               (Seconds (InsertResult.Duration test_result))) = Some 50.
Proof. vm_compute. repeat split; reflexivity. Qed.

(** C8.  [Preload] returns an error exactly when at least one batch failed
    and no event was inserted, which is when every call of [InsertBatch]
    failed; as soon as an event was inserted it returns no error, however
    many batches failed. *)
Theorem Preload_error_iff_total_failure
    {RT : Runtime} {Repo : Type} {RP : Repository Repo}
    (r : Runner) (fuel : nat) (sched : list nat) (w : World) (e : error) :
  PreloadCount r <= max_int64 ->
  1 <= BatchSize r <= max_int64 ->
  fst (Preload r fuel sched w) = Returns e ->
  exists calls,
    insert_calls (history (snd (Preload r fuel sched w)))
    = insert_calls (history w) ++ calls
    /\ (is_Some e <-> 0 < failed_batches calls /\ inserted_events calls = 0)
    /\ (0 < inserted_events calls -> e = None)
    /\ (is_Some e -> calls <> [] /\ Forall (fun c => is_Some (snd c)) calls).
Proof.
  intros Hc Hb. unfold Preload.
  destruct (Z.leb_spec (PreloadCount r) 0) as [H0|Hpos].
  { unfold ret. cbn [fst snd]. intros [= <-]. exists []. rewrite app_nil_r.
    cbn. split_and!; try reflexivity.
    - split; [intros [x Hx]; discriminate | lia].
    - intros [x Hx]. discriminate. }
  unfold bind.
  pose proof (parallelInsert_spec r (PreloadCount r) (mul64 (BatchSize r) 50) fuel sched w)
    as Hspec.
  destruct (parallelInsert r (PreloadCount r) (mul64 (BatchSize r) 50) fuel sched w)
    as [out w1].
  destruct out as [[inserted errors]| | |]; try discriminate.
  destruct (Hspec inserted errors ltac:(lia) Hb eq_refl)
    as (calls & Hh & -> & -> & Hall & Hle & _).
  cbn [snd] in Hh.
  pose proof (counts_nonneg calls) as (Hi0 & Hf0 & Hb0).
  assert (Hevery : inserted_events calls = 0 -> Forall (fun c => is_Some (snd c)) calls).
  { clear -Hall. induction Hall as [|[b [msg|]] cs Hlen _ IH]; intros Hz.
    - constructor.
    - constructor; [now exists msg | apply IH; exact Hz].
    - cbn [inserted_events fst] in *.
      pose proof (counts_nonneg cs) as (? & _). lia. }
  unfold log_Printf, observe, ret.
  destruct ((failed_batches calls >? 0) && (inserted_events calls =? 0)) eqn:Hcond;
    cbn [fst snd history]; intros [= <-]; exists calls;
    rewrite insert_calls_app, Hh; cbn [insert_calls omap list_omap]; rewrite app_nil_r.
  - apply andb_prop in Hcond as [Hf Hi]. apply Z.gtb_lt in Hf. apply Z.eqb_eq in Hi.
    split_and!; try reflexivity.
    + split; [intros _; split; lia | intros _; eexists; reflexivity].
    + lia.
    + intros _. split; [|now apply Hevery]. intros ->. cbn in Hf. lia.
  - split_and!; try reflexivity.
    + split; [intros [x Hx]; discriminate|].
      intros [Hf Hi]. apply Z.gtb_lt in Hf. apply Z.eqb_eq in Hi.
      rewrite Hf, Hi in Hcond. discriminate.
    + intros [x Hx]. discriminate.
Qed.

Lemma preload_run :
  fst (Preload (RP := always_fails) test_runner 30 (replicate 7 0%nat) test_world)
  = Returns preload_error.
Proof. vm_compute. reflexivity. Defined.

Lemma Preload_error_iff_total_failure_witness :
  exists calls,
    insert_calls (history (snd (Preload (RP := always_fails) test_runner 30
                                  (replicate 7 0%nat) test_world)))
    = insert_calls (history test_world) ++ calls
    /\ (is_Some preload_error <-> 0 < failed_batches calls /\ inserted_events calls = 0)
    /\ (0 < inserted_events calls -> preload_error = None)
    /\ (is_Some preload_error -> calls <> [] /\ Forall (fun c => is_Some (snd c)) calls).
Proof.
  apply (Preload_error_iff_total_failure (RP := always_fails) test_runner 30
           (replicate 7 0%nat) test_world preload_error).
  - cbn. unfold max_int64. lia.
  - cbn. unfold max_int64. lia.
  - exact preload_run.
Defined.

(** Preloading 30 events in batches of 10: on a target that is down the
    three batches fail and [Preload] reports it; when every second batch
    fails, two batches land and [Preload] returns no error. *)
Example Preload_total_and_partial_failure :
  preload_error = Some "preload failed: all 3 batches errored"%string
  /\ fst (Preload (RP := every_second_fails) test_runner 30 (replicate 7 0%nat) test_world)
     = Returns None.
Proof. vm_compute. split; reflexivity. Qed.

End InsertClaims.

(** ** WaitReady against a probe that never succeeds *)

Module OrchestratorFacts.
Import GoInt Generator Orchestrator.
Local Open Scope Z_scope.

Lemma interval_pos : 0 < interval.
Proof. reflexivity. Qed.

Lemma fire_idle (p : Polling) : at_time p < next_tick p -> fire p = p.
Proof. intros H. unfold fire. destruct (Z.leb_spec (next_tick p) (at_time p)); [lia | reflexivity]. Qed.

(** After the ticker has caught up its next firing lies ahead, and a tick
    waits only if one was waiting or a firing fell due. *)
Lemma fire_spec (p : Polling) :
  at_time (fire p) = at_time p
  /\ deadline_at (fire p) = deadline_at p
  /\ started (fire p) = started p
  /\ selects (fire p) = selects p
  /\ at_time p < next_tick (fire p)
  /\ next_tick p <= next_tick (fire p)
  /\ (tick_waiting (fire p) = true ->
      tick_waiting p = true \/ next_tick p <= at_time p).
Proof.
  unfold fire. pose proof interval_pos as Hi.
  destruct (Z.leb_spec (next_tick p) (at_time p)) as [Hle|Hgt];
    cbn [at_time deadline_at next_tick tick_waiting started selects].
  - pose proof (Z.mul_succ_div_gt (at_time p - next_tick p) interval Hi) as Hdiv.
    assert (0 <= (at_time p - next_tick p) / interval) by (apply Z.div_pos; lia).
    replace (Z.succ ((at_time p - next_tick p) / interval))
      with ((at_time p - next_tick p) / interval + 1) in Hdiv by lia.
    split_and!; try reflexivity; try lia; try (intros _; now right).
  - split_and!; try reflexivity; try lia; try (intros H; now left).
Qed.

Lemma elem_of_ready (c : Context) (p : Polling) (x : ready_case) :
  x ∈ ready c p ->
  match x with
  | CtxDone => is_done c (at_time p) = true
  | DeadlinePassed => deadline_at p <= at_time p
  | Tick => tick_waiting p = true
  end.
Proof.
  unfold ready. rewrite !elem_of_app.
  destruct (is_done c (at_time p)) eqn:Hd,
           (Z.leb_spec (deadline_at p) (at_time p)) as [Hl|Hl],
           (tick_waiting p) eqn:Ht;
    rewrite ?elem_of_cons, ?elem_of_nil; intros Hin; destruct x; try reflexivity;
    try assumption; try (exfalso; intuition discriminate).
Qed.

Lemma ready_nil (c : Context) (p : Polling) :
  ready c p = [] ->
  is_done c (at_time p) = false /\ at_time p < deadline_at p /\ tick_waiting p = false.
Proof.
  unfold ready.
  destruct (is_done c (at_time p)), (Z.leb_spec (deadline_at p) (at_time p)),
           (tick_waiting p); cbn; intros Hnil; try discriminate.
  split_and!; [reflexivity | lia | reflexivity].
Qed.

Lemma next_event_ahead (c : Context) (p : Polling) :
  is_done c (at_time p) = false -> at_time p < deadline_at p -> at_time p < next_tick p ->
  at_time p < next_event c p.
Proof.
  unfold is_done, next_event. destruct (done_at c) as [d|]; [|lia].
  intros Hd%Z.leb_gt. lia.
Qed.

(** What a [select] that picked a case did: time did not go back, and the
    case picked was ready. *)
Lemma select_spec (s : Surroundings) (p p' : Polling) (c : ready_case) :
  select s p = (Some c, p') ->
  at_time p <= at_time p'
  /\ deadline_at p' = deadline_at p
  /\ started p' = started p
  /\ next_tick p <= next_tick p'
  /\ match c with
     | CtxDone => is_done (ctx s) (at_time p') = true
     | DeadlinePassed => deadline_at p' <= at_time p'
     | Tick => tick_waiting p' = true
               /\ (tick_waiting p = true \/ next_tick p <= at_time p')
     end.
Proof.
  unfold select. intros Hsel.
  pose proof (fire_spec p) as (Ht & Hd & Hst & Hn & Hnt & Hmono & Htw).
  destruct (ready (ctx s) (fire p)) as [|c0 cs] eqn:Hready.
  - apply ready_nil in Hready as (Hdone & Hdl & Hw).
    set (q := sleep_until (next_event (ctx s) (fire p)) (fire p)) in *.
    pose proof (fire_spec q) as (Ht' & Hd' & Hst' & Hn' & Hnt' & Hmono' & Htw').
    pose proof (next_event_ahead (ctx s) (fire p) Hdone Hdl ltac:(lia)) as Hahead.
    cbn [sleep_until at_time deadline_at next_tick tick_waiting started selects q] in *.
    injection Hsel as Hc <-.
    cbn [at_time deadline_at next_tick tick_waiting started selects].
    apply list_elem_of_lookup_2, elem_of_ready in Hc.
    rewrite Ht', Hd', Hst'. split_and!; try lia; try congruence.
    destruct c; rewrite ?Ht', ?Hd' in Hc; try assumption; try lia.
    split; [assumption|]. right.
    destruct (Htw' Hc) as [Hw'|Hw']; [congruence | lia].
  - injection Hsel as Hc <-.
    cbn [at_time deadline_at next_tick tick_waiting started selects].
    apply list_elem_of_lookup_2, elem_of_ready in Hc.
    split_and!; try lia; try congruence.
    destruct c; rewrite ?Ht, ?Hd in *; try assumption; try lia.
    split; [assumption|]. destruct (Htw Hc); [now left | right; lia].
Qed.

Lemma ready_uncancelled (c : Context) (p : Polling) :
  done_at c = None ->
  ready c p = (if deadline_at p <=? at_time p then [DeadlinePassed] else [])
              ++ (if tick_waiting p then [Tick] else []).
Proof. intros Hno. unfold ready, is_done. now rewrite Hno. Qed.

Lemma fire_due (p : Polling) :
  at_time p = next_tick p ->
  fire p = {| at_time := at_time p; deadline_at := deadline_at p;
              next_tick := next_tick p + interval; tick_waiting := true;
              started := started p; selects := selects p |}.
Proof.
  intros Heq. unfold fire. rewrite Heq, Z.leb_refl, Z.sub_diag.
  change (0 / interval + 1) with 1. now rewrite Z.mul_1_r.
Qed.

(** Between two ticks and before the deadline, [select] sleeps until the
    tick and takes it. *)
Lemma select_sleeps_to_tick (s : Surroundings) (p : Polling) :
  done_at (ctx s) = None -> tick_waiting p = false ->
  at_time p < next_tick p -> next_tick p < deadline_at p ->
  select s p
  = (Some Tick,
     {| at_time := next_tick p; deadline_at := deadline_at p;
        next_tick := next_tick p + interval; tick_waiting := true;
        started := started p; selects := S (selects p) |}).
Proof.
  intros Hno Htw Hlt Hbefore. unfold select.
  rewrite fire_idle by assumption.
  rewrite (ready_uncancelled _ p Hno), Htw.
  rewrite (proj2 (Z.leb_gt (deadline_at p) (at_time p))) by lia. cbn [app].
  assert (Hne : next_event (ctx s) p = next_tick p)
    by (unfold next_event; rewrite Hno; lia).
  rewrite Hne, fire_due by reflexivity.
  cbn [sleep_until at_time deadline_at next_tick tick_waiting started selects].
  rewrite ready_uncancelled by assumption.
  cbn [at_time deadline_at next_tick tick_waiting started selects].
  rewrite (proj2 (Z.leb_gt (deadline_at p) (next_tick p))) by lia.
  cbn [app length]. rewrite Nat.mod_1_r. reflexivity.
Qed.



Section NeverReady.
Variable s : Surroundings.
Variable svc : DBService.
Hypothesis never_ready : forall k t, is_Some (snd (probe s k t)).



End NeverReady.
End OrchestratorFacts.

(** ** WaitReady: grace delay, polling and timeout *)

Module OrchestratorClaims.
Import GoInt Generator Orchestrator OrchestratorFacts.
Import SampleServices.
Local Open Scope Z_scope.




(** A context cancelled two seconds into the grace delay ends the wait
    there, with the context's error and no probe made. *)
Example WaitReady_cancelled_in_grace :
  WaitReady 31
    {| ctx := {| done_at := Some (2 * Second); ctx_Err := "context canceled" |};
       probe := probe stubborn; pick := pick stubborn |}
    postgres 0
  = Returns {| returned_at := 2 * Second; err := Some (Cancelled "context canceled");
               probes := [] |}.
Proof. vm_compute. reflexivity. Qed.

End OrchestratorClaims.


(** * Further properties *)

(** ** More on float64: rounding from below *)

Module Float64More.
Import GoInt Float64 Float64Facts Float64Real.
Import Float64Value.
Local Open Scope R_scope.

Lemma binary_round_aux_lower (M : positive) (E : Z) (l : location) :
  let k := (Zdigits2 (Z.pos M) - prec)%Z in
  (0 <= k)%Z ->
  (emin prec emax <= E + k)%Z ->
  (E + k + 1 <= emax - prec)%Z ->
  exists (m : positive) (e : Z),
    binary_round_aux prec emax false (Z.pos M) E l = S754_finite false m e
    /\ IZR (Z.pos M) * powerRZ 2 E * (1 - ulp) <= F2R (S754_finite false m e).
Proof.
  intros k Hk Hlo Hhi. cbn [F2R].
  destruct (binary_round_aux_normal false M E l Hk Hlo Hhi)
    as (m & e & mr & Heq & Hm & He & Hmr & Hval & Hfl).
  fold k in Hmr, Hval, Hfl, He.
  exists m, e. split; [assumption|].
  replace e with ((e - (E + k)) + (E + k))%Z by lia.
  rewrite !pow2_add, <- (pow2_IZR (e - (E + k))) by lia.
  rewrite <- (Rmult_assoc (IZR (Z.pos m))), <- mult_IZR, Hval.
  set (f := (Z.pos M / 2 ^ k)%Z) in *.
  assert (Hf : IZR (Z.pos M) <= (IZR f + 1) * powerRZ 2 k).
  { rewrite <- pow2_IZR, <- plus_IZR, <- mult_IZR by lia. apply IZR_le.
    unfold f. pose proof (Z.pow_pos_nonneg 2 k). Z.div_mod_to_equations. nia. }
  assert (Hmr' : IZR f <= IZR mr) by (apply IZR_le; lia).
  assert (Hf52 : 4503599627370496 <= IZR f).
  { apply IZR_le. change (2 ^ (prec - 1))%Z with 4503599627370496%Z in Hfl. lia. }
  pose proof (pow2_pos E) as HE. pose proof (pow2_pos k) as Hpk.
  assert (Hone : (IZR f + 1) * (1 - ulp) <= IZR f) by (unfold ulp; lra).
  pose proof ulp_pos as Hu.
  assert (Hu1 : 0 <= 1 - ulp) by (unfold ulp; lra).
  apply Rle_trans with ((IZR f + 1) * powerRZ 2 k * powerRZ 2 E * (1 - ulp)).
  - apply Rmult_le_compat_r; [assumption|].
    apply Rmult_le_compat_r; [lra | assumption].
  - replace ((IZR f + 1) * powerRZ 2 k * powerRZ 2 E * (1 - ulp))
      with ((IZR f + 1) * (1 - ulp) * (powerRZ 2 E * powerRZ 2 k)) by ring.
    apply Rmult_le_compat_r; [|lra].
    apply Rlt_le, Rmult_lt_0_compat; assumption.
Qed.

(** The product of two positive normal floats falls short of the exact
    product by at most one unit in the last place. *)
Lemma mul_lower (mx my : positive) (ex ey : Z) :
  (2 ^ (prec - 1) <= Z.pos mx < 2 ^ prec)%Z ->
  (2 ^ (prec - 1) <= Z.pos my < 2 ^ prec)%Z ->
  (-1000 <= ex + ey <= 900)%Z ->
  F2R (S754_finite false mx ex) * F2R (S754_finite false my ey) * (1 - ulp)
  <= F2R (mul (S754_finite false mx ex) (S754_finite false my ey)).
Proof.
  intros Hx Hy He.
  change (2 ^ (prec - 1))%Z with 4503599627370496%Z in *.
  change (2 ^ prec)%Z with 9007199254740992%Z in *.
  unfold mul, SFmul. cbn [xorb].
  pose proof (Zdigits2_range (mx * my) 105 ltac:(lia)) as Hd.
  change (2 ^ (105 - 1))%Z with (4503599627370496 * 4503599627370496)%Z in Hd.
  change (2 ^ (105 + 1))%Z with (9007199254740992 * 9007199254740992)%Z in Hd.
  rewrite Pos2Z.inj_mul in Hd. specialize (Hd ltac:(nia)).
  rewrite <- Pos2Z.inj_mul in Hd.
  destruct (binary_round_aux_lower (mx * my) (ex + ey) loc_Exact)
    as (m & e & -> & Hval).
  { unfold prec. lia. }
  { unfold emin, prec, emax. lia. }
  { unfold prec, emax. lia. }
  eapply Rle_trans; [|exact Hval]. cbn [F2R].
  rewrite Pos2Z.inj_mul, mult_IZR, pow2_add.
  apply Req_le. ring.
Qed.

(** Truncation discards less than one. *)
Lemma trunc_upper (m : positive) (e : Z) :
  F2R (S754_finite false m e) < IZR (Z.shiftl (Z.pos m) e) + 1.
Proof.
  cbn [F2R]. destruct (Z_le_gt_dec 0 e) as [He|He].
  - rewrite Z.shiftl_mul_pow2, mult_IZR, pow2_IZR by lia. lra.
  - rewrite Z.shiftl_div_pow2 by lia.
    pose proof (pow2_pos (- e)) as Hp.
    apply Rmult_lt_reg_r with (powerRZ 2 (- e)); [assumption|].
    rewrite Rmult_assoc, <- pow2_add.
    replace (e + - e)%Z with 0%Z by lia. cbn [powerRZ]. rewrite Rmult_1_r.
    rewrite <- pow2_IZR, <- plus_IZR, <- mult_IZR by lia. apply IZR_lt.
    pose proof (Z.pow_pos_nonneg 2 (- e)). Z.div_mod_to_equations. nia.
Qed.

(** The real value of [float64(n)]. *)
Lemma F2R_of_int (n : Z) (m : positive) (e : Z) :
  of_int n = S754_finite false m e ->
  (1 <= n < 2 ^ prec)%Z ->
  F2R (S754_finite false m e) = IZR n.
Proof.
  intros Hof Hn. destruct (of_int_exact n Hn) as (m' & e' & Hof' & Hm & _ & He).
  rewrite Hof in Hof'. injection Hof' as <- <-. cbn [F2R].
  rewrite Hm, mult_IZR, pow2_IZR, Rmult_assoc, <- pow2_add by lia.
  replace (- e + e)%Z with 0%Z by lia. cbn [powerRZ]. ring.
Qed.

Lemma pow2_neg53 : powerRZ 2 (-53) = / 9007199254740992.
Proof.
  change (powerRZ 2 (-53)) with (/ (2 ^ Pos.to_nat 53)).
  rewrite pow_IZR. reflexivity.
Qed.

(** The index [int(float64(n) * p)] for a float [p] in [[1/2, 1)]: within
    one unit in the last place of [n * p], truncated. *)
Lemma rank_bounds (n : Z) (mp : positive) :
  (1 <= n < 2 ^ prec)%Z ->
  (2 ^ (prec - 1) <= Z.pos mp < 2 ^ prec)%Z ->
  exists i : Z,
    Stats.rank n (S754_finite false mp (-53)) = Some i
    /\ (0 <= i)%Z
    /\ IZR i <= IZR n * (IZR (Z.pos mp) / 9007199254740992) * (1 + ulp)
    /\ IZR n * (IZR (Z.pos mp) / 9007199254740992) * (1 - ulp) < IZR i + 1.
Proof.
  intros Hn Hp. unfold Stats.rank.
  destruct (of_int_exact n Hn) as (mx & ex & Hof & _ & Hmx & Hex).
  pose proof (F2R_of_int n mx ex Hof Hn) as Hx.
  rewrite Hof. unfold prec in Hex.
  destruct (mul_upper mx mp ex (-53) Hmx Hp ltac:(lia))
    as (m & e & Hmul & Hm & He & Hup).
  pose proof (mul_lower mx mp ex (-53) Hmx Hp ltac:(lia)) as Hlow.
  rewrite Hmul in *. rewrite Hx in Hup, Hlow.
  assert (Hvp : F2R (S754_finite false mp (-53)) = IZR (Z.pos mp) / 9007199254740992).
  { cbn [F2R]. rewrite pow2_neg53. reflexivity. }
  rewrite Hvp in Hup, Hlow.
  destruct (trunc_lower m e) as [Hi0 Hi]. pose proof (trunc_upper m e) as Hi1.
  set (i := Z.shiftl (Z.pos m) e) in *.
  assert (Hn1 : 1 <= IZR n < 9007199254740992).
  { change (2 ^ prec)%Z with 9007199254740992%Z in Hn.
    split; [apply IZR_le | apply IZR_lt]; lia. }
  assert (Hp1 : 0 < IZR (Z.pos mp) / 9007199254740992 < 1).
  { change (2 ^ (prec - 1))%Z with 4503599627370496%Z in Hp.
    change (2 ^ prec)%Z with 9007199254740992%Z in Hp.
    assert (4503599627370496 <= IZR (Z.pos mp) < 9007199254740992)
      by (split; [apply IZR_le | apply IZR_lt]; lia).
    split; [apply Rdiv_lt_0_compat; lra|].
    apply Rmult_lt_reg_r with 9007199254740992; [lra|].
    unfold Rdiv. rewrite Rmult_assoc, Rinv_l by lra. lra. }
  pose proof ulp_pos as Hu.
  assert (Hsmall : IZR i < 18014398509481984).
  { eapply Rle_lt_trans; [exact Hi|]. eapply Rle_lt_trans; [exact Hup|].
    unfold ulp in *. nra. }
  apply lt_IZR in Hsmall.
  exists i. split_and!; [|assumption| |].
  - unfold to_int. cbn [trunc]. fold i.
    assert (Hfit : in_int64 i = true).
    { unfold in_int64, min_int64, max_int64.
      change (2 ^ 63)%Z with 9223372036854775808%Z.
      apply andb_true_intro; split; apply Z.leb_le; lia. }
    now rewrite Hfit.
  - eapply Rle_trans; [exact Hi | exact Hup].
  - eapply Rle_lt_trans; [exact Hlow | exact Hi1].
Qed.

(** The indices of the three percentiles the runner reports are in order
    and below the length. *)
Lemma ranks_ordered (n : Z) :
  (1 <= n < 2 ^ prec)%Z ->
  exists i j k : Z,
    Stats.rank n Benchmark.p50 = Some i
    /\ Stats.rank n Benchmark.p95 = Some j
    /\ Stats.rank n Benchmark.p99 = Some k
    /\ (0 <= i <= j)%Z /\ (j <= k)%Z /\ (k < n)%Z.
Proof.
  intros Hn.
  change Benchmark.p50 with (S754_finite false 4503599627370496 (-53)).
  change Benchmark.p95 with (S754_finite false 8556839292003942 (-53)).
  change Benchmark.p99 with (S754_finite false 8917127262193582 (-53)).
  destruct (rank_bounds n 4503599627370496 Hn) as (i & Hi & Hi0 & Hiu & Hil).
  { split; [apply Z.leb_le | apply Z.ltb_lt]; reflexivity. }
  destruct (rank_bounds n 8556839292003942 Hn) as (j & Hj & Hj0 & Hju & Hjl).
  { split; [apply Z.leb_le | apply Z.ltb_lt]; reflexivity. }
  destruct (rank_bounds n 8917127262193582 Hn) as (k & Hk & Hk0 & Hku & Hkl).
  { split; [apply Z.leb_le | apply Z.ltb_lt]; reflexivity. }
  assert (Hn1 : 1 <= IZR n) by (apply IZR_le; lia).
  exists i, j, k. split_and!; try assumption.
  - apply Z.lt_succ_r, lt_IZR. rewrite succ_IZR. unfold ulp in *. lra.
  - apply Z.lt_succ_r, lt_IZR. rewrite succ_IZR. unfold ulp in *. lra.
  - apply lt_IZR. unfold ulp in *. lra.
Qed.

(** *** Dividing by a power of two *)

(** Dividing a normal float by a power of two only changes the exponent. *)
Lemma div_pow2 (mx : positive) (ex ey : Z) :
  (2 ^ (prec - 1) <= Z.pos mx < 2 ^ prec)%Z ->
  (-900 <= ex - ey <= 900)%Z ->
  div (S754_finite false mx ex) (S754_finite false 4503599627370496 ey)
  = S754_finite false mx (ex - ey - 52).
Proof.
  intros Hx He.
  assert (Hd : Z.pos (digits2_pos mx) = prec)
    by (apply digits2_pos_unique; [exact Hx | unfold prec; lia]).
  change (2 ^ (prec - 1))%Z with 4503599627370496%Z in *.
  change (2 ^ prec)%Z with 9007199254740992%Z in *.
  unfold div, SFdiv, SFdiv_core_binary. cbn [xorb].
  assert (Hdx : Zdigits2 (Z.pos mx) = 53%Z) by exact Hd.
  change (Zdigits2 4503599627370496) with 53%Z. rewrite Hdx.
  assert (He' : Z.min (fexp prec emax (53 + ex - (53 + ey))) (ex - ey)
                = (ex - ey - 53)%Z).
  { unfold fexp, emin, prec, emax. lia. }
  rewrite He'.
  replace (ex - ey - (ex - ey - 53))%Z with 53%Z by lia.
  cbv iota. rewrite Z.shiftl_mul_pow2 by lia.
  change (2 ^ 53)%Z with 9007199254740992%Z.
  assert (Hde : Z.div_eucl (Z.pos mx * 9007199254740992) 4503599627370496
                = (Z.pos mx~0, 0%Z)).
  { pose proof (Z_div_mod (Z.pos mx * 9007199254740992) 4503599627370496 ltac:(lia))
      as Hdm.
    destruct (Z.div_eucl (Z.pos mx * 9007199254740992) 4503599627370496) as [q r].
    destruct Hdm as [Hdm Hr]. f_equal; lia. }
  rewrite Hde. change (new_location 4503599627370496 0) with loc_Exact.
  assert (Hs : shr_fexp prec emax (Z.pos mx~0) (ex - ey - 53) loc_Exact
               = ({| shr_m := Z.pos mx; shr_r := false; shr_s := false |},
                  (ex - ey - 52)%Z)).
  { unfold shr_fexp. cbn [Zdigits2 digits2_pos]. rewrite Pos2Z.inj_succ, Hd.
    replace (fexp prec emax (Z.succ prec + (ex - ey - 53)) - (ex - ey - 53))%Z
      with 1%Z by (unfold fexp, emin, prec, emax; lia).
    cbn -[Z.add]. f_equal. lia. }
  unfold binary_round_aux. rewrite Hs.
  cbn [shr_m loc_of_shr_record round_nearest_even].
  assert (Hs' : shr_fexp prec emax (Z.pos mx) (ex - ey - 52) loc_Exact
                = ({| shr_m := Z.pos mx; shr_r := false; shr_s := false |},
                   (ex - ey - 52)%Z)).
  { unfold shr_fexp. cbn [Zdigits2]. rewrite Hd.
    replace (fexp prec emax (prec + (ex - ey - 52)) - (ex - ey - 52))%Z with 0%Z
      by (unfold fexp, emin, prec, emax; lia).
    reflexivity. }
  rewrite Hs'. cbn [shr_m].
  destruct (Z.leb_spec (ex - ey - 52) (emax - prec)); [reflexivity|].
  unfold emax, prec in *. lia.
Qed.

(** [float64(2^k)]. *)
Lemma of_int_pow2 (k : Z) :
  (0 <= k <= 52)%Z -> of_int (2 ^ k) = S754_finite false 4503599627370496 (k - 52).
Proof.
  intros Hk.
  assert (Hpow : (1 <= 2 ^ k < 2 ^ prec)%Z).
  { split; [pose proof (Z.pow_pos_nonneg 2 k); lia|].
    apply Z.pow_lt_mono_r; unfold prec; lia. }
  destruct (of_int_exact (2 ^ k) Hpow) as (m & e & -> & Hm & Hn & He).
  rewrite <- Z.pow_add_r in Hm by lia.
  rewrite Hm in Hn. destruct Hn as [Hlo Hhi]. unfold prec in *.
  assert (H0 : (0 <= k + - e)%Z) by lia.
  assert (H2 : (1 < 2)%Z) by lia.
  apply (Z.pow_le_mono_r_iff 2 _ _ H2 H0) in Hlo.
  apply (Z.pow_lt_mono_r_iff 2 _ 53 H2 ltac:(lia)) in Hhi.
  assert (e = k - 52)%Z by lia. subst e.
  f_equal. apply Pos2Z.inj. rewrite Hm.
  replace (k + - (k - 52))%Z with 52%Z by lia. reflexivity.
Qed.

(** A count below [2^53] divided by [2^k] in float64 is exact. *)
Lemma div_of_int_pow2 (n k : Z) :
  (1 <= n < 2 ^ prec)%Z -> (0 <= k <= 52)%Z ->
  exists m e,
    div (of_int n) (of_int (2 ^ k)) = S754_finite false m e
    /\ F2R (S754_finite false m e) = IZR n / IZR (2 ^ k).
Proof.
  intros Hn Hk. rewrite of_int_pow2 by assumption.
  destruct (of_int_exact n Hn) as (mx & ex & Hof & Hmx & Hnx & Hex).
  pose proof (F2R_of_int n mx ex Hof Hn) as Hval.
  rewrite Hof. unfold prec in Hex.
  rewrite div_pow2 by (try assumption; lia).
  exists mx, (ex - (k - 52) - 52)%Z. split; [reflexivity|].
  cbn [F2R] in *. replace (ex - (k - 52) - 52)%Z with (ex + - k)%Z by lia.
  rewrite pow2_add, <- Rmult_assoc, Hval, pow2_IZR by lia.
  unfold Rdiv. f_equal.
  apply Rmult_eq_reg_l with (powerRZ 2 k); [|apply Rgt_not_eq, pow2_pos].
  rewrite <- pow2_add, Rinv_r by (apply Rgt_not_eq, pow2_pos).
  replace (k + - k)%Z with 0%Z by lia. reflexivity.
Qed.

End Float64More.


(** ** Statistics over durations *)

Module StatsMore.
Import GoInt Float64 Float64Facts Stats StatsFacts GeneratorFacts.
Import StatsSpec StatsSums Sample.
Local Open Scope Z_scope.

Lemma fold_min_spec (rest : list Z) (d0 : Z) :
  let r := fold_left (fun result d => if d <? result then d else result) rest d0 in
  r ∈ d0 :: rest /\ Forall (fun d => r <= d) (d0 :: rest).
Proof.
  revert d0. induction rest as [|d rest IH]; intros d0; cbn [fold_left].
  - split; [left | repeat constructor; lia].
  - specialize (IH (if d <? d0 then d else d0)). cbn zeta in IH.
    destruct IH as [Hin Hall].
    apply Forall_cons in Hall as [Hhd Hall].
    split.
    + apply elem_of_cons in Hin as [Hin|Hin].
      * rewrite Hin. destruct (d <? d0); [right; left | left].
      * right; right; exact Hin.
    + destruct (Z.ltb_spec d d0); repeat (apply Forall_cons; split); try lia; exact Hall.
Qed.

Lemma MinDuration_in (ds : list Z) : ds ≠ [] -> MinDuration ds ∈ ds.
Proof. destruct ds as [|d0 rest]; [congruence|]. intros _. apply fold_min_spec. Qed.

Lemma MinDuration_lower (ds : list Z) (d : Z) : d ∈ ds -> MinDuration ds <= d.
Proof.
  destruct ds as [|d0 rest]; [now intros ?%elem_of_nil|].
  intros Hin. pose proof (fold_min_spec rest d0) as [_ Hall].
  rewrite Forall_forall in Hall. now apply Hall.
Qed.

(** X1.  [MinDuration] and [MaxDuration] return 0 on the empty slice; on a
    non-empty one each returns an element of the slice, no element is
    below the first and none above the second. *)
Theorem MinDuration_MaxDuration_bounds (ds : list Duration) :
  (MinDuration [] = 0 /\ MaxDuration [] = 0)
  /\ (ds ≠ [] -> MinDuration ds ∈ ds /\ MaxDuration ds ∈ ds)
  /\ (forall d, d ∈ ds -> MinDuration ds <= d <= MaxDuration ds).
Proof.
  split; [split; reflexivity|]. split.
  - intros Hne. split; [now apply MinDuration_in | now apply MaxDuration_in].
  - intros d Hd. split; [now apply MinDuration_lower | now apply MaxDuration_upper].
Qed.

(** *** The average *)

Lemma wrap64_range (z : Z) : is_int64 (wrap64 z).
Proof.
  unfold wrap64, is_int64, min_int64, max_int64.
  pose proof (Z.mod_pos_bound (z + 2 ^ 63) (2 ^ 64) ltac:(lia)).
  change (2 ^ 64) with (2 * 2 ^ 63) in *. lia.
Qed.

Lemma wrap64_add_l (a b : Z) : wrap64 (wrap64 a + b) = wrap64 (a + b).
Proof.
  unfold wrap64. f_equal.
  replace ((a + 2 ^ 63) mod 2 ^ 64 - 2 ^ 63 + b + 2 ^ 63)
    with ((a + 2 ^ 63) mod 2 ^ 64 + b) by lia.
  rewrite Zplus_mod_idemp_l. f_equal. lia.
Qed.

(** The running sum wraps at each addition, which comes to wrapping once. *)
Lemma fold_add64 (ds : list Z) (a : Z) :
  is_int64 a -> fold_left add64 ds a = wrap64 (a + sum_Z ds).
Proof.
  revert a. induction ds as [|d ds IH]; intros a Ha; cbn [fold_left sum_Z foldr].
  - rewrite Z.add_0_r. symmetry. now apply wrap64_id.
  - rewrite IH by apply wrap64_range. unfold add64.
    rewrite wrap64_add_l. f_equal. fold (sum_Z ds). lia.
Qed.

Lemma sum_durations_wraps (ds : list Z) : sum_durations ds = wrap64 (sum_Z ds).
Proof.
  unfold sum_durations. rewrite fold_add64; [reflexivity|].
  unfold is_int64, min_int64, max_int64. lia.
Qed.

Lemma sum_Z_bounds (ds : list Z) (lo hi : Z) :
  Forall (fun d => lo <= d <= hi) ds ->
  len ds * lo <= sum_Z ds <= len ds * hi.
Proof.
  unfold len. induction 1 as [|d ds Hd _ IH]; cbn [sum_Z foldr length]; [lia|].
  fold (sum_Z ds). nia.
Qed.

Lemma quot_between (s n lo hi : Z) :
  1 <= n -> n * lo <= s <= n * hi -> lo <= Z.quot s n <= hi.
Proof.
  intros Hn Hs.
  pose proof (Z.quot_rem' s n) as Hqr.
  destruct (Z_le_gt_dec 0 s) as [Hpos|Hneg].
  - pose proof (Z.rem_bound_pos s n ltac:(lia) ltac:(lia)). split.
    + apply Z.lt_succ_r, (Z.mul_lt_mono_pos_l n); lia.
    + apply (Z.mul_le_mono_pos_l _ _ n); lia.
  - pose proof (Z.rem_bound_pos_neg s n ltac:(lia) ltac:(lia)). split.
    + apply (Z.mul_le_mono_pos_l _ _ n); lia.
    + apply Z.lt_succ_r, (Z.mul_lt_mono_pos_l n); lia.
Qed.

Lemma AvgDuration_exact (ds : list Duration) :
  ds ≠ [] ->
  is_int64 (sum_Z ds) ->
  AvgDuration ds = Z.quot (sum_Z ds) (len ds)
  /\ MinDuration ds <= AvgDuration ds <= MaxDuration ds.
Proof.
  intros Hne Hsum.
  assert (Hlen : 1 <= len ds) by (unfold len; destruct ds; [congruence | cbn; lia]).
  assert (Hall : Forall (fun d => MinDuration ds <= d <= MaxDuration ds) ds).
  { apply Forall_forall. intros d Hd.
    split; [now apply MinDuration_lower | now apply MaxDuration_upper]. }
  pose proof (sum_Z_bounds ds _ _ Hall) as Hb.
  pose proof (quot_between (sum_Z ds) (len ds) _ _ Hlen Hb) as Hq.
  assert (Havg : AvgDuration ds = Z.quot (sum_Z ds) (len ds)).
  { unfold AvgDuration. destruct (Z.eqb_spec (len ds) 0); [lia|].
    rewrite sum_durations_wraps, (wrap64_id (sum_Z ds)) by assumption.
    unfold quot64. apply wrap64_id.
    pose proof (quot_between (sum_Z ds) (len ds) min_int64 max_int64 Hlen) as Hr.
    unfold is_int64 in *. apply Hr. unfold min_int64, max_int64 in *. nia. }
  rewrite Havg. split; [reflexivity | exact Hq].
Qed.

(** X2.  When the sum of the durations fits in an [int64], [AvgDuration] of
    a non-empty slice is that sum divided by the length, truncated toward
    zero, and lies between [MinDuration] and [MaxDuration]. *)
Theorem AvgDuration_between (ds : list Duration) :
  ds ≠ [] ->
  is_int64 (sum_Z ds) ->
  AvgDuration ds = Z.quot (sum_Z ds) (len ds)
  /\ MinDuration ds <= AvgDuration ds <= MaxDuration ds.
Proof. apply AvgDuration_exact. Qed.

Lemma AvgDuration_between_witness :
  AvgDuration (ms [300; 100; 200]) = Z.quot (sum_Z (ms [300; 100; 200])) (len (ms [300; 100; 200]))
  /\ MinDuration (ms [300; 100; 200]) <= AvgDuration (ms [300; 100; 200])
     <= MaxDuration (ms [300; 100; 200]).
Proof.
  apply (AvgDuration_between (ms [300; 100; 200])).
  - intros H. vm_compute in H. discriminate H.
  - vm_compute. split; discriminate.
Defined.

(** X3.  When the durations are positive and their sum is between [2^63]
    and [2^64], the running sum has wrapped and [AvgDuration] is at most
    zero: below the smallest duration. *)
Theorem AvgDuration_overflow (ds : list Duration) :
  Forall (fun d => 0 < d) ds ->
  2 ^ 63 <= sum_Z ds < 2 ^ 64 ->
  AvgDuration ds <= 0 < MinDuration ds.
Proof.
  intros Hpos Hsum.
  assert (Hne : ds ≠ []) by (intros ->; cbn in Hsum; lia).
  assert (Hlen : 1 <= len ds) by (unfold len; destruct ds; [congruence | cbn; lia]).
  split.
  - unfold AvgDuration. destruct (Z.eqb_spec (len ds) 0); [lia|].
    rewrite sum_durations_wraps.
    assert (Hw : wrap64 (sum_Z ds) = sum_Z ds - 2 ^ 64).
    { unfold wrap64.
      replace (sum_Z ds + 2 ^ 63) with (sum_Z ds - 2 ^ 63 + 1 * 2 ^ 64) by lia.
      rewrite Z_mod_plus_full, Z.mod_small by lia. lia. }
    rewrite Hw. unfold quot64.
    change (2 ^ 63) with 9223372036854775808 in Hsum.
    change (2 ^ 64) with 18446744073709551616 in *.
    assert (Hq : min_int64 <= Z.quot (sum_Z ds - 18446744073709551616) (len ds) <= 0).
    { apply quot_between; [exact Hlen|]. unfold min_int64.
      change (2 ^ 63) with 9223372036854775808. nia. }
    rewrite wrap64_id; [lia|].
    unfold is_int64, max_int64, min_int64 in *.
    change (2 ^ 63) with 9223372036854775808 in *. lia.
  - pose proof (MinDuration_in ds Hne) as Hin.
    rewrite Forall_forall in Hpos. now apply Hpos.
Qed.

Lemma AvgDuration_overflow_witness :
  AvgDuration [max_int64; max_int64] <= 0 < MinDuration [max_int64; max_int64].
Proof.
  apply (AvgDuration_overflow [max_int64; max_int64]).
  - repeat constructor.
  - vm_compute. split; [discriminate | reflexivity].
Defined.

(** *** Percentile *)

Lemma Sorted_lookup_le (l : list Z) (i j : nat) (x y : Z) :
  Sorted Z.le l -> (i <= j)%nat -> l !! i = Some x -> l !! j = Some y -> x <= y.
Proof.
  intros Hs. apply (Sorted_StronglySorted Z.le) in Hs.
  revert i j. induction Hs as [|a l Hs IH Hall]; intros i j Hij Hx Hy; [discriminate|].
  destruct i as [|i], j as [|j]; cbn in Hx, Hy; try lia.
  - injection Hx as <-. injection Hy as <-. lia.
  - injection Hx as <-. rewrite Forall_forall in Hall.
    apply Hall. eapply list_elem_of_lookup_2. exact Hy.
  - apply (IH i j); [lia | assumption | assumption].
Qed.

Lemma pick_rank_elem (sorted : list Z) (r : option Z) (d : Z) :
  pick_rank sorted r = Returns d -> d ∈ sorted.
Proof.
  unfold pick_rank. destruct r as [index|]; [|discriminate].
  destruct (_ <? 0); [discriminate|].
  destruct (sorted !! _) as [d'|] eqn:Hl; [|discriminate].
  intros [= <-]. eapply list_elem_of_lookup_2. exact Hl.
Qed.

Lemma Percentile_elem (h : store) (durations : loc) (p : float64) (d : Duration) :
  contents h durations ≠ [] ->
  fst (Percentile durations p h) = Returns d ->
  d ∈ contents h durations
  /\ MinDuration (contents h durations) <= d <= MaxDuration (contents h durations).
Proof.
  intros Hne. rewrite Percentile_unfold by assumption. cbn [fst].
  intros Hd%pick_rank_elem. rewrite merge_sort_Permutation in Hd.
  split; [exact Hd|].
  split; [now apply MinDuration_lower | now apply MaxDuration_upper].
Qed.

(** X4.  Whatever [p] is, a value [Percentile] returns for a non-empty
    slice is one of the slice's elements, so it lies between [MinDuration]
    and [MaxDuration]: nothing is interpolated. *)
Theorem Percentile_returns_element (h : store) (durations : loc) (p : float64)
    (d : Duration) :
  contents h durations ≠ [] ->
  fst (Percentile durations p h) = Returns d ->
  d ∈ contents h durations
  /\ MinDuration (contents h durations) <= d <= MaxDuration (contents h durations).
Proof. apply Percentile_elem. Qed.

Lemma Percentile_returns_element_witness :
  200 * Millisecond ∈ contents (one_slice (ms [300; 100; 200])) 1%positive
  /\ MinDuration (contents (one_slice (ms [300; 100; 200])) 1%positive)
     <= 200 * Millisecond
     <= MaxDuration (contents (one_slice (ms [300; 100; 200])) 1%positive).
Proof.
  apply (Percentile_returns_element (one_slice (ms [300; 100; 200])) 1%positive
           (lit 50 100)).
  - intros H. vm_compute in H. discriminate H.
  - vm_compute. reflexivity.
Defined.

Lemma pick_rank_index (sorted : list Z) (index : Z) :
  sorted ≠ [] -> 0 <= index ->
  exists d,
    pick_rank sorted (Some index) = Returns d
    /\ sorted !! Z.to_nat (Z.min index (len sorted - 1)) = Some d.
Proof.
  intros Hne Hi. unfold pick_rank.
  assert (Hlen : 1 <= len sorted) by (unfold len; destruct sorted; [congruence | cbn; lia]).
  replace (if index >=? len sorted then len sorted - 1 else index)
    with (Z.min index (len sorted - 1))
    by (destruct (Z.geb_spec index (len sorted)); lia).
  destruct (Z.ltb_spec (Z.min index (len sorted - 1)) 0); [lia|].
  destruct (lookup_lt_is_Some_2 sorted (Z.to_nat (Z.min index (len sorted - 1))))
    as [d Hd]; [unfold len in *; lia|].
  exists d. now rewrite Hd.
Qed.

Lemma Percentile_ranks_le (h : store) (durations : loc) (p q : float64) (i j : Z) :
  rank (len (contents h durations)) p = Some i ->
  rank (len (contents h durations)) q = Some j ->
  0 <= i <= j ->
  exists a b,
    fst (Percentile durations p h) = Returns a
    /\ fst (Percentile durations q h) = Returns b
    /\ a <= b.
Proof.
  intros Hp Hq Hij.
  destruct (decide (contents h durations = [])) as [He|Hne].
  { exists 0, 0. unfold Percentile. rewrite He. repeat split. lia. }
  rewrite !Percentile_unfold by assumption. cbn [fst]. rewrite Hp, Hq.
  set (sorted := merge_sort Z.le (contents h durations)).
  assert (Hsn : sorted ≠ []).
  { intros Hs. apply Hne. apply Permutation_nil_r.
    rewrite <- Hs. symmetry. apply merge_sort_Permutation. }
  destruct (pick_rank_index sorted i Hsn ltac:(lia)) as (a & -> & Ha).
  destruct (pick_rank_index sorted j Hsn ltac:(lia)) as (b & -> & Hb).
  exists a, b. repeat split.
  eapply (Sorted_lookup_le sorted); [apply Sorted_merge_sort, _ | | exact Ha | exact Hb].
  lia.
Qed.

(** X5.  On one slice, the percentile at a larger index is no smaller:
    when the index computed for [p] is non-negative and at most the one
    computed for [q], [Percentile] returns for both and the value for [p]
    is at most the value for [q]. *)
Theorem Percentile_monotone (h : store) (durations : loc) (p q : float64) (i j : Z) :
  rank (len (contents h durations)) p = Some i ->
  rank (len (contents h durations)) q = Some j ->
  0 <= i <= j ->
  exists a b,
    fst (Percentile durations p h) = Returns a
    /\ fst (Percentile durations q h) = Returns b
    /\ a <= b.
Proof. apply Percentile_ranks_le. Qed.

Lemma Percentile_monotone_witness :
  exists a b,
    fst (Percentile 1%positive (lit 50 100) (one_slice ms_1_to_100)) = Returns a
    /\ fst (Percentile 1%positive (lit 99 100) (one_slice ms_1_to_100)) = Returns b
    /\ a <= b.
Proof.
  apply (Percentile_monotone (one_slice ms_1_to_100) 1%positive (lit 50 100)
           (lit 99 100) 50 99).
  - vm_compute. reflexivity.
  - vm_compute. reflexivity.
  - lia.
Defined.

(** Multiplying a positive normal float by [1.0] or [-1.0] keeps its
    magnitude and gives it the sign of the unit. *)
Lemma mul_unit_r (s : bool) (m : positive) (e : Z) :
  2 ^ (prec - 1) <= Z.pos m < 2 ^ prec ->
  emin prec emax <= e <= emax - prec ->
  mul (S754_finite false m e) (S754_finite s 4503599627370496 (-52))
  = S754_finite s m e.
Proof.
  intros Hm He. unfold mul. cbn [SFmul xorb].
  assert (Hd : Z.pos (digits2_pos m) = prec)
    by (apply digits2_pos_unique; [exact Hm | unfold prec; lia]).
  rewrite Pos.mul_comm.
  assert (Hs : shr_fexp prec emax (Z.pos (4503599627370496 * m)) (e + -52) loc_Exact
               = ({| shr_m := Z.pos m; shr_r := false; shr_s := false |}, e)).
  { unfold shr_fexp.
    assert (Hdm : Zdigits2 (Z.pos (4503599627370496 * m)) = prec + 52).
    { cbn [Zdigits2]. apply digits2_pos_unique; [|unfold prec; lia].
      rewrite Pos2Z.inj_mul. unfold prec in *.
      change (2 ^ (53 + 52 - 1)) with (4503599627370496 * 2 ^ 52).
      change (2 ^ (53 + 52)) with (4503599627370496 * 2 ^ 53).
      change (2 ^ (53 - 1)) with (2 ^ 52) in Hm. lia. }
    rewrite Hdm.
    replace (fexp prec emax (prec + 52 + (e + -52)) - (e + -52)) with 52
      by (unfold fexp; lia).
    cbn -[Z.add]. f_equal. lia. }
  unfold binary_round_aux. rewrite Hs. cbn [shr_m loc_of_shr_record round_nearest_even].
  assert (Hs' : shr_fexp prec emax (Z.pos m) e loc_Exact
               = ({| shr_m := Z.pos m; shr_r := false; shr_s := false |}, e)).
  { unfold shr_fexp. cbn [Zdigits2]. rewrite Hd.
    replace (fexp prec emax (prec + e) - e) with 0 by (unfold fexp; lia).
    reflexivity. }
  rewrite Hs'. cbn [shr_m].
  destruct (Z.leb_spec e (emax - prec)); [reflexivity | lia].
Qed.

Lemma rank_minus_one (n : Z) :
  1 <= n < 2 ^ prec -> rank n (SFopp one) = Some (- n).
Proof.
  intros Hn. unfold rank. pose proof (trunc_of_int n Hn) as Ht.
  destruct (of_int_exact n Hn) as (m & e & Hof & _ & Hm & He).
  rewrite Hof in *. rewrite one_eq. cbn [SFopp negb].
  rewrite mul_unit_r; [|exact Hm | unfold emin, prec, emax in *; lia].
  unfold to_int. cbn [trunc] in *. injection Ht as Ht. rewrite Ht.
  replace (in_int64 (- n)) with true; [reflexivity|].
  symmetry. unfold in_int64, min_int64, max_int64, prec in *.
  apply andb_true_intro. split; apply Z.leb_le; lia.
Qed.

(** X6.  [Percentile] does not check [p]: when the index computed from it
    is negative, indexing the sorted copy panics.  This is so for
    [p = -1.0] on every non-empty slice. *)
Theorem Percentile_negative_index_panics (h : store) (durations : loc) :
  contents h durations ≠ [] ->
  (forall (p : float64) (index : Z),
      rank (len (contents h durations)) p = Some index -> index < 0 ->
      fst (Percentile durations p h) = Panics)
  /\ (len (contents h durations) < 2 ^ 53 ->
      fst (Percentile durations (SFopp one) h) = Panics).
Proof.
  intros Hne.
  assert (Hlen : 1 <= len (contents h durations))
    by (unfold len; destruct (contents h durations); [congruence | cbn; lia]).
  assert (Hgen : forall p index,
             rank (len (contents h durations)) p = Some index -> index < 0 ->
             fst (Percentile durations p h) = Panics).
  { intros p index Hr Hneg. rewrite Percentile_unfold by assumption. cbn [fst].
    rewrite Hr. unfold pick_rank.
    assert (Hsl : len (merge_sort Z.le (contents h durations)) = len (contents h durations))
      by (unfold len; now rewrite merge_sort_length).
    rewrite Hsl. destruct (Z.geb_spec index (len (contents h durations))); [lia|].
    destruct (Z.ltb_spec index 0); [reflexivity | lia]. }
  split; [exact Hgen|].
  intros Hsmall. apply (Hgen _ (- len (contents h durations))); [|lia].
  apply rank_minus_one. unfold prec. lia.
Qed.

Lemma Percentile_negative_index_panics_witness :
  (forall (p : float64) (index : Z),
      rank (len (contents (one_slice (ms [300; 100; 200])) 1%positive)) p = Some index ->
      index < 0 ->
      fst (Percentile 1%positive p (one_slice (ms [300; 100; 200]))) = Panics)
  /\ (len (contents (one_slice (ms [300; 100; 200])) 1%positive) < 2 ^ 53 ->
      fst (Percentile 1%positive (SFopp one) (one_slice (ms [300; 100; 200]))) = Panics).
Proof.
  apply (Percentile_negative_index_panics (one_slice (ms [300; 100; 200])) 1%positive).
  intros H. vm_compute in H. discriminate H.
Defined.

(** [Percentile] at [-1.0] on [300ms; 100ms; 200ms]. *)
Example Percentile_minus_one_of_three :
  Percentile_of (ms [300; 100; 200]) (SFopp one) = Panics.
Proof. vm_compute. reflexivity. Qed.

End StatsMore.


(** ** The generator outside its normal use *)

Module GeneratorMore.
Import GoInt Float64 Generator GeneratorFacts Sample.
Import GeneratorSpec GeneratorLaws.
Local Open Scope Z_scope.

Section WithRuntime.
Context {RT : Runtime}.

Lemma Generate_loop_stuck (fuel : nat) :
  forall (sent : list (list Event)) (g : Generator) (c : Clock),
    batchSize g = 0 ->
    current g < totalEvents g ->
    is_int64 (totalEvents g - current g) ->
    is_int64 (current g) ->
    fst (Generate_loop fuel sent (g, c)) = OutOfFuel.
Proof.
  induction fuel as [|fuel IH]; intros sent g c Hb Hlt Hrem Hcur;
    cbn [Generate_loop fst].
  - destruct (Z.ltb_spec (current g) (totalEvents g)); [reflexivity | lia].
  - destruct (Z.ltb_spec (current g) (totalEvents g)); [|lia].
    unfold sub64. rewrite wrap64_id by assumption. rewrite Hb.
    destruct (Z.ltb_spec (totalEvents g - current g) 0); [lia|].
    cbn [Z.ltb Z.compare Z.to_nat repeatM]. unfold ret. cbn [advance].
    apply IH; cbn [batchSize current totalEvents]; unfold add64;
      rewrite ?Z.add_0_r, ?wrap64_id by assumption; assumption.
Qed.

(** X7.  A generator made with a batch size of zero for a positive number
    of events never finishes: each round of the loop sends an empty batch
    and leaves the cursor where it was, so no amount of fuel lets
    [Generate] return. *)
Theorem Generate_zero_batch_size_never_returns
    (totalCount : Z) (clk : Clock) (fuel : nat) :
  1 <= totalCount <= max_int64 ->
  fst (Generate fuel (New totalCount 0 clk)) = OutOfFuel.
Proof.
  intros Ht. unfold New, bind, ret, Generate.
  destruct (time_Now clk) as [t c1].
  apply Generate_loop_stuck; cbn [batchSize current totalEvents];
    unfold is_int64, min_int64, max_int64 in *; lia.
Qed.

(** X8.  With a negative batch size and something to generate, the first
    round of the loop panics in [make]: no batch is sent. *)
Theorem Generate_negative_batch_size_panics
    (totalCount batchSize : Z) (clk : Clock) (fuel : nat) :
  1 <= totalCount <= max_int64 ->
  batchSize < 0 ->
  fst (Generate (S fuel) (New totalCount batchSize clk)) = Panics.
Proof.
  intros Ht Hb. unfold New, bind, ret, Generate.
  destruct (time_Now clk) as [t c1].
  cbn [Generate_loop fst totalEvents Generator.batchSize current].
  destruct (Z.ltb_spec 0 totalCount); [|lia].
  unfold sub64. rewrite Z.sub_0_r.
  rewrite wrap64_id by (unfold is_int64, min_int64, max_int64 in *; lia).
  destruct (Z.ltb_spec totalCount batchSize); [lia|].
  destruct (Z.ltb_spec batchSize 0); [reflexivity | lia].
Qed.

Lemma Generate_loop_exhausts (fuel : nat) :
  forall (sent : list (list Event)) (s : Generator * Clock) bs s',
    Generate_loop fuel sent s = (Returns bs, s') ->
    totalEvents (fst s') <= current (fst s').
Proof.
  induction fuel as [|fuel IH]; intros sent s bs s' Hrun; cbn [Generate_loop] in Hrun.
  - destruct (Z.ltb_spec (current (fst s)) (totalEvents (fst s))); [discriminate|].
    now injection Hrun as _ <-.
  - destruct (Z.ltb_spec (current (fst s)) (totalEvents (fst s)));
      [|now injection Hrun as _ <-].
    destruct (_ <? 0); [discriminate|].
    destruct (repeatM _ generateEvent s) as [batch s1].
    destruct (advance _ s1) as [u s2].
    eapply IH. exact Hrun.
Qed.

(** X9.  A generator is good for one run: once [Generate] has returned,
    the cursor has reached [totalEvents], and [Generate] on the same
    generator returns at once with no batch and no draw from the random
    source or the clock.  A fresh generator for a count of zero or less is
    in that state from the start. *)
Theorem Generate_again_returns_nothing
    (fuel fuel' : nat) (s : Generator * Clock) (batches : list (list Event)) :
  fst (Generate fuel s) = Returns batches ->
  Generate fuel' (snd (Generate fuel s)) = (Returns [], snd (Generate fuel s))
  /\ (forall totalCount batchSize clk,
        totalCount <= 0 ->
        fst (Generate fuel' (New totalCount batchSize clk)) = Returns []).
Proof.
  intros Hrun. split.
  - unfold Generate in *. destruct (Generate_loop fuel [] s) as [o s'] eqn:Hg.
    cbn [fst snd] in *. subst o.
    apply Generate_loop_exhausts in Hg.
    destruct fuel'; cbn [Generate_loop];
      destruct (Z.ltb_spec (current (fst s')) (totalEvents (fst s'))); try lia;
      reflexivity.
  - intros totalCount batchSize clk Ht. unfold New, bind, ret, Generate.
    destruct (time_Now clk) as [t c1].
    destruct fuel'; cbn [Generate_loop fst totalEvents current];
      destruct (Z.ltb_spec 0 totalCount); try lia; reflexivity.
Qed.

End WithRuntime.

Lemma Generate_zero_batch_size_never_returns_witness :
  fst (Generate (RT := sample_runtime) 1000 (New 5 0 clock0)) = OutOfFuel.
Proof.
  apply (Generate_zero_batch_size_never_returns (RT := sample_runtime) 5 clock0 1000).
  unfold max_int64. lia.
Defined.

Lemma Generate_negative_batch_size_panics_witness :
  fst (Generate (RT := sample_runtime) 1 (New 5 (-2) clock0)) = Panics.
Proof.
  apply (Generate_negative_batch_size_panics (RT := sample_runtime) 5 (-2) clock0 0);
    unfold max_int64; lia.
Defined.

Lemma sample_generate :
  fst (Generate (RT := sample_runtime) 5 (New 5 2 clock0)) = Returns sample_batches.
Proof. vm_compute. reflexivity. Defined.

Lemma Generate_again_returns_nothing_witness :
  Generate (RT := sample_runtime) 7
    (snd (Generate (RT := sample_runtime) 5 (New 5 2 clock0)))
  = (Returns [], snd (Generate (RT := sample_runtime) 5 (New 5 2 clock0)))
  /\ (forall totalCount batchSize clk,
        totalCount <= 0 ->
        fst (Generate (RT := sample_runtime) 7 (New totalCount batchSize clk))
        = Returns []).
Proof.
  exact (Generate_again_returns_nothing (RT := sample_runtime) 5 7 (New 5 2 clock0)
           sample_batches sample_generate).
Defined.

(** *** What the random source is relied on for *)

Lemma sample_draws_in_range : draws_in_range sample_runtime.
Proof. split; intros n rs Hn; cbn; apply Z.mod_pos_bound; lia. Qed.

Lemma string_length_list (s : string) :
  String.length s = length (String.list_ascii_of_string s).
Proof. induction s as [|a s IH]; [reflexivity|]. cbn. now rewrite IH. Qed.

Lemma charset_alnum (k : nat) :
  (k < 62)%nat ->
  is_alnum (default Ascii.zero (String.get k charset)) = true.
Proof.
  intros Hk.
  assert (Hall : forallb (fun k => is_alnum (default Ascii.zero (String.get k charset)))
                   (seq 0 62) = true) by (vm_compute; reflexivity).
  rewrite forallb_forall in Hall. apply Hall. apply in_seq. lia.
Qed.

Section WithRuntime.
Context {RT : Runtime}.

(** X10.  When [rand.Intn] keeps to its range, [randomString] of a
    non-negative length returns a string of exactly that many characters,
    each an ASCII letter or digit. *)
Theorem randomString_alphanumeric (length : Z) (s : Generator * Clock) :
  draws_in_range RT ->
  0 <= length ->
  String.length (fst (randomString length s)) = Z.to_nat length
  /\ Forall (fun a => is_alnum a = true)
       (String.list_ascii_of_string (fst (randomString length s))).
Proof.
  intros [HIntn _] Hlen. unfold randomString, bind, ret.
  set (body := fun s0 : Generator * Clock =>
         let '(a, s') := with_rand (rand_Intn (Z.of_nat (String.length charset))) s0 in
         (default Ascii.zero (String.get (Z.to_nat a) charset), s')).
  pose proof (repeatM_length (Z.to_nat length) body s) as Hl.
  pose proof (repeatM_Forall (fun a => is_alnum a = true) (Z.to_nat length) body s) as Hf.
  destruct (repeatM (Z.to_nat length) body s) as [l s1]. cbn [fst] in *.
  rewrite string_length_list, String.list_ascii_of_string_of_list_ascii.
  split; [exact Hl|]. apply Hf.
  intros [g c]. unfold body, with_rand.
  pose proof (HIntn (Z.of_nat (String.length charset)) (rand g) ltac:(cbn; lia)) as Hk.
  destruct (rand_Intn (Z.of_nat (String.length charset)) (rand g)) as [k r1].
  cbn [fst] in *. apply charset_alnum. change (String.length charset) with 62%nat in Hk.
  lia.
Qed.

Lemma generateEvent_well_formed :
  draws_in_range RT ->
  yields (fun e => EventType e ∈ eventTypes /\ 0 <= UserID e < 1000000) generateEvent.
Proof.
  intros [HIntn HInt63n]. unfold generateEvent.
  do 6 (apply yields_bind; intros ?).
  apply yields_bind_rand; intros rs1.
  apply yields_bind_rand; intros rs2.
  apply yields_bind; intros ?.
  apply yields_ret. cbn [EventType UserID]. split.
  - change (len eventTypes) with 10.
    pose proof (HIntn 10 rs2 ltac:(lia)) as Hk.
    destruct (lookup_lt_is_Some_2 eventTypes (Z.to_nat (fst (rand_Intn 10 rs2))))
      as [ty Hty]; [cbn; lia|].
    rewrite Hty. cbn [default]. eapply list_elem_of_lookup_2. exact Hty.
  - apply HInt63n. lia.
Qed.

(** X11.  When [rand.Intn] and [rand.Int63n] keep to their ranges, every
    event of every batch of a run has one of the ten event types and a user
    ID in [[0, 1000000)]. *)
Theorem generated_events_well_formed
    (fuel : nat) (s : Generator * Clock) (batches : list (list Event)) :
  draws_in_range RT ->
  fst (Generate fuel s) = Returns batches ->
  Forall (fun e => EventType e ∈ eventTypes /\ 0 <= UserID e < 1000000)
    (concat batches).
Proof.
  intros Hlaw Hrun. destruct (Generate fuel s) as [o s'] eqn:Hgen.
  cbn [fst] in Hrun. subst o.
  apply Forall_concat.
  exact (Generate_loop_Forall _ fuel (generateEvent_well_formed Hlaw) [] s batches s'
           ltac:(constructor) Hgen).
Qed.

End WithRuntime.

Lemma randomString_alphanumeric_witness :
  String.length (fst (randomString (RT := sample_runtime) 32
                        (fst (New (RT := sample_runtime) 5 2 clock0), clock0)))
  = Z.to_nat 32
  /\ Forall (fun a => is_alnum a = true)
       (String.list_ascii_of_string
          (fst (randomString (RT := sample_runtime) 32
                  (fst (New (RT := sample_runtime) 5 2 clock0), clock0)))).
Proof.
  apply (randomString_alphanumeric (RT := sample_runtime) 32).
  - exact sample_draws_in_range.
  - lia.
Defined.

Lemma generated_events_well_formed_witness :
  Forall (fun e => EventType e ∈ eventTypes /\ 0 <= UserID e < 1000000)
    (concat sample_batches).
Proof.
  exact (generated_events_well_formed (RT := sample_runtime) 5 (New 5 2 clock0)
           sample_batches sample_draws_in_range sample_generate).
Defined.

(** A session string drawn under [sample_runtime]. *)
Example randomString_sample :
  String.length (fst (randomString (RT := sample_runtime) 32
                        (fst (New (RT := sample_runtime) 5 2 clock0), clock0))) = 32%nat.
Proof. vm_compute. reflexivity. Qed.

End GeneratorMore.


(** ** The statistics of a query scenario *)

Module QueryMore.
Import GoInt Float64 Float64Facts Float64More Stats StatsFacts StatsMore.
Import Generator GeneratorFacts Benchmark QueryFacts Sample.
Import StatsSpec StatsSums GeneratorSpec BenchmarkSpec QuerySpec.
Local Open Scope Z_scope.

Lemma one_slice_contents (ds : list Duration) :
  contents {[ 1%positive := ds ]} 1%positive = ds.
Proof. unfold contents. now rewrite lookup_singleton_eq. Qed.

(** The three percentiles of a non-empty sample are returned, in order,
    between the smallest and the largest duration. *)
Lemma percentiles_ordered (ds : list Duration) :
  ds ≠ [] -> len ds < 2 ^ 53 ->
  exists d50 d95 d99,
    Percentile_of ds p50 = Returns d50
    /\ Percentile_of ds p95 = Returns d95
    /\ Percentile_of ds p99 = Returns d99
    /\ MinDuration ds <= d50 /\ d50 <= d95 /\ d95 <= d99 /\ d99 <= MaxDuration ds.
Proof.
  intros Hne Hlen.
  assert (Hpos : 1 <= len ds) by (unfold len; destruct ds; [congruence | cbn; lia]).
  destruct (ranks_ordered (len ds)) as (i & j & k & Hi & Hj & Hk & Hij & Hjk & _).
  { unfold prec. lia. }
  unfold Percentile_of.
  pose proof (one_slice_contents ds) as Hc.
  destruct (Percentile_ranks_le {[ 1%positive := ds ]} 1%positive p50 p95 i j)
    as (d50 & d95 & H50 & H95 & Hle1); rewrite ?Hc; try assumption.
  destruct (Percentile_ranks_le {[ 1%positive := ds ]} 1%positive p95 p99 j k)
    as (d95' & d99 & H95' & H99 & Hle2); rewrite ?Hc; try assumption; try lia.
  rewrite H95 in H95'. injection H95' as <-.
  destruct (Percentile_elem {[ 1%positive := ds ]} 1%positive p50 d50)
    as (_ & Hlo & _); rewrite ?Hc; try assumption.
  destruct (Percentile_elem {[ 1%positive := ds ]} 1%positive p99 d99)
    as (_ & _ & Hhi); rewrite ?Hc; try assumption.
  rewrite Hc in Hlo, Hhi.
  exists d50, d95, d99. split_and!; assumption.
Qed.

Section WithRepository.
Context {RT : Runtime} {Repo : Type} {RP : Repository Repo}.

Lemma runQuery_ordered (r : Runner) (name : string) (start end_ : Time) (w : World) :
  0 <= QueryIterations r < 2 ^ 53 ->
  exists q : QueryResult.t,
    fst (runQuery r name start end_ w) = Returns q
    /\ QueryResult.QueryName q = name
    /\ ordered_latencies q
    /\ average_within q.
Proof.
  intros HQ. unfold runQuery, bind.
  destruct (repeatM _ (warmup_call start end_) w) as [l w1].
  unfold measureQuery.
  destruct (measure_loop_spec (Z.to_nat (QueryIterations r)) start end_ [] 0 w1)
    as (es & Hes & _ & Hd & _);
    [lia | unfold max_int64; assert (2 ^ 53 < 2 ^ 63) by (cbn; lia); lia |].
  destruct (measure_loop _ start end_ [] 0 w1) as [[ds errs] w2].
  cbn [fst snd] in *. change (len []) with 0 in Hd.
  pose proof (successes_failures es) as (Hs0 & Hf0 & Hsf).
  unfold ordered_latencies, average_within.
  destruct (Z.eqb_spec (len ds) 0) as [Hz|Hnz].
  - eexists. unfold ret. cbn [fst]. split; [reflexivity|].
    cbn [QueryResult.QueryName QueryResult.Iterations QueryResult.AvgDuration
         QueryResult.MinDuration QueryResult.MaxDuration QueryResult.P50Duration
         QueryResult.P95Duration QueryResult.P99Duration].
    split_and!; try reflexivity; lia.
  - assert (Hne : ds ≠ []) by (intros ->; now apply Hnz).
    assert (Hlt : len ds < 2 ^ 53) by (unfold len in *; lia).
    destruct (percentiles_ordered ds Hne Hlt)
      as (d50 & d95 & d99 & -> & -> & -> & H1 & H2 & H3 & H4).
    eexists. unfold ret. cbn [fst]. split; [reflexivity|].
    cbn [QueryResult.QueryName QueryResult.Iterations QueryResult.AvgDuration
         QueryResult.MinDuration QueryResult.MaxDuration QueryResult.P50Duration
         QueryResult.P95Duration QueryResult.P99Duration].
    split_and!; try reflexivity; try assumption.
    intros Hmin Hmax.
    apply AvgDuration_exact; [assumption|].
    assert (Hall : Forall (fun d => MinDuration ds <= d <= MaxDuration ds) ds).
    { apply Forall_forall. intros d Hin.
      split; [now apply MinDuration_lower | now apply MaxDuration_upper]. }
    pose proof (sum_Z_bounds ds _ _ Hall) as Hb.
    unfold is_int64 in *. lia.
Qed.

(** X12.  In every result of [runQuery] the latency figures are in order:
    [MinDuration <= P50Duration <= P95Duration <= P99Duration <=
    MaxDuration]; and [AvgDuration] lies between the smallest and the
    largest when their products with the number of samples fit in an
    [int64], so that the sum has not wrapped. *)
Theorem runQuery_ordered_statistics
    (r : Runner) (name : string) (start end_ : Time) (w : World) :
  0 <= QueryIterations r < 2 ^ 53 ->
  exists q : QueryResult.t,
    fst (runQuery r name start end_ w) = Returns q
    /\ ordered_latencies q
    /\ average_within q.
Proof.
  intros HQ. destruct (runQuery_ordered r name start end_ w HQ) as (q & Hq & _ & H).
  now exists q.
Qed.

Lemma run_scenarios_entries (r : Runner) (now : Time) (ss : list (string * Time)) :
  0 <= QueryIterations r < 2 ^ 53 ->
  forall (results : gmap string QueryResult.t) (w : World),
    map_Forall (fun k q => QueryResult.QueryName q = k /\ ordered_latencies q
                           /\ average_within q) results ->
    exists results',
      fst (run_scenarios r now ss results w) = Returns results'
      /\ map_Forall (fun k q => QueryResult.QueryName q = k /\ ordered_latencies q
                                /\ average_within q) results'.
Proof.
  intros HQ. induction ss as [|[name start] ss IH]; intros results w Hall.
  - now exists results.
  - cbn [run_scenarios]. unfold bind.
    destruct (runQuery_ordered r name start now w HQ) as (q & Hret & Hname & Hord & Havg).
    destruct (runQuery r name start now w) as [o w1]. cbn [fst] in Hret. subst o.
    apply IH. apply map_Forall_insert_2; [now split_and!|assumption].
Qed.

(** X13.  Every entry of the mapping [RunQueries] returns carries its own
    key as [QueryName], and its latency figures are in order. *)
Theorem RunQueries_entries_named_and_ordered (r : Runner) (w : World) :
  0 <= QueryIterations r < 2 ^ 53 ->
  exists results : gmap string QueryResult.t,
    fst (RunQueries r w) = Returns results
    /\ (forall k q, results !! k = Some q ->
          QueryResult.QueryName q = k /\ ordered_latencies q /\ average_within q).
Proof.
  intros HQ. unfold RunQueries, bind, on_clock.
  destruct (time_Now (clock w)) as [now c1].
  destruct (run_scenarios_entries r now (scenarios now) HQ ∅
              {| clock := c1; repo := repo w; history := history w |})
    as (results & Hret & Hall); [apply map_Forall_empty|].
  exists results. split; [exact Hret|]. intros k q Hk. exact (Hall k q Hk).
Qed.

End WithRepository.

Lemma runQuery_ordered_statistics_witness :
  exists q : QueryResult.t,
    fst (runQuery (RP := every_third_query_fails) sample_runner "1_hour"
           (clock0 - Hour) clock0 sample_world) = Returns q
    /\ ordered_latencies q
    /\ average_within q.
Proof.
  apply (runQuery_ordered_statistics (RP := every_third_query_fails) sample_runner).
  cbn. lia.
Defined.

Lemma RunQueries_entries_named_and_ordered_witness :
  exists results : gmap string QueryResult.t,
    fst (RunQueries (RP := every_third_query_fails) sample_runner sample_world)
    = Returns results
    /\ (forall k q, results !! k = Some q ->
          QueryResult.QueryName q = k /\ ordered_latencies q /\ average_within q).
Proof.
  apply (RunQueries_entries_named_and_ordered (RP := every_third_query_fails)
           sample_runner sample_world).
  cbn. lia.
Defined.

End QueryMore.


(** ** The insert path: batches, workers and the throughput figure *)

Module InsertMore.
Import GoInt Float64 Float64Facts Float64Real Generator GeneratorFacts Benchmark.
Import SecondsFacts QueryFacts InsertFacts Sample.
Import GeneratorSpec BenchmarkSpec Float64Value MoreSamples.
Local Open Scope Z_scope.

Lemma Seconds_zero : Seconds 0 = S754_zero false.
Proof. reflexivity. Qed.

(** Dividing a count by a number of seconds. *)
Lemma div_count_cases (x d : Z) :
  0 <= x < 2 ^ 53 -> 0 <= d <= max_int64 ->
  (d = 0 -> x = 0 -> div (of_int x) (Seconds d) = S754_nan)
  /\ (d = 0 -> 0 < x -> div (of_int x) (Seconds d) = S754_infinity false)
  /\ (0 < d -> x = 0 -> div (of_int x) (Seconds d) = S754_zero false)
  /\ (0 < d -> 0 < x ->
      exists m e, div (of_int x) (Seconds d) = S754_finite false m e
                  /\ 2 ^ (prec - 1) <= Z.pos m < 2 ^ prec).
Proof.
  intros Hx Hd. split_and!.
  - intros -> ->. reflexivity.
  - intros -> Hpos. rewrite Seconds_zero.
    destruct (of_int_exact x) as (m & e & -> & _); [unfold prec; lia|]. reflexivity.
  - intros Hpos ->.
    destruct (Seconds_normal d) as (m & e & -> & _); [lia|]. reflexivity.
  - intros Hpos Hxpos.
    destruct (Seconds_normal d) as (m & e & -> & Hm & He); [lia|].
    destruct (of_int_exact x) as (mx & ex & -> & _ & Hmx & Hex); [unfold prec; lia|].
    unfold prec in Hex.
    destruct (div_upper mx m ex e Hmx Hm ltac:(lia)) as (mq & eq & -> & Hq & _).
    now exists mq, eq.
Qed.

Section WithRepository.
Context {RT : Runtime} {Repo : Type} {RP : Repository Repo}.

Lemma parallelInsert_batches (r : Runner) (count logInterval : Z) (fuel : nat)
    (sched : list nat) (w : World) (inserted errors : Z) :
  0 <= count <= max_int64 ->
  1 <= BatchSize r <= max_int64 ->
  0 < Workers r ->
  fst (parallelInsert r count logInterval fuel sched w) = Returns (inserted, errors) ->
  exists calls batches,
    fst (Generate fuel (New count (BatchSize r) (clock w))) = Returns batches
    /\ insert_calls (history (snd (parallelInsert r count logInterval fuel sched w)))
       = insert_calls (history w) ++ calls
    /\ fst <$> calls ≡ₚ batches
    /\ len calls = (count + BatchSize r - 1) / BatchSize r.
Proof.
  intros Hc Hb Hw. unfold parallelInsert, bind, on_clock.
  pose proof (Generate_returned_sizes fuel count (BatchSize r) (clock w)) as Hsizes.
  assert (Hchunks : forall bs,
             fst (Generate fuel (New count (BatchSize r) (clock w))) = Returns bs ->
             map len bs = chunk_sizes count (BatchSize r)).
  { intros bs. unfold New, bind, ret, Generate. destruct (time_Now (clock w)) as [t c1].
    destruct (Generate_loop_cases fuel []
                {| totalEvents := count; batchSize := BatchSize r; current := 0;
                   rand := rand_NewSource t |} c1)
      as [(l & s' & Hrun & Hmap) | [Hout _]];
      cbn [totalEvents batchSize current] in *; try lia.
    - rewrite Hrun. cbn [fst app]. intros [= <-]. now rewrite Z.sub_0_r in Hmap.
    - rewrite Hout. discriminate. }
  destruct (New count (BatchSize r) (clock w)) as [gen c1] eqn:HNew.
  destruct (mul64 (Workers r) 2 <? 0); [discriminate|].
  destruct (Z.leb_spec (Workers r) 0) as [Hw0|Hw1]; [lia|].
  cbn [clock repo history].
  destruct (Generate fuel (gen, c1)) as [out [g' c2]].
  destruct out as [bs| | |]; try discriminate.
  destruct (Hsizes bs Hc Hb eq_refl) as [Hall Hsum].
  specialize (Hchunks bs eq_refl).
  assert (Hpos : Forall (fun b => 1 <= len b) bs)
    by (eapply Forall_impl; [exact Hall | cbn; intros; lia]).
  pose proof (run_pool_inv bs (history w) (Z.to_nat (Workers r)) count logInterval sched
                Hpos ltac:(unfold total_len; lia)
                {| batches := bs; workers := replicate (Z.to_nat (Workers r)) Receiving;
                   totalInserted := 0; totalErrors := 0 |}
                {| clock := c2; repo := repo w; history := history w |}) as Hrun.
  destruct (run_pool count logInterval sched _ _) as [p w1].
  cbn [fst snd] in Hrun.
  destruct (all_left p) eqn:Hleft; [|discriminate].
  cbn [fst snd]. intros [= <- <-].
  destruct Hrun as (calls & Hh & Hins & Herr & Hperm & Hnw & Hne).
  { exists []. cbn [batches workers totalInserted totalErrors history].
    rewrite app_nil_r, in_flight_replicate, length_replicate.
    split_and!; try reflexivity.
    intros _. apply Forall_replicate. discriminate. }
  apply all_left_spec in Hleft.
  assert (Hempty : batches p = []).
  { destruct (batches p) as [|b rest] eqn:Eb; [reflexivity|].
    specialize (Hne ltac:(discriminate)).
    destruct (workers p) as [|st ws]; [cbn in Hnw; lia|].
    apply Forall_cons in Hleft as [-> _]. apply Forall_cons in Hne as [Hst _].
    now contradict Hst. }
  rewrite Hempty, in_flight_all_left, !app_nil_r in Hperm by assumption.
  exists calls, bs. split_and!; try assumption; try reflexivity.
  rewrite <- (chunk_sizes_length count (BatchSize r)), <- Hchunks by lia.
  unfold len. rewrite length_map, <- (Permutation_length Hperm), length_fmap.
  reflexivity.
Qed.

(** X14.  With at least one worker, [parallelInsert] hands every batch the
    generator produced to [InsertBatch] exactly once, whatever the
    interleaving of the workers: the batches of the calls are those of the
    generator up to order, so none is lost, none is tried twice, and
    [ceil(count / BatchSize)] calls are made. *)
Theorem parallelInsert_every_batch_once (r : Runner) (count logInterval : Z)
    (fuel : nat) (sched : list nat) (w : World) (inserted errors : Z) :
  0 <= count <= max_int64 ->
  1 <= BatchSize r <= max_int64 ->
  0 < Workers r ->
  fst (parallelInsert r count logInterval fuel sched w) = Returns (inserted, errors) ->
  exists calls batches,
    fst (Generate fuel (New count (BatchSize r) (clock w))) = Returns batches
    /\ insert_calls (history (snd (parallelInsert r count logInterval fuel sched w)))
       = insert_calls (history w) ++ calls
    /\ fst <$> calls ≡ₚ batches
    /\ len calls = (count + BatchSize r - 1) / BatchSize r.
Proof. apply parallelInsert_batches. Qed.

(** X15.  The throughput figure at the edges.  When the clock has not
    advanced over the run the division is by zero seconds: [Throughput] is
    NaN if nothing was inserted and +Inf otherwise.  When time has passed
    it is zero if nothing was inserted and a positive normal float
    otherwise. *)
Theorem RunInsert_throughput_cases
    (r : Runner) (fuel : nat) (sched : list nat) (w : World) (res : InsertResult.t) :
  0 <= EventCount r < 2 ^ 53 ->
  1 <= BatchSize r <= max_int64 ->
  fst (RunInsert r fuel sched w) = Returns res ->
  exists calls,
    insert_calls (history (snd (RunInsert r fuel sched w)))
    = insert_calls (history w) ++ calls
    /\ (InsertResult.Duration res = 0 -> inserted_events calls = 0 ->
        InsertResult.Throughput res = S754_nan)
    /\ (InsertResult.Duration res = 0 -> 0 < inserted_events calls ->
        InsertResult.Throughput res = S754_infinity false)
    /\ (0 < InsertResult.Duration res -> inserted_events calls = 0 ->
        InsertResult.Throughput res = S754_zero false)
    /\ (0 < InsertResult.Duration res -> 0 < inserted_events calls ->
        exists m e, InsertResult.Throughput res = S754_finite false m e
                    /\ 2 ^ (prec - 1) <= Z.pos m < 2 ^ prec).
Proof.
  intros Hc Hb. unfold RunInsert, bind, on_clock.
  assert (Hmax : 2 ^ 53 <= max_int64) by (unfold max_int64; cbn; lia).
  destruct (time_Now (clock w)) as [start c1].
  pose proof (parallelInsert_spec r (EventCount r) (mul64 (BatchSize r) 10) fuel sched
                {| clock := c1; repo := repo w; history := history w |}) as Hspec.
  destruct (parallelInsert r (EventCount r) (mul64 (BatchSize r) 10) fuel sched _)
    as [out w1].
  destruct out as [[inserted errors]| | |]; try discriminate.
  destruct (Hspec inserted errors ltac:(lia) Hb eq_refl)
    as (calls & Hh & -> & -> & Hall & Hle & _).
  unfold time_Since, bind, on_clock, ret.
  destruct (time_Now (clock w1)) as [t c2]. cbn [fst snd history]. intros [= <-].
  cbn [InsertResult.Throughput InsertResult.Duration].
  exists calls. cbn [snd history] in Hh. split; [exact Hh|].
  pose proof (counts_nonneg calls) as (Hin & Hfe & _).
  destruct (Z_le_gt_dec 0 (time_Sub t start)) as [Hd|Hd].
  - apply div_count_cases; [lia|].
    split; [lia | unfold time_Sub, max_int64, min_int64; lia].
  - split_and!; intros; lia.
Qed.


End WithRepository.

Lemma test_insert :
  fst (parallelInsert (RP := every_second_fails) test_runner 100 100 100 test_schedule
         test_world) = Returns (50, 5).
Proof. vm_compute. reflexivity. Defined.

Lemma parallelInsert_every_batch_once_witness :
  exists calls batches,
    fst (Generate (RT := sample_runtime) 100
           (New 100 (BatchSize test_runner) (clock test_world))) = Returns batches
    /\ insert_calls (history (snd (parallelInsert (RP := every_second_fails) test_runner
                                     100 100 100 test_schedule test_world)))
       = insert_calls (history test_world) ++ calls
    /\ fst <$> calls ≡ₚ batches
    /\ len calls = (100 + BatchSize test_runner - 1) / BatchSize test_runner.
Proof.
  apply (parallelInsert_every_batch_once (RP := every_second_fails) test_runner 100 100
           100 test_schedule test_world 50 5).
  - unfold max_int64. lia.
  - cbn. unfold max_int64. lia.
  - cbn. lia.
  - exact test_insert.
Defined.

Lemma test_insert_run :
  fst (RunInsert (RP := every_second_fails) test_runner 100 test_schedule test_world)
  = Returns test_result.
Proof. vm_compute. reflexivity. Defined.

Lemma RunInsert_throughput_cases_witness :
  exists calls,
    insert_calls (history (snd (RunInsert (RP := every_second_fails) test_runner 100
                                  test_schedule test_world)))
    = insert_calls (history test_world) ++ calls
    /\ (InsertResult.Duration test_result = 0 -> inserted_events calls = 0 ->
        InsertResult.Throughput test_result = S754_nan)
    /\ (InsertResult.Duration test_result = 0 -> 0 < inserted_events calls ->
        InsertResult.Throughput test_result = S754_infinity false)
    /\ (0 < InsertResult.Duration test_result -> inserted_events calls = 0 ->
        InsertResult.Throughput test_result = S754_zero false)
    /\ (0 < InsertResult.Duration test_result -> 0 < inserted_events calls ->
        exists m e, InsertResult.Throughput test_result = S754_finite false m e
                    /\ 2 ^ (prec - 1) <= Z.pos m < 2 ^ prec).
Proof.
  apply (RunInsert_throughput_cases (RP := every_second_fails) test_runner 100
           test_schedule test_world test_result).
  - cbn. lia.
  - cbn. unfold max_int64. lia.
  - exact test_insert_run.
Defined.

(** On a clock that stands still a run that inserted events reports an
    infinite throughput. *)
Example RunInsert_on_a_stopped_clock :
  match fst (RunInsert (RT := stuck_runtime) (RP := every_second_fails) test_runner 100
               test_schedule stopped_world) with
  | Returns res => (InsertResult.Duration res, InsertResult.Throughput res)
  | _ => (1, zero)
  end = (0, S754_infinity false).
Proof. vm_compute. reflexivity. Qed.

End InsertMore.


(** ** The orchestrator: finding a service and waiting for it *)

Module OrchestratorMore.
Import GoInt Generator Orchestrator OrchestratorFacts SampleServices.
Import OrchestratorSpec MoreServices.
Local Open Scope Z_scope.

(** X17.  [ServiceByName] finds a service exactly when the name is one of
    the four of [DefaultServices], whose names are pairwise distinct, and
    the service it returns is the one of that list with that name. *)
Theorem ServiceByName_finds_exactly (name : string) :
  (forall svc, ServiceByName name = Some svc
               <-> svc ∈ DefaultServices /\ Name svc = name)
  /\ (ServiceByName name = None <-> name ∉ Name <$> DefaultServices)
  /\ NoDup (Name <$> DefaultServices).
Proof.
  split_and!.
  - intros svc. unfold ServiceByName. split.
    + intros Hf. apply find_some in Hf as [Hin Heq].
      apply String.eqb_eq in Heq. split; [now apply list_elem_of_In | exact Heq].
    + intros [Hin <-]. unfold DefaultServices in *.
      repeat (apply elem_of_cons in Hin as [->|Hin]; [reflexivity|]).
      now apply elem_of_nil in Hin.
  - unfold ServiceByName. split.
    + intros Hnone Hin. apply list_elem_of_fmap in Hin as (svc & -> & Hin).
      apply list_elem_of_In in Hin.
      pose proof (find_none _ _ Hnone svc Hin) as Hneq. cbn in Hneq.
      now rewrite String.eqb_refl in Hneq.
    + intros Hnot.
      destruct (find _ DefaultServices) as [svc|] eqn:Hf; [|reflexivity].
      apply find_some in Hf as [Hin Heq]. apply String.eqb_eq in Heq.
      exfalso. apply Hnot. apply list_elem_of_fmap. exists svc.
      split; [now symmetry | now apply list_elem_of_In].
  - cbn. repeat (apply NoDup_cons; split;
      [intros Hin; repeat (apply elem_of_cons in Hin as [Hin|Hin]; [discriminate|]);
       now apply elem_of_nil in Hin|]).
    apply NoDup_nil_2.
Qed.

(** *** What a return of [WaitReady] stands for *)

Lemma all_failed_nil (s : Surroundings) : all_failed s [].
Proof. intros k t Hk. discriminate. Qed.

Lemma all_failed_snoc (s : Surroundings) (ts : list Time) (t : Time) :
  all_failed s ts -> is_Some (snd (probe s (length ts) t)) -> all_failed s (ts ++ [t]).
Proof.
  intros Hall Ht k t' Hk.
  destruct (decide (k < length ts)%nat) as [Hlt|Hge].
  - rewrite lookup_app_l in Hk by assumption. now apply Hall.
  - rewrite lookup_app_r in Hk by lia.
    destruct (k - length ts)%nat as [|n] eqn:En; [|destruct n; discriminate].
    injection Hk as <-. now replace k with (length ts) by lia.
Qed.

Lemma poll_sound (s : Surroundings) (svc : DBService) (first : Time) (fuel : nat) :
  forall (p : Polling) (r : Returned),
    poll fuel s svc p = Returns r ->
    (tick_waiting p = true -> first <= at_time p) ->
    first <= next_tick p ->
    Forall (fun t => first <= t) (started p) ->
    all_failed s (started p) ->
    at_time p <= returned_at r
    /\ Forall (fun t => first <= t) (probes r)
    /\ match err r with
       | None =>
           exists ts t,
             probes r = ts ++ [t] /\ all_failed s ts
             /\ snd (probe s (length ts) t) = None
             /\ returned_at r = t + Z.of_nat (fst (probe s (length ts) t))
       | Some (Cancelled msg) =>
           msg = ctx_Err (ctx s) /\ is_done (ctx s) (returned_at r) = true
           /\ all_failed s (probes r)
       | Some (TimedOut msg) =>
           msg = timeout_error svc /\ deadline_at p <= returned_at r
           /\ all_failed s (probes r)
       end.
Proof.
  induction fuel as [|fuel IH]; intros p r Hrun Hw Hn Hst Hall; [discriminate|].
  cbn [poll] in Hrun.
  destruct (select s p) as [[c|] p1] eqn:Hsel; [|discriminate].
  apply select_spec in Hsel as (Ht & Hd & Hs & Hnt & Hc).
  destruct c.
  - injection Hrun as <-. cbn [err probes returned_at].
    rewrite Hs. split_and!; try assumption; reflexivity.
  - injection Hrun as <-. cbn [err probes returned_at].
    rewrite Hs. split_and!; try assumption; try reflexivity; lia.
  - destruct Hc as [Hw1 Hfrom].
    assert (Hfirst : first <= at_time p1) by (destruct Hfrom; [specialize (Hw H)|]; lia).
    destruct (probe s (length (started p1)) (at_time p1)) as [took e] eqn:Hp.
    destruct e as [msg|].
    + apply IH in Hrun; cbn [tick_waiting next_tick at_time started deadline_at] in *.
      * rewrite Hd in Hrun. destruct Hrun as (Hret & Hrest). split; [lia | exact Hrest].
      * discriminate.
      * lia.
      * rewrite Hs. apply Forall_app. split; [assumption | repeat constructor; lia].
      * rewrite Hs at 1. apply all_failed_snoc; [assumption|].
        rewrite <- Hs, Hp. now exists msg.
    + injection Hrun as <-. cbn [err probes returned_at].
      split_and!; [lia | |].
      * rewrite Hs. apply Forall_app. split; [assumption | repeat constructor; lia].
      * exists (started p1), (at_time p1). rewrite Hp. cbn [fst snd].
        split_and!; try reflexivity. now rewrite Hs.
Qed.

Lemma WaitReady_justified (s : Surroundings) (svc : DBService) (t0 : Time)
    (fuel : nat) (r : Returned) :
  WaitReady fuel s svc t0 = Returns r ->
  t0 <= returned_at r
  /\ Forall (fun t => t0 + grace + interval <= t) (probes r)
  /\ match err r with
     | None =>
         exists ts t,
           probes r = ts ++ [t] /\ all_failed s ts
           /\ snd (probe s (length ts) t) = None
           /\ returned_at r = t + Z.of_nat (fst (probe s (length ts) t))
     | Some (Cancelled msg) =>
         msg = ctx_Err (ctx s) /\ is_done (ctx s) (returned_at r) = true
         /\ all_failed s (probes r)
     | Some (TimedOut msg) =>
         msg = timeout_error svc /\ t0 + grace + deadline <= returned_at r
         /\ all_failed s (probes r)
     end.
Proof.
  unfold WaitReady.
  destruct (match done_at (ctx s) with
            | Some d =>
                if d <? t0 + grace then Some (Z.max t0 d)
                else if (d =? t0 + grace) && (pick s 0 mod 2 =? 1)%nat then Some d
                else None
            | None => None
            end) as [t|] eqn:Hc.
  - intros [= <-]. cbn [err probes returned_at].
    unfold is_done. destruct (done_at (ctx s)) as [d|]; [|discriminate].
    assert (Hg : 0 < grace) by reflexivity.
    destruct (Z.ltb_spec d (t0 + grace)).
    + injection Hc as <-.
      split_and!;
        [lia | constructor | reflexivity | apply Z.leb_le; lia | apply all_failed_nil].
    + destruct ((d =? t0 + grace) && _) eqn:Hb; [|discriminate].
      injection Hc as <-. apply andb_prop in Hb as [Hb _]. apply Z.eqb_eq in Hb.
      split_and!;
        [lia | constructor | reflexivity | apply Z.leb_le; lia | apply all_failed_nil].
  - intros Hrun.
    apply (poll_sound s svc (t0 + grace + interval)) in Hrun;
      cbn [tick_waiting at_time next_tick started deadline_at] in *;
      [| discriminate | lia | constructor | apply all_failed_nil].
    assert (Hg : 0 < grace) by reflexivity.
    destruct Hrun as (Hret & Hprobes & Herr). split_and!; [lia | assumption | exact Herr].
Qed.

(** X18.  Whatever the probe, the context and the picks of [select], a
    return of [WaitReady] is justified.  It never comes before the call; no
    probe was started before the grace delay and the first tick had
    passed.  A return of [nil] means that the last probe started succeeded,
    all earlier ones having failed, and comes when that probe ends; the
    context's error means the context was done by then; the timeout means
    that the grace delay and the deadline have passed; in both cases every
    probe made had failed. *)
Theorem WaitReady_return_justified (s : Surroundings) (svc : DBService) (t0 : Time)
    (fuel : nat) (r : Returned) :
  WaitReady fuel s svc t0 = Returns r ->
  t0 <= returned_at r
  /\ Forall (fun t => t0 + grace + interval <= t) (probes r)
  /\ match err r with
     | None =>
         exists ts t,
           probes r = ts ++ [t] /\ all_failed s ts
           /\ snd (probe s (length ts) t) = None
           /\ returned_at r = t + Z.of_nat (fst (probe s (length ts) t))
     | Some (Cancelled msg) =>
         msg = ctx_Err (ctx s) /\ is_done (ctx s) (returned_at r) = true
         /\ all_failed s (probes r)
     | Some (TimedOut msg) =>
         msg = timeout_error svc /\ t0 + grace + deadline <= returned_at r
         /\ all_failed s (probes r)
     end.
Proof. apply WaitReady_justified. Qed.

Lemma ready_at_third_run :
  WaitReady 31 ready_at_third postgres 0 = Returns ready_at_third_return.
Proof. vm_compute. reflexivity. Defined.

Lemma WaitReady_return_justified_witness :
  0 <= returned_at ready_at_third_return
  /\ Forall (fun t => 0 + grace + interval <= t) (probes ready_at_third_return)
  /\ match err ready_at_third_return with
     | None =>
         exists ts t,
           probes ready_at_third_return = ts ++ [t] /\ all_failed ready_at_third ts
           /\ snd (probe ready_at_third (length ts) t) = None
           /\ returned_at ready_at_third_return
              = t + Z.of_nat (fst (probe ready_at_third (length ts) t))
     | Some (Cancelled msg) =>
         msg = ctx_Err (ctx ready_at_third)
         /\ is_done (ctx ready_at_third) (returned_at ready_at_third_return) = true
         /\ all_failed ready_at_third (probes ready_at_third_return)
     | Some (TimedOut msg) =>
         msg = timeout_error postgres
         /\ 0 + grace + deadline <= returned_at ready_at_third_return
         /\ all_failed ready_at_third (probes ready_at_third_return)
     end.
Proof.
  exact (WaitReady_return_justified ready_at_third postgres 0 31 ready_at_third_return
           ready_at_third_run).
Defined.

(** *** A service that gets ready *)

Lemma ticks_length (t1 : Time) (n : nat) : length (ticks t1 n) = n.
Proof. unfold ticks. now rewrite length_map, length_seq. Qed.

Lemma ticks_S (t1 : Time) (n : nat) :
  ticks t1 (S n) = ticks t1 n ++ [t1 + Z.of_nat (S n) * interval].
Proof. unfold ticks. now rewrite seq_S, map_app. Qed.

Lemma poll_until_ready (s : Surroundings) (svc : DBService) (t1 : Time) (k : nat) :
  done_at (ctx s) = None ->
  (forall j t, Z.of_nat (fst (probe s j t)) < interval) ->
  (k <= 28)%nat ->
  (forall j, (j < k)%nat ->
             is_Some (snd (probe s j (t1 + Z.of_nat (S j) * interval)))) ->
  snd (probe s k (t1 + Z.of_nat (S k) * interval)) = None ->
  forall (n j : nat) (fuel : nat) (p : Polling),
    (j + n = k)%nat -> (n + 1 <= fuel)%nat ->
    tick_waiting p = false ->
    at_time p < next_tick p ->
    next_tick p = t1 + Z.of_nat (S j) * interval ->
    deadline_at p = t1 + deadline ->
    started p = ticks t1 j ->
    poll fuel s svc p
    = Returns {| returned_at := t1 + Z.of_nat (S k) * interval
                                + Z.of_nat (fst (probe s k (t1 + Z.of_nat (S k) * interval)));
                 err := None; probes := ticks t1 (S k) |}.
Proof.
  intros Hno Hfast Hk Hfail Hok.
  induction n as [|n IH]; intros j fuel p Hj Hfuel Hw Hat Hnext Hdl Hst.
  - assert (j = k) by lia. subst j.
    destruct fuel as [|fuel]; [lia|]. cbn [poll].
    rewrite select_sleeps_to_tick; try assumption.
    2:{ rewrite Hnext, Hdl. unfold deadline, interval, Second. lia. }
    cbn [at_time started]. rewrite Hst, ticks_length, Hnext.
    destruct (probe s k (t1 + Z.of_nat (S k) * interval)) as [took e].
    cbn [snd fst] in *. subst e. cbn [at_time started]. now rewrite ticks_S.
  - destruct fuel as [|fuel]; [lia|]. cbn [poll].
    rewrite select_sleeps_to_tick; try assumption.
    2:{ rewrite Hnext, Hdl. unfold deadline, interval, Second. lia. }
    cbn [at_time started]. rewrite Hst, ticks_length, Hnext.
    pose proof (Hfail j ltac:(lia)) as [msg Hmsg].
    pose proof (Hfast j (t1 + Z.of_nat (S j) * interval)) as Htook.
    destruct (probe s j (t1 + Z.of_nat (S j) * interval)) as [took e].
    cbn [snd fst] in *. subst e.
    apply (IH (S j)); cbn [tick_waiting at_time next_tick deadline_at started];
      try assumption; try reflexivity; try lia.
    now rewrite ticks_S.
Qed.

(** X19.  When the context is not cancelled and every probe takes less
    than one polling interval, a service whose probe first succeeds at the
    [k]-th tick (counting from zero, [k <= 28]) is reported ready: probes
    are started at 7, 9, ... seconds after the call, one per tick and no
    more than [k + 1] of them, and [WaitReady] returns [nil] as soon as the
    successful probe ends. *)
Theorem WaitReady_reports_ready (s : Surroundings) (svc : DBService) (t0 : Time)
    (k fuel : nat) :
  done_at (ctx s) = None ->
  (forall j t, Z.of_nat (fst (probe s j t)) < interval) ->
  (k <= 28)%nat ->
  (k + 1 <= fuel)%nat ->
  (forall j, (j < k)%nat ->
             is_Some (snd (probe s j (t0 + grace + Z.of_nat (S j) * interval)))) ->
  snd (probe s k (t0 + grace + Z.of_nat (S k) * interval)) = None ->
  WaitReady fuel s svc t0
  = Returns {| returned_at :=
                 t0 + grace + Z.of_nat (S k) * interval
                 + Z.of_nat (fst (probe s k (t0 + grace + Z.of_nat (S k) * interval)));
               err := None;
               probes := ticks (t0 + grace) (S k) |}.
Proof.
  intros Hno Hfast Hk Hfuel Hfail Hok. unfold WaitReady. rewrite Hno.
  apply (poll_until_ready s svc (t0 + grace) k Hno Hfast Hk Hfail Hok k 0%nat);
    cbn [tick_waiting at_time next_tick deadline_at started]; try reflexivity; try lia.
  unfold interval, Second. lia.
Qed.

Lemma WaitReady_reports_ready_witness :
  WaitReady 31 ready_at_third postgres 0
  = Returns {| returned_at :=
                 0 + grace + Z.of_nat 3 * interval
                 + Z.of_nat (fst (probe ready_at_third 2
                                    (0 + grace + Z.of_nat 3 * interval)));
               err := None;
               probes := ticks (0 + grace) 3 |}.
Proof.
  apply (WaitReady_reports_ready ready_at_third postgres 0 2 31).
  - reflexivity.
  - intros j t. cbn. unfold interval, Second. lia.
  - lia.
  - lia.
  - intros j Hj. destruct j as [|[|j]]; [eexists; reflexivity.. | lia].
  - reflexivity.
Defined.

End OrchestratorMore.


(** ** Package main: the runner built from the flags *)

Module MainMore.
Import GoInt Generator GeneratorFacts Benchmark Orchestrator Main MoreFlags.
Local Open Scope Z_scope.




(** Fifty events with the default batch size and eight workers: one batch
    of fifty, one worker. *)
Example newRunner_small :
  newRunner small_flags
  = Returns {| EventCount := 50; BatchSize := 50; Workers := 1;
               QueryIterations := 100; WarmupIterations := 5; PreloadCount := 0 |}.
Proof. reflexivity. Qed.

(** X21.  The databases [getDatabases] lists for [all] are the names of
    [DefaultServices], in the same order, so [ServiceByName] finds each of
    them; for any other value it lists that one name, which
    [ServiceByName] finds exactly when it is one of the four. *)
Theorem getDatabases_are_services (dbType : string) :
  getDatabases "all" = Name <$> DefaultServices
  /\ Forall (fun db => is_Some (ServiceByName db)) (getDatabases "all")
  /\ (dbType <> "all"%string ->
      getDatabases dbType = [dbType]
      /\ (is_Some (ServiceByName dbType) <-> dbType ∈ getDatabases "all")).
Proof.
  split_and!.
  - reflexivity.
  - repeat constructor; eexists; reflexivity.
  - intros Hne. unfold getDatabases at 1.
    destruct (String.eqb_spec dbType "all"); [contradiction|].
    split; [reflexivity|]. split.
    + intros [svc Hsvc]. unfold ServiceByName in Hsvc.
      apply find_some in Hsvc as [Hin Heq]. apply String.eqb_eq in Heq. subst dbType.
      apply list_elem_of_In in Hin. unfold DefaultServices in Hin.
      repeat (apply elem_of_cons in Hin as [->|Hin]; [cbn; repeat constructor|]).
      now apply elem_of_nil in Hin.
    + cbn. intros Hin.
      repeat (apply elem_of_cons in Hin as [->|Hin]; [eexists; reflexivity|]).
      now apply elem_of_nil in Hin.
Qed.

End MainMore.


(** ** The reporter: the order of the rows and tables *)

Module ReporterMore.
Import GoInt Float64 Float64Facts Float64Real Float64More.
Import Benchmark Reporter ReporterSpec MoreResults Float64Value.
Local Open Scope Z_scope.

(** *** The order on strings *)

Lemma compare_not_Gt_trans (a b c : string) :
  String.compare a b <> Gt -> String.compare b c <> Gt -> String.compare a c <> Gt.
Proof.
  revert b c. induction a as [|x a IH]; intros [|y b] [|z c] Hab Hbc; cbn in *;
    try congruence.
  unfold Ascii.compare in *.
  destruct (N.compare_spec (Ascii.N_of_ascii x) (Ascii.N_of_ascii y)) as [Hxy|Hxy|Hxy];
    destruct (N.compare_spec (Ascii.N_of_ascii y) (Ascii.N_of_ascii z)) as [Hyz|Hyz|Hyz];
    try congruence;
    destruct (N.compare_spec (Ascii.N_of_ascii x) (Ascii.N_of_ascii z)) as [Hxz|Hxz|Hxz];
    try congruence; try lia.
  now apply (IH b c).
Qed.

#[local] Instance string_le_trans : Transitive string_le.
Proof.
  intros a b c. unfold string_le, String.leb. intros Hab Hbc.
  pose proof (compare_not_Gt_trans a b c) as Ht.
  destruct (String.compare a b), (String.compare b c), (String.compare a c);
    try reflexivity; try discriminate; exfalso; apply Ht; congruence.
Qed.

#[local] Instance string_le_total : Total string_le.
Proof. intros a b. apply String.leb_total. Qed.

#[local] Instance string_le_antisym : AntiSymm eq string_le.
Proof. intros a b. apply String.leb_antisym. Qed.

Lemma sort_Strings_sorted (l : list string) : StronglySorted string_le (sort_Strings l).
Proof. apply StronglySorted_merge_sort; apply _. Qed.

Lemma sort_Strings_perm (l : list string) : sort_Strings l ≡ₚ l.
Proof. apply merge_sort_Permutation. Qed.

(** Sorting forgets the order the strings came in. *)
Lemma sort_Strings_order (l l' : list string) :
  l ≡ₚ l' -> sort_Strings l = sort_Strings l'.
Proof.
  intros Hp. apply (StronglySorted_unique string_le); try apply sort_Strings_sorted.
  now rewrite !sort_Strings_perm.
Qed.

Lemma strictly_sorted (l : list string) :
  StronglySorted string_le l -> NoDup l -> StronglySorted string_lt l.
Proof.
  induction 1 as [|a l Hs IH Hall]; intros Hnd; [constructor|].
  apply NoDup_cons in Hnd as [Hnot Hnd]. constructor; [now apply IH|].
  rewrite Forall_forall in *. intros b Hb. split; [now apply Hall|].
  intros ->. contradiction.
Qed.

Lemma sort_Strings_canonical (l l' : list string) :
  l ≡ₚ l' -> NoDup l' ->
  sort_Strings l = sort_Strings l'
  /\ StronglySorted string_lt (sort_Strings l)
  /\ (forall k, k ∈ sort_Strings l <-> k ∈ l')
  /\ length (sort_Strings l) = length l'.
Proof.
  intros Hp Hnd. split_and!.
  - now apply sort_Strings_order.
  - apply strictly_sorted; [apply sort_Strings_sorted|].
    now rewrite sort_Strings_perm, Hp.
  - intros k. now rewrite sort_Strings_perm, Hp.
  - now rewrite sort_Strings_perm, Hp.
Qed.

Lemma elem_of_keys {V} (m : gmap string V) (k : string) :
  k ∈ (map_to_list m).*1 <-> is_Some (m !! k).
Proof.
  rewrite list_elem_of_fmap. split.
  - intros ([k' v] & -> & Hin). apply elem_of_map_to_list in Hin. now exists v.
  - intros [v Hv]. exists (k, v). split; [reflexivity | now apply elem_of_map_to_list].
Qed.

(** X22.  [sortedKeys] returns the keys of the map in strictly ascending
    byte-wise order, each key once and nothing else, and the slice is the
    same whatever the order in which [range] delivers the keys. *)
Theorem sortedKeys_canonical {V} (m : gmap string V) (order order' : list string) :
  delivers m order ->
  delivers m order' ->
  sortedKeys order = sortedKeys order'
  /\ StronglySorted string_lt (sortedKeys order)
  /\ (forall k, k ∈ sortedKeys order <-> is_Some (m !! k))
  /\ length (sortedKeys order) = size m.
Proof.
  unfold delivers, sortedKeys. intros Ho Ho'.
  destruct (sort_Strings_canonical order ((map_to_list m).*1) Ho)
    as (_ & Hs & Hel & Hlen); [apply NoDup_fst_map_to_list|].
  split_and!.
  - apply sort_Strings_order. now rewrite Ho, Ho'.
  - exact Hs.
  - intros k. now rewrite Hel, elem_of_keys.
  - now rewrite Hlen, length_fmap, length_map_to_list.
Qed.

Lemma sortedKeys_canonical_witness :
  sortedKeys (map_to_list four_databases).*1
  = sortedKeys (reverse (map_to_list four_databases).*1)
  /\ StronglySorted string_lt (sortedKeys (map_to_list four_databases).*1)
  /\ (forall k, k ∈ sortedKeys (map_to_list four_databases).*1
                <-> is_Some (four_databases !! k))
  /\ length (sortedKeys (map_to_list four_databases).*1) = size four_databases.
Proof.
  apply (sortedKeys_canonical four_databases).
  - unfold delivers. reflexivity.
  - unfold delivers. apply reverse_Permutation.
Defined.

(** The rows of the four databases come in this order. *)
Example sortedKeys_of_the_four :
  sortedKeys (map_to_list four_databases).*1
  = ["cassandra"; "clickhouse"; "mongodb"; "postgres"]%string.
Proof. vm_compute. reflexivity. Qed.

(** *** The query tables *)

Lemma elem_of_queryNames_from (visited : list Results) (names : gset string)
    (name : string) :
  name ∈ foldl (fun names result =>
                  match Queries result with
                  | Some queries => dom queries ∪ names
                  | None => names
                  end) names visited
  <-> name ∈ names
      \/ exists r q, r ∈ visited /\ Queries r = Some q /\ is_Some (q !! name).
Proof.
  revert names. induction visited as [|r visited IH]; intros names; cbn [foldl].
  - split; [now left|]. intros [H|(r & q & Hr & _)]; [exact H|].
    now apply elem_of_nil in Hr.
  - rewrite IH. split.
    + intros [Hin|(r' & q & Hr & Hq & Hk)].
      * destruct (Queries r) as [q|] eqn:Hq; [|now left].
        apply elem_of_union in Hin as [Hin|Hin]; [|now left].
        right. exists r, q. split_and!; [left | assumption | now apply elem_of_dom].
      * right. exists r', q. split_and!; [now right | assumption | assumption].
    + intros [Hin|(r' & q & Hr & Hq & Hk)].
      * left. destruct (Queries r); [apply elem_of_union; now right | assumption].
      * apply elem_of_cons in Hr as [->|Hr].
        -- left. rewrite Hq. apply elem_of_union. left. now apply elem_of_dom.
        -- right. now exists r', q.
Qed.

Lemma elem_of_queryNames (visited : list Results) (name : string) :
  name ∈ queryNames visited
  <-> exists r q, r ∈ visited /\ Queries r = Some q /\ is_Some (q !! name).
Proof.
  unfold queryNames. rewrite elem_of_queryNames_from. split; [|now right].
  intros [Hin|H]; [now apply elem_of_empty in Hin | exact H].
Qed.

(** X23.  [sortedQueryNames] returns, in strictly ascending byte-wise
    order and each once, the names that occur in the [Queries] of some
    result.  For results whose queries all come from [RunQueries] the
    tables are therefore printed in the order [1_day], [1_hour], [1_month],
    [1_week], whatever the order of the maps. *)
Theorem sortedQueryNames_canonical (visited : list Results) (order : list string) :
  order ≡ₚ elements (queryNames visited) ->
  StronglySorted string_lt (sortedQueryNames order)
  /\ (forall name,
        name ∈ sortedQueryNames order
        <-> exists r q, r ∈ visited /\ Queries r = Some q /\ is_Some (q !! name))
  /\ ((exists r q, r ∈ visited /\ Queries r = Some q) ->
      (forall r q, r ∈ visited -> Queries r = Some q ->
                   dom q = ({[ "1_hour"; "1_day"; "1_week"; "1_month" ]}%string
                            : gset string)) ->
      sortedQueryNames order = ["1_day"; "1_hour"; "1_month"; "1_week"]%string).
Proof.
  intros Ho. unfold sortedQueryNames.
  destruct (sort_Strings_canonical order (elements (queryNames visited)) Ho)
    as (_ & Hs & Hel & _); [apply NoDup_elements|].
  split_and!.
  - exact Hs.
  - intros name. now rewrite Hel, elem_of_elements, elem_of_queryNames.
  - intros (r0 & q0 & Hr0 & Hq0) Hdom.
    assert (Hset : queryNames visited
                   = ({[ "1_hour"; "1_day"; "1_week"; "1_month" ]}%string : gset string)).
    { apply set_eq. intros name. rewrite elem_of_queryNames. split.
      - intros (r & q & Hr & Hq & Hk). rewrite <- (Hdom r q Hr Hq). now apply elem_of_dom.
      - intros Hin. exists r0, q0. split_and!; try assumption.
        apply elem_of_dom. now rewrite (Hdom r0 q0 Hr0 Hq0). }
    rewrite Hset in Ho.
    transitivity (sort_Strings ["1_hour"; "1_day"; "1_week"; "1_month"]%string);
      [|vm_compute; reflexivity].
    apply sort_Strings_order. rewrite Ho.
    apply NoDup_Permutation.
    + apply NoDup_elements.
    + repeat (apply NoDup_cons; split;
        [intros Hin; repeat (apply elem_of_cons in Hin as [Hin|Hin]; [discriminate|]);
         now apply elem_of_nil in Hin|]).
      apply NoDup_nil_2.
    + intros k. rewrite elem_of_elements, !elem_of_union, !elem_of_singleton,
        !elem_of_cons, elem_of_nil. tauto.
Qed.

Lemma sortedQueryNames_canonical_witness :
  StronglySorted string_lt
    (sortedQueryNames
       (elements (queryNames [failed "postgres" "connection refused"; queried "mongodb"])))
  /\ (forall name,
        name ∈ sortedQueryNames
                 (elements (queryNames [failed "postgres" "connection refused";
                                        queried "mongodb"]))
        <-> exists r q,
              r ∈ [failed "postgres" "connection refused"; queried "mongodb"]
              /\ Queries r = Some q /\ is_Some (q !! name))
  /\ ((exists r q, r ∈ [failed "postgres" "connection refused"; queried "mongodb"]
                   /\ Queries r = Some q) ->
      (forall r q, r ∈ [failed "postgres" "connection refused"; queried "mongodb"] ->
                   Queries r = Some q ->
                   dom q = ({[ "1_hour"; "1_day"; "1_week"; "1_month" ]}%string
                            : gset string)) ->
      sortedQueryNames
        (elements (queryNames [failed "postgres" "connection refused"; queried "mongodb"]))
      = ["1_day"; "1_hour"; "1_month"; "1_week"]%string).
Proof.
  apply (sortedQueryNames_canonical
           [failed "postgres" "connection refused"; queried "mongodb"]).
  reflexivity.
Defined.

(** Two databases, one of which failed: the tables of the other. *)
Example sortedQueryNames_of_a_run :
  sortedQueryNames
    (elements (queryNames [failed "postgres" "connection refused"; queried "mongodb"]))
  = ["1_day"; "1_hour"; "1_month"; "1_week"]%string.
Proof. vm_compute. reflexivity. Qed.

(** *** Sizes *)

Lemma scaled_size (bytes k : Z) :
  1 <= bytes < 2 ^ 53 -> 0 <= k <= 52 ->
  exists x : float64,
    div (of_int bytes) (of_int (2 ^ k)) = x
    /\ F2R x = (IZR bytes / IZR (2 ^ k))%R.
Proof.
  intros Hb Hk. destruct (div_of_int_pow2 bytes k) as (m & e & Hd & Hv);
    [unfold prec; lia | lia |].
  exists (S754_finite false m e). now split.
Qed.

(** X24.  [formatBytes] prints a size below 1024, and any negative one, as
    its exact count of bytes; from 1024 on it picks the largest of KB, MB
    and GB that the size reaches, and for sizes below [2^53] the number it
    hands to [%.2f] is exactly the size divided by the unit: at least 1,
    and below 1024 for KB and MB. *)
Theorem formatBytes_unit {RT : Runtime} (bytes : Z) :
  (bytes < kb -> formatBytes bytes = (Generator.fmt_d bytes +:+ " B")%string)
  /\ (kb <= bytes < mb ->
      exists x, formatBytes bytes = (fmt_f2 x +:+ " KB")%string
                /\ F2R x = (IZR bytes / 1024)%R /\ (1 <= F2R x < 1024)%R)
  /\ (mb <= bytes < gb ->
      exists x, formatBytes bytes = (fmt_f2 x +:+ " MB")%string
                /\ F2R x = (IZR bytes / 1048576)%R /\ (1 <= F2R x < 1024)%R)
  /\ (gb <= bytes < 2 ^ 53 ->
      exists x, formatBytes bytes = (fmt_f2 x +:+ " GB")%string
                /\ F2R x = (IZR bytes / 1073741824)%R /\ (1 <= F2R x)%R).
Proof.
  unfold formatBytes.
  change gb with 1073741824. change mb with 1048576. change kb with 1024.
  change (2 ^ 53) with 9007199254740992.
  split_and!.
  - intros Hb.
    destruct (Z.geb_spec bytes 1073741824); [lia|].
    destruct (Z.geb_spec bytes 1048576); [lia|].
    destruct (Z.geb_spec bytes 1024); [lia | reflexivity].
  - intros Hb.
    destruct (Z.geb_spec bytes 1073741824); [lia|].
    destruct (Z.geb_spec bytes 1048576); [lia|].
    destruct (Z.geb_spec bytes 1024); [|lia].
    destruct (scaled_size bytes 10) as (x & Hx & Hv);
      [change (2 ^ 53) with 9007199254740992; lia | lia |].
    change (2 ^ 10) with 1024 in *. exists x. rewrite Hx, Hv.
    assert (1024 <= IZR bytes < 1048576)%R
      by (split; [apply IZR_le | apply IZR_lt]; lia).
    split_and!; try reflexivity; unfold Rdiv; lra.
  - intros Hb.
    destruct (Z.geb_spec bytes 1073741824); [lia|].
    destruct (Z.geb_spec bytes 1048576); [|lia].
    destruct (scaled_size bytes 20) as (x & Hx & Hv);
      [change (2 ^ 53) with 9007199254740992; lia | lia |].
    change (2 ^ 20) with 1048576 in *. exists x. rewrite Hx, Hv.
    assert (1048576 <= IZR bytes < 1073741824)%R
      by (split; [apply IZR_le | apply IZR_lt]; lia).
    split_and!; try reflexivity; unfold Rdiv; lra.
  - intros Hb.
    destruct (Z.geb_spec bytes 1073741824); [|lia].
    destruct (scaled_size bytes 30) as (x & Hx & Hv);
      [change (2 ^ 53) with 9007199254740992; lia | lia |].
    change (2 ^ 30) with 1073741824 in *. exists x. rewrite Hx, Hv.
    assert (1073741824 <= IZR bytes)%R by (apply IZR_le; lia).
    split_and!; try reflexivity; unfold Rdiv; lra.
Qed.

(** 1536 bytes are a kilobyte and a half. *)
Example formatBytes_1536 :
  formatBytes (RT := Sample.sample_runtime) 1536
  = (@fmt_f2 Sample.sample_runtime (S754_finite false 6755399441055744 (-52))
     +:+ " KB")%string.
Proof. vm_compute. reflexivity. Qed.

Lemma size_in_GB (n : Z) :
  0 <= n < 2 ^ 53 ->
  F2R (div (of_int n) (of_int (1024 * 1024 * 1024))) = (IZR n / 1073741824)%R.
Proof.
  intros Hn. change (1024 * 1024 * 1024) with (2 ^ 30).
  destruct (Z.eq_dec n 0) as [->|Hz].
  - assert (E : div (of_int 0) (of_int (2 ^ 30)) = S754_zero false)
      by (vm_compute; reflexivity).
    rewrite E. cbn [F2R]. unfold Rdiv. lra.
  - destruct (scaled_size n 30) as (x & Hx & Hv); [lia | lia |].
    rewrite Hx, Hv. reflexivity.
Qed.

(** X25.  [TotalSizeGB] and [IndexSizeGB] lose nothing: for a size from 0
    to below [2^53] bytes the float returned is exactly the size divided
    by [2^30]. *)
Theorem SizeGB_exact (s : StorageStats) :
  0 <= TotalSize s < 2 ^ 53 ->
  0 <= IndexSize s < 2 ^ 53 ->
  F2R (TotalSizeGB s) = (IZR (TotalSize s) / 1073741824)%R
  /\ F2R (IndexSizeGB s) = (IZR (IndexSize s) / 1073741824)%R.
Proof.
  intros Ht Hi. unfold TotalSizeGB, IndexSizeGB. split; apply size_in_GB; assumption.
Qed.

Lemma SizeGB_exact_witness :
  F2R (TotalSizeGB test_storage) = (IZR (TotalSize test_storage) / 1073741824)%R
  /\ F2R (IndexSizeGB test_storage) = (IZR (IndexSize test_storage) / 1073741824)%R.
Proof.
  apply (SizeGB_exact test_storage);
    (split; [apply Z.leb_le | apply Z.ltb_lt]; reflexivity).
Defined.

(** The index of the test is one gigabyte. *)
Example IndexSizeGB_of_the_test : IndexSizeGB test_storage = one.
Proof. vm_compute. reflexivity. Qed.

End ReporterMore.

(** ** Package main: the life of a connection and of a container *)

Module RunMore.
Import GoInt Float64 Generator Benchmark Orchestrator Reporter Main MainRun MainSpec.
Local Open Scope Z_scope.

Section WithBackend.
Context {RT : Runtime} {BE : Backend}.

Lemma calls_app (a b : list step) : calls (a ++ b) = calls a ++ calls b.
Proof. apply List.filter_app. Qed.

Lemma calls_runner (h : list observation) :
  Forall (fun st => is_work st = true) (calls (Ran <$> h)).
Proof.
  induction h as [|o h IH]; [constructor|].
  destruct o; cbn; [constructor; [reflexivity|exact IH] .. | exact IH].
Qed.

Lemma calls_runner_inserts (h : list observation) :
  Forall (fun o => is_query o = false) h ->
  Forall (fun st => is_insert st = true) (calls (Ran <$> h)).
Proof.
  induction 1 as [|o h Ho _ IH]; [constructor|].
  destruct o; cbn; [constructor; [reflexivity|exact IH] | discriminate Ho | exact IH].
Qed.

Lemma appends_refl (ss : Session) : appends ss ss [].
Proof. unfold appends. now rewrite app_nil_r. Qed.

Lemma appends_trans (s1 s2 s3 : Session) (e1 e2 : list step) :
  appends s1 s2 e1 -> appends s2 s3 e2 -> appends s1 s3 (e1 ++ e2).
Proof. unfold appends. intros H1 H2. now rewrite H2, H1, app_assoc. Qed.

Lemma main_log_appends (line : string) (ss : Session) :
  appends ss (snd (main_log line ss)) [Ran (Logged line)].
Proof. reflexivity. Qed.

Lemma record_appends (st : step) (ss : Session) :
  appends ss (snd (record st ss)) [st].
Proof. reflexivity. Qed.

Lemma on_databases_appends {A} (m : State Databases A) (ss : Session) :
  appends ss (snd (on_databases m ss)) [].
Proof.
  unfold on_databases, appends. destruct (m (databases ss)). cbn.
  now rewrite app_nil_r.
Qed.

Lemma on_wall_appends {A} (m : State Clock A) (ss : Session) :
  appends ss (snd (on_wall m ss)) [].
Proof.
  unfold on_wall, appends. destruct (m (wall ss)). cbn. now rewrite app_nil_r.
Qed.

Lemma by_runner_appends {A} (m : State World A) (ss : Session) :
  appends ss (snd (by_runner m ss))
    (Ran <$> history (snd (m {| clock := wall ss; repo := databases ss;
                                history := [] |}))).
Proof. unfold by_runner, appends. destruct (m _). reflexivity. Qed.

Lemma by_runner_fst {A} (m : State World A) (ss : Session) :
  fst (by_runner m ss)
  = fst (m {| clock := wall ss; repo := databases ss; history := [] |}).
Proof. unfold by_runner. destruct (m _). reflexivity. Qed.

Lemma newRepo_cases (dbType : string) (ss : Session) :
  (~ supported dbType
   /\ newRepo dbType ss = (inl ("unsupported database type: " +:+ dbType)%string, ss))
  \/ (supported dbType
      /\ appends ss (snd (newRepo dbType ss))
           [Opened dbType (error_of (fst (newRepo dbType ss)))]).
Proof.
  unfold newRepo, supported.
  destruct (String.eqb_spec dbType "postgres") as [->|H1].
  { right. split; [rewrite !elem_of_cons; auto 10|].
    unfold open, bind, on_databases, record, ret, appends.
    destruct (NewPostgresRepo (databases ss)) as [r d]. reflexivity. }
  destruct (String.eqb_spec dbType "mongodb") as [->|H2].
  { right. split; [rewrite !elem_of_cons; auto 10|].
    unfold open, bind, on_databases, record, ret, appends.
    destruct (NewMongoDBRepo (databases ss)) as [r d]. reflexivity. }
  destruct (String.eqb_spec dbType "cassandra") as [->|H3].
  { right. split; [rewrite !elem_of_cons; auto 10|].
    unfold open, bind, on_databases, record, ret, appends.
    destruct (NewCassandraRepo (databases ss)) as [r d]. reflexivity. }
  destruct (String.eqb_spec dbType "clickhouse") as [->|H4].
  { right. split; [rewrite !elem_of_cons; auto 10|].
    unfold open, bind, on_databases, record, ret, appends.
    destruct (NewClickHouseRepo (databases ss)) as [r d]. reflexivity. }
  left. split; [|reflexivity].
  rewrite !elem_of_cons, elem_of_nil. tauto.
Qed.

(** What [Preload] does to the storage target is to insert. *)
Lemma consume_step_no_query {RP : Repository Databases}
    (total logInterval : Z) (i : nat) (p : Pool) (w : World) :
  Forall (fun o => is_query o = false) (history w) ->
  Forall (fun o => is_query o = false)
    (history (snd (consume_step total logInterval i p w))).
Proof.
  intros Hw. unfold consume_step.
  destruct (Benchmark.workers p !! i) as [[|batch|]|]; try exact Hw.
  - destruct (batches p); exact Hw.
  - unfold bind, on_repo, observe, log_Printf, observe, ret.
    destruct (InsertBatch batch (repo w)) as [[e|] rp]; cbn.
    + destruct (Z.of_nat i >=? 0); cbn;
        rewrite ?Forall_app; repeat split; try exact Hw; repeat constructor.
    + destruct ((logInterval >? 0) && _); cbn;
        rewrite ?Forall_app; repeat split; try exact Hw; repeat constructor.
Qed.

Lemma run_pool_no_query {RP : Repository Databases}
    (total logInterval : Z) (sched : list nat) (p : Pool) (w : World) :
  Forall (fun o => is_query o = false) (history w) ->
  Forall (fun o => is_query o = false)
    (history (snd (run_pool total logInterval sched p w))).
Proof.
  revert p w. induction sched as [|i sched IH]; intros p w Hw; [exact Hw|].
  cbn [run_pool]. unfold bind.
  pose proof (consume_step_no_query total logInterval i p w Hw) as H1.
  destruct (consume_step total logInterval i p w) as [p' w']. cbn in H1.
  apply IH, H1.
Qed.

Lemma parallelInsert_no_query {RP : Repository Databases}
    (r : Runner) (count logInterval : Z) (fuel : nat) (sched : list nat) (w : World) :
  Forall (fun o => is_query o = false) (history w) ->
  Forall (fun o => is_query o = false)
    (history (snd (parallelInsert r count logInterval fuel sched w))).
Proof.
  intros Hw. unfold parallelInsert, bind, on_clock.
  destruct (New count (BatchSize r) (clock w)) as [gen c].
  destruct (mul64 (Workers r) 2 <? 0); [exact Hw|].
  destruct (Workers r <=? 0); [exact Hw|].
  cbn [clock repo history].
  destruct (Generate fuel (gen, c)) as [out [g c']].
  destruct out as [bs| | |]; try exact Hw.
  match goal with
  | |- context [run_pool ?a ?b ?c ?d ?e] =>
      pose proof (run_pool_no_query a b c d e Hw) as H1;
      destruct (run_pool a b c d e) as [p' w']
  end.
  cbn in H1. destruct (all_left p'); exact H1.
Qed.

Lemma Preload_no_query {RP : Repository Databases}
    (r : Runner) (fuel : nat) (sched : list nat) (w : World) :
  Forall (fun o => is_query o = false) (history w) ->
  Forall (fun o => is_query o = false) (history (snd (Preload r fuel sched w))).
Proof.
  intros Hw. unfold Preload.
  destruct (PreloadCount r <=? 0); [exact Hw|].
  unfold bind.
  pose proof (parallelInsert_no_query r (PreloadCount r) (mul64 (BatchSize r) 50)
                fuel sched w Hw) as H1.
  destruct (parallelInsert r (PreloadCount r) (mul64 (BatchSize r) 50) fuel sched w)
    as [out w'].
  cbn in H1. destruct out as [[inserted errors]| | |]; try exact H1.
  unfold log_Printf, observe, ret.
  destruct ((errors >? 0) && (inserted =? 0)); cbn;
    apply Forall_app; split; try exact H1; repeat constructor.
Qed.

Lemma calls_log (line : string) : calls [Ran (Logged line)] = [].
Proof. reflexivity. Qed.

Lemma preloadIfNeeded_spec (runner : Runner) (c : Conn) (dbName : string)
    (fuel : nat) (sched : list nat) (ss : Session) :
  exists ext,
    appends ss (snd (preloadIfNeeded runner c dbName fuel sched ss)) ext
    /\ Forall (fun st => is_insert st = true) (calls ext)
    /\ (PreloadCount runner <= 0 -> calls ext = []).
Proof.
  unfold preloadIfNeeded.
  destruct (PreloadCount runner <=? 0) eqn:Hp.
  { exists []. split; [apply appends_refl|]. split; [constructor|reflexivity]. }
  apply Z.leb_gt in Hp.
  unfold bind.
  pose proof (main_log_appends
                ("Pre-loading " +:+ dbName +:+ " with " +:+ fmt_d (PreloadCount runner)
                 +:+ " events...") ss) as H1.
  destruct (main_log _ ss) as [[] s1]. cbn [snd] in H1.
  pose proof (by_runner_appends (Preload (RP := as_Repository c) runner fuel sched) s1)
    as H2.
  pose proof (Preload_no_query (RP := as_Repository c) runner fuel sched
                {| clock := wall s1; repo := databases s1; history := [] |}
                (Forall_nil_2 _)) as Hq.
  set (h := history _) in *. clearbody h.
  destruct (by_runner _ s1) as [out s2]. cbn [snd] in H2.
  pose proof (appends_trans _ _ _ _ _ H1 H2) as H12.
  destruct out as [[err|]| | |]; cbn [snd].
  2-5: (eexists; split; [exact H12|]; split; [|lia]; rewrite calls_app, calls_log;
        apply calls_runner_inserts, Hq).
  pose proof (main_log_appends ("Failed to preload " +:+ dbName +:+ ": " +:+ err) s2)
    as H3.
  destruct (main_log _ s2) as [[] s3]. cbn [snd] in *.
  eexists; split; [exact (appends_trans _ _ _ _ _ H12 H3)|]. split; [|lia].
  rewrite !calls_app, !calls_log, app_nil_r. apply calls_runner_inserts, Hq.
Qed.

Lemma insertPart_spec (f : Flags) (runner : Runner) (c : Conn) (dbName : string)
    (fuel : nat) (sched : list nat) (ss : Session) :
  exists ext,
    appends ss (snd (insertPart f runner c dbName fuel sched ss)) ext
    /\ Forall (fun st => is_work st = true) (calls ext)
    /\ (forall ins, fst (insertPart f runner c dbName fuel sched ss) = Returns ins ->
                    is_Some ins <-> skipInsert f = false).
Proof.
  unfold insertPart.
  destruct (skipInsert f).
  { exists []. split; [apply appends_refl|]. split; [constructor|].
    intros ins [= <-]. split; [intros [? [=]]|discriminate]. }
  unfold bind.
  pose proof (main_log_appends
                ("Benchmarking inserts for " +:+ dbName +:+ " ("
                 +:+ fmt_d (EventCount runner) +:+ " events)...") ss) as H1.
  destruct (main_log _ ss) as [[] s1]. cbn [snd] in H1.
  pose proof (by_runner_appends (RunInsert (RP := as_Repository c) runner fuel sched) s1)
    as H2.
  set (h := history _) in *. clearbody h.
  destruct (by_runner _ s1) as [out s2]. cbn [snd] in H2.
  pose proof (appends_trans _ _ _ _ _ H1 H2) as H12.
  destruct out as [res| | |]; cbn [snd fst lift_outcome].
  2-4: (eexists; split; [exact H12|]; split;
        [rewrite calls_app, calls_log; apply calls_runner|discriminate]).
  pose proof (main_log_appends
                ("Insert benchmark done for " +:+ dbName +:+ ": "
                 +:+ fmt_f0 (InsertResult.Throughput res) +:+ "/sec") s2) as H3.
  destruct (main_log _ s2) as [[] s3]. cbn [snd fst] in *.
  eexists; split; [exact (appends_trans _ _ _ _ _ H12 H3)|]. split.
  - rewrite !calls_app, !calls_log, app_nil_r. apply calls_runner.
  - intros ins [= <-]. split; [reflexivity|eauto].
Qed.

Lemma queryPart_spec (f : Flags) (runner : Runner) (c : Conn) (dbName : string)
    (ss : Session) :
  exists ext,
    appends ss (snd (queryPart f runner c dbName ss)) ext
    /\ Forall (fun st => is_work st = true) (calls ext)
    /\ (forall qs, fst (queryPart f runner c dbName ss) = Returns qs ->
                   is_Some qs <-> skipQuery f = false).
Proof.
  unfold queryPart.
  destruct (skipQuery f).
  { exists []. split; [apply appends_refl|]. split; [constructor|].
    intros ins [= <-]. split; [intros [? [=]]|discriminate]. }
  unfold bind.
  pose proof (main_log_appends ("Benchmarking queries for " +:+ dbName +:+ "...") ss)
    as H1.
  destruct (main_log _ ss) as [[] s1]. cbn [snd] in H1.
  pose proof (by_runner_appends (RunQueries (RP := as_Repository c) runner) s1) as H2.
  set (h := history _) in *. clearbody h.
  destruct (by_runner _ s1) as [out s2]. cbn [snd] in H2.
  pose proof (appends_trans _ _ _ _ _ H1 H2) as H12.
  destruct out as [res| | |]; cbn [snd fst lift_outcome].
  2-4: (eexists; split; [exact H12|]; split;
        [rewrite calls_app, calls_log; apply calls_runner|discriminate]).
  pose proof (main_log_appends ("Query benchmark done for " +:+ dbName) s2) as H3.
  destruct (main_log _ s2) as [[] s3]. cbn [snd fst] in *.
  eexists; split; [exact (appends_trans _ _ _ _ _ H12 H3)|]. split.
  - rewrite !calls_app, !calls_log, app_nil_r. apply calls_runner.
  - intros ins [= <-]. split; [reflexivity|eauto].
Qed.

Lemma executeBenchmark_spec (f : Flags) (runner : Runner) (c : Conn) (dbName : string)
    (fuel : nat) (sched : list nat) (ss : Session) :
  exists ext,
    appends ss (snd (executeBenchmark f runner c dbName fuel sched ss)) ext
    /\ Forall (fun st => is_work st = true) (calls ext)
    /\ (forall res, fst (executeBenchmark f runner c dbName fuel sched ss) = Returns res ->
                    complete f dbName res ext).
Proof.
  unfold executeBenchmark, bind.
  pose proof (on_wall_appends time_Now ss) as H0.
  destruct (on_wall time_Now ss) as [t s0]. cbn [snd] in H0.
  destruct (insertPart_spec f runner c dbName fuel sched s0) as (e1 & H1 & W1 & I1).
  destruct (insertPart f runner c dbName fuel sched s0) as [ins s1]. cbn [fst snd] in *.
  pose proof (appends_trans _ _ _ _ _ H0 H1) as H01. cbn [app] in H01.
  destruct ins as [insert| | |]; cbn [lift_outcome ret fst snd].
  2-4: (exists e1; split; [exact H01|]; split; [exact W1|discriminate]).
  destruct (queryPart_spec f runner c dbName s1) as (e2 & H2 & W2 & I2).
  destruct (queryPart f runner c dbName s1) as [qs s2]. cbn [fst snd] in *.
  pose proof (appends_trans _ _ _ _ _ H01 H2) as H02.
  destruct qs as [queries| | |]; cbn [lift_outcome ret fst snd].
  2-4: (eexists; split; [exact H02|]; split;
        [rewrite calls_app; apply Forall_app; split; assumption|discriminate]).
  pose proof (on_databases_appends (conn_GetStorageStats c) s2) as H3.
  destruct (on_databases (conn_GetStorageStats c) s2) as [st s3]. cbn [snd] in H3.
  pose proof (record_appends (StorageRead (bool_decide (is_Some st))) s3) as H4.
  destruct (record _ s3) as [[] s4]. cbn [fst snd] in *.
  pose proof (appends_trans _ _ _ _ _ (appends_trans _ _ _ _ _ H02 H3) H4) as H04.
  eexists; split; [exact H04|]. split.
  - rewrite !calls_app, app_nil_r. repeat (apply Forall_app; split); try assumption.
    repeat constructor.
  - intros res [= <-]. unfold complete. cbn.
    split_and!; [reflexivity|eauto|reflexivity|apply I1; reflexivity|
                 apply I2; reflexivity|].
    rewrite !elem_of_app, elem_of_cons. right. left. reflexivity.
Qed.

Lemma elem_of_calls (st : step) (tr : list step) :
  st ∈ tr -> is_call st = true -> st ∈ calls tr.
Proof.
  intros H1 H2. apply list_elem_of_In, List.filter_In.
  split; [apply list_elem_of_In, H1|exact H2].
Qed.

Lemma complete_calls (f : Flags) (dbName : string) (res : Results) (ext : list step) :
  complete f dbName res ext -> complete f dbName res (calls ext).
Proof.
  unfold complete. intros (?&?&?&?&?&H). split_and!; try assumption.
  apply elem_of_calls; [exact H|reflexivity].
Qed.

Lemma benchmarkBody_spec (f : Flags) (runner : Runner) (c : Conn) (dbName : string)
    (fuel : nat) (preloadSched insertSched : list nat) (ss : Session) :
  exists e ext,
    appends ss (snd (benchmarkBody f runner c dbName fuel preloadSched insertSched ss))
      (SchemaInit e :: ext)
    /\ Forall (fun st => is_work st = true) (calls ext)
    /\ (forall res,
          fst (benchmarkBody f runner c dbName fuel preloadSched insertSched ss)
          = Returns res ->
          failed_early runner res (calls ext)
          \/ (e = None /\ complete f dbName res (calls ext))).
Proof.
  unfold benchmarkBody, bind.
  pose proof (on_databases_appends (conn_InitSchema c) ss) as H0.
  destruct (on_databases (conn_InitSchema c) ss) as [e s0]. cbn [snd] in H0.
  pose proof (record_appends (SchemaInit e) s0) as H1.
  destruct (record (SchemaInit e) s0) as [[] s1]. cbn [snd] in H1.
  pose proof (appends_trans _ _ _ _ _ H0 H1) as H01. cbn [app] in H01.
  exists e. destruct e as [err|].
  { pose proof (main_log_appends
                  ("Failed to initialize " +:+ dbName +:+ " schema: " +:+ err) s1) as H2.
    destruct (main_log _ s1) as [[] s2]. cbn [fst snd ret] in *.
    eexists; split; [exact (appends_trans _ _ _ _ _ H01 H2)|].
    split; [constructor|].
    intros res [= <-]. left. exists err. split; [reflexivity|].
    split; [constructor|reflexivity]. }
  destruct (preloadIfNeeded_spec runner c dbName fuel preloadSched s1)
    as (e2 & H2 & I2 & P2).
  destruct (preloadIfNeeded runner c dbName fuel preloadSched s1) as [p s2].
  cbn [fst snd] in *.
  pose proof (appends_trans _ _ _ _ _ H01 H2) as H02. cbn [app] in H02.
  assert (W2 : Forall (fun st => is_work st = true) (calls e2)).
  { eapply Forall_impl; [exact I2|]. intros [| |[]| | | | | |]; cbn; congruence. }
  destruct p as [[err|]| | |]; cbn [lift_outcome ret fst snd].
  1, 3-5: (exists e2; split; [exact H02|]; split; [exact W2|]; try discriminate;
           intros res [= <-]; left; exists err; auto).
  destruct (executeBenchmark_spec f runner c dbName fuel insertSched s2)
    as (e3 & H3 & W3 & C3).
  destruct (executeBenchmark f runner c dbName fuel insertSched s2) as [out s3].
  cbn [fst snd] in *.
  pose proof (appends_trans _ _ _ _ _ H02 H3) as H03. cbn [app] in H03.
  exists (e2 ++ e3). split; [exact H03|]. rewrite calls_app.
  split; [apply Forall_app; split; assumption|].
  intros res ->. right. split; [reflexivity|].
  pose proof (complete_calls _ _ _ _ (C3 res eq_refl)) as Hc.
  unfold complete in *. destruct Hc as (?&?&?&?&?&Hs). split_and!; try assumption.
  apply elem_of_app. right. exact Hs.
Qed.

Lemma close_spec (c : Conn) (dbName : string) (ss : Session) :
  exists e ext,
    appends ss (snd (close c dbName ss)) ext /\ calls ext = [Closed e].
Proof.
  unfold close, bind.
  pose proof (on_databases_appends (conn_Close c) ss) as H0.
  destruct (on_databases (conn_Close c) ss) as [e s0]. cbn [snd] in H0.
  pose proof (record_appends (Closed e) s0) as H1.
  destruct (record (Closed e) s0) as [[] s1]. cbn [snd] in H1.
  pose proof (appends_trans _ _ _ _ _ H0 H1) as H01. cbn [app] in H01.
  exists e. destruct e as [err|].
  - pose proof (main_log_appends ("Failed to close " +:+ dbName +:+ ": " +:+ err) s1)
      as H2.
    destruct (main_log _ s1) as [[] s2]. cbn [snd] in *.
    eexists; split; [exact (appends_trans _ _ _ _ _ H01 H2)|]. reflexivity.
  - eexists; split; [exact H01|]. reflexivity.
Qed.

(** [runBenchmark] in full: what it appends to the trace and what it
    returns, by the fate of the connection. *)
Lemma runBenchmark_spec (f : Flags) (runner : Runner) (dbName : string)
    (fuel : nat) (preloadSched insertSched : list nat) (ss : Session) :
  let run := runBenchmark f runner dbName fuel preloadSched insertSched ss in
  exists ext,
    appends ss (snd run) ext
    /\ ((~ supported dbName /\ calls ext = []
         /\ fst run = Returns (only_error ("unsupported database type: " +:+ dbName)))
        \/ (supported dbName
            /\ exists err, calls ext = [Opened dbName (Some err)]
                           /\ fst run = Returns (only_error err))
        \/ (supported dbName
            /\ exists e work,
                Forall (fun st => is_work st = true) work
                /\ (ended (fst run) ->
                    exists e', calls ext
                               = Opened dbName None :: SchemaInit e :: work ++ [Closed e'])
                /\ (forall res, fst run = Returns res ->
                      failed_early runner res work
                      \/ (e = None /\ complete f dbName res work)))).
Proof.
  cbv zeta. unfold runBenchmark, bind.
  destruct (newRepo_cases dbName ss) as [[Hn Hr]|[Hs Ha]].
  { rewrite Hr.
    pose proof (main_log_appends
                  ("Failed to initialize " +:+ dbName +:+ ": "
                   +:+ ("unsupported database type: " +:+ dbName)) ss) as H1.
    destruct (main_log _ ss) as [[] s1]. cbn [fst snd ret] in *.
    eexists; split; [exact H1|]. left. auto. }
  destruct (newRepo dbName ss) as [r s0]. cbn [fst snd] in Ha.
  destruct r as [err|c]; cbn [error_of] in Ha.
  { pose proof (main_log_appends
                  ("Failed to initialize " +:+ dbName +:+ ": " +:+ err) s0) as H1.
    destruct (main_log _ s0) as [[] s1]. cbn [fst snd ret] in *.
    eexists; split; [exact (appends_trans _ _ _ _ _ Ha H1)|].
    right. left. split; [exact Hs|]. exists err. auto. }
  destruct (benchmarkBody_spec f runner c dbName fuel preloadSched insertSched s0)
    as (e & e1 & H1 & W1 & R1).
  destruct (benchmarkBody f runner c dbName fuel preloadSched insertSched s0)
    as [out s1].
  cbn [fst snd] in *.
  pose proof (appends_trans _ _ _ _ _ Ha H1) as H01. cbn [app] in H01.
  destruct out as [res| | |].
  - destruct (close_spec c dbName s1) as (e' & e2 & H2 & C2).
    destruct (close c dbName s1) as [[] s2]. cbn [fst snd ret] in *.
    eexists; split; [exact (appends_trans _ _ _ _ _ H01 H2)|].
    right. right. split; [exact Hs|]. exists e, (calls e1).
    split; [exact W1|]. split.
    + intros _. exists e'.
      change (Opened dbName None :: SchemaInit e :: e1)
        with ([Opened dbName None; SchemaInit e] ++ e1).
      rewrite !calls_app, C2. reflexivity.
    + intros res' [= <-]. apply R1. reflexivity.
  - destruct (close_spec c dbName s1) as (e' & e2 & H2 & C2).
    destruct (close c dbName s1) as [[] s2]. cbn [fst snd ret] in *.
    eexists; split; [exact (appends_trans _ _ _ _ _ H01 H2)|].
    right. right. split; [exact Hs|]. exists e, (calls e1).
    split; [exact W1|]. split; [|discriminate].
    intros _. exists e'.
    change (Opened dbName None :: SchemaInit e :: e1)
      with ([Opened dbName None; SchemaInit e] ++ e1).
    rewrite !calls_app, C2. reflexivity.
  - cbn [fst snd ret]. eexists; split; [exact H01|].
    right. right. split; [exact Hs|]. exists e, (calls e1).
    split; [exact W1|]. split; [intros []|discriminate].
  - cbn [fst snd ret]. eexists; split; [exact H01|].
    right. right. split; [exact Hs|]. exists e, (calls e1).
    split; [exact W1|]. split; [intros []|discriminate].
Qed.

(** With a batch size that is not negative the goroutine of [Generate]
    does not panic: [make] is given the smaller of the batch size and of
    what remains, which is positive. *)
Lemma Generate_loop_no_panic (fuel : nat) :
  forall (sent : list (list Event)) (s : Generator * Clock),
    0 <= Generator.batchSize (fst s) ->
    0 <= current (fst s) ->
    totalEvents (fst s) <= max_int64 ->
    fst (Generate_loop fuel sent s) <> Panics.
Proof.
  induction fuel as [|fuel IH]; intros sent [g c] Hb Hc Ht; cbn [fst] in *.
  - cbn [Generate_loop fst]. destruct (_ <? _); discriminate.
  - cbn [Generate_loop fst].
    destruct (Z.ltb_spec (current g) (totalEvents g)) as [Hlt|]; [|discriminate].
    assert (Hrem : sub64 (totalEvents g) (current g) = totalEvents g - current g).
    { unfold sub64, wrap64, max_int64 in *. rewrite Z.mod_small; lia. }
    rewrite Hrem.
    set (size := if totalEvents g - current g <? Generator.batchSize g
                 then totalEvents g - current g else Generator.batchSize g).
    assert (Hsize : 0 <= size <= totalEvents g - current g).
    { unfold size. destruct (Z.ltb_spec (totalEvents g - current g) (Generator.batchSize g)); lia. }
    destruct (Z.ltb_spec size 0) as [|_]; [lia|].
    pose proof (GeneratorFacts.steady_repeatM (Z.to_nat size) generateEvent
                  GeneratorFacts.steady_generateEvent g c) as (H1 & H2 & H3).
    destruct (repeatM (Z.to_nat size) generateEvent (g, c)) as [batch [g1 c1]].
    cbn [fst snd advance] in *.
    apply IH; cbn [fst totalEvents Generator.batchSize current].
    + lia.
    + rewrite H3. unfold add64, wrap64, max_int64 in *. rewrite Z.mod_small; lia.
    + lia.
Qed.

(** So a panic of [parallelInsert] on such a runner is the panic of
    [make(chan, Workers*2)] in the calling goroutine. *)
Lemma parallelInsert_panics_in_caller {RP : Repository Databases}
    (r : Runner) (count logInterval : Z) (fuel : nat) (sched : list nat) (w : World) :
  0 <= BatchSize r ->
  count <= max_int64 ->
  fst (parallelInsert r count logInterval fuel sched w) = Panics ->
  mul64 (Workers r) 2 < 0.
Proof.
  intros Hb Hc. unfold parallelInsert, on_clock, New, bind, ret.
  destruct (time_Now (clock w)) as [t c].
  destruct (Z.ltb_spec (mul64 (Workers r) 2) 0) as [Hneg|_]; [intros _; exact Hneg|].
  destruct (Workers r <=? 0); [cbn [fst]; discriminate|].
  cbn [clock repo history].
  pose proof (Generate_loop_no_panic fuel []
                ({| totalEvents := count; Generator.batchSize := BatchSize r; current := 0;
                    rand := rand_NewSource t |}, c) Hb (Z.le_refl 0) Hc) as Hg.
  unfold Generate.
  destruct (Generate_loop fuel [] _) as [out [g c']]. cbn [fst] in Hg.
  destruct out as [bs| | |]; cbn [lift_outcome fst]; try discriminate; [|congruence].
  destruct (run_pool _ _ _ _ _) as [p w']. destruct (all_left p); cbn [fst]; discriminate.
Qed.

(** X26.  [runBenchmark] closes the connection it opened, once and last.
    For a runner with a batch size of at least one, as [newRunner] builds
    it, a panic of the benchmark is a panic of the calling goroutine, which
    the deferred function follows; then, when the call returns or panics,
    either no constructor was called (the database type is not one of the
    four), or the constructor failed and nothing else was called, or the
    calls are the constructor, [InitSchema], the work of the benchmark and
    then [Close], also when the benchmark panicked. *)
Theorem runBenchmark_closes_what_it_opened (f : Flags) (runner : Runner)
    (dbName : string) (fuel : nat) (preloadSched insertSched : list nat) (ss : Session) :
  1 <= BatchSize runner ->
  ended (fst (runBenchmark f runner dbName fuel preloadSched insertSched ss)) ->
  exists ext,
    appends ss (snd (runBenchmark f runner dbName fuel preloadSched insertSched ss)) ext
    /\ ((~ supported dbName /\ calls ext = [])
        \/ (supported dbName /\ exists err, calls ext = [Opened dbName (Some err)])
        \/ (supported dbName
            /\ exists e work e',
                calls ext = Opened dbName None :: SchemaInit e :: work ++ [Closed e']
                /\ Forall (fun st => is_work st = true) work)).
Proof.
  intros _ He.
  destruct (runBenchmark_spec f runner dbName fuel preloadSched insertSched ss)
    as (ext & Ha & [(Hn & Hc & _)|[(Hs & err & Hc & _)|(Hs & e & work & Hw & Hc & _)]]).
  - exists ext. split; [exact Ha|]. left. auto.
  - exists ext. split; [exact Ha|]. right. left. eauto.
  - destruct (Hc He) as [e' Hc']. exists ext. split; [exact Ha|].
    right. right. split; [exact Hs|]. exists e, work, e'. auto.
Qed.

Lemma work_of_calls (tr : list step) : work_of (calls tr) = work_of tr.
Proof.
  unfold work_of, calls. induction tr as [|st tr IH]; [reflexivity|].
  destruct st as [| |[]| | | | | |]; cbn; rewrite ?IH; reflexivity.
Qed.

Lemma work_of_work (tr : list step) :
  Forall (fun st => is_work st = true) tr -> work_of tr = tr.
Proof.
  induction 1 as [|st tr Hst _ IH]; [reflexivity|].
  cbn. rewrite Hst. unfold work_of in IH. now rewrite IH.
Qed.

Lemma work_of_app (a b : list step) : work_of (a ++ b) = work_of a ++ work_of b.
Proof. apply List.filter_app. Qed.

(** X27.  A result of [runBenchmark] is an error or a benchmark, never
    both.  A result with an error holds nothing else, not even the name
    of the database, and up to the failure the only work done was the
    inserts of a preload, if one was asked for: no query was run and the
    storage statistics were not read.  A result with no error comes after
    a successful [InitSchema]; it has the name and a timestamp, the
    insert figures unless skipped, the query figures unless skipped, and
    the storage statistics were read. *)
Theorem runBenchmark_error_or_benchmark (f : Flags) (runner : Runner)
    (dbName : string) (fuel : nat) (preloadSched insertSched : list nat) (ss : Session)
    (res : Results) :
  fst (runBenchmark f runner dbName fuel preloadSched insertSched ss) = Returns res ->
  exists ext,
    appends ss (snd (runBenchmark f runner dbName fuel preloadSched insertSched ss)) ext
    /\ match Error res with
       | Some _ => failed_early runner res (work_of ext)
       | None => SchemaInit None ∈ ext /\ complete f dbName res ext
       end.
Proof.
  intros Hr.
  destruct (runBenchmark_spec f runner dbName fuel preloadSched insertSched ss)
    as (ext & Ha & [(Hn & Hc & Hf)|[(Hs & err & Hc & Hf)|(Hs & e & work & Hw & Hc & Hf)]]);
    exists ext; (split; [exact Ha|]).
  - rewrite Hr in Hf. injection Hf as ->. cbn.
    eexists. split; [reflexivity|]. rewrite <- work_of_calls, Hc.
    split; [constructor|reflexivity].
  - rewrite Hr in Hf. injection Hf as ->. cbn.
    eexists. split; [reflexivity|]. rewrite <- work_of_calls, Hc.
    split; [constructor|reflexivity].
  - assert (He : ended (fst (runBenchmark f runner dbName fuel preloadSched
                               insertSched ss))) by (rewrite Hr; exact I).
    destruct (Hc He) as [e' Hc'].
    assert (Hwork : work_of ext = work).
    { rewrite <- work_of_calls, Hc'.
      change (Opened dbName None :: SchemaInit e :: work ++ [Closed e'])
        with ([Opened dbName None; SchemaInit e] ++ work ++ [Closed e']).
      rewrite !work_of_app, (work_of_work work Hw). cbn. apply app_nil_r. }
    assert (Hin : forall st, st ∈ calls ext -> st ∈ ext).
    { intros st Hst. apply list_elem_of_In, List.filter_In in Hst.
      apply list_elem_of_In, Hst. }
    destruct (Hf res Hr) as [Hfail|[-> Hcomp]].
    + destruct Hfail as (err & -> & Hi & Hp). cbn.
      exists err. rewrite Hwork. auto.
    + destruct Hcomp as (H1 & H2 & H3 & H4 & H5 & H6). rewrite H3. split.
      * apply Hin. rewrite Hc'. rewrite !elem_of_cons. auto.
      * unfold complete. split_and!; try assumption.
        apply Hin. rewrite Hc'. rewrite !elem_of_cons, elem_of_app. auto.
Qed.

Lemma cleanupEach_spec (dbs : list string) (ss : Session) :
  exists ext, appends ss (snd (cleanupEach dbs ss)) ext /\ cleaned dbs (calls ext).
Proof.
  revert ss. induction dbs as [|dbName rest IH]; intros ss.
  { exists []. split; [apply appends_refl|constructor]. }
  cbn [cleanupEach]. unfold bind.
  destruct (newRepo_cases dbName ss) as [[Hn Hr]|[Hs Ha]].
  { rewrite Hr.
    pose proof (main_log_appends
                  ("Failed to connect to " +:+ dbName +:+ " for cleanup: "
                   +:+ ("unsupported database type: " +:+ dbName)) ss) as H1.
    destruct (main_log _ ss) as [[] s1]. cbn [snd] in H1.
    destruct (IH s1) as (e2 & H2 & C2).
    eexists; split; [exact (appends_trans _ _ _ _ _ H1 H2)|].
    rewrite calls_app. cbn [app]. rewrite calls_log. cbn [app].
    apply cleaned_unknown; assumption. }
  destruct (newRepo dbName ss) as [r s0]. cbn [fst snd] in Ha.
  destruct r as [err|c]; cbn [error_of] in Ha.
  { pose proof (main_log_appends
                  ("Failed to connect to " +:+ dbName +:+ " for cleanup: " +:+ err) s0)
      as H1.
    destruct (main_log _ s0) as [[] s1]. cbn [snd] in H1.
    destruct (IH s1) as (e2 & H2 & C2).
    eexists; split;
      [exact (appends_trans _ _ _ _ _ (appends_trans _ _ _ _ _ Ha H1) H2)|].
    rewrite !calls_app. cbn [app]. rewrite calls_log. cbn [app].
    apply (cleaned_unreachable dbName err); assumption. }
  pose proof (on_databases_appends (conn_Cleanup c) s0) as H1.
  destruct (on_databases (conn_Cleanup c) s0) as [e s1]. cbn [snd] in H1.
  pose proof (record_appends (CleanedUp e) s1) as H2.
  destruct (record (CleanedUp e) s1) as [[] s2]. cbn [snd] in H2.
  assert (H3 : exists line s3,
             (match e with
              | Some err => main_log ("Failed to cleanup " +:+ dbName +:+ ": " +:+ err)
              | None => main_log ("Cleaned up " +:+ dbName)
              end) s2 = (tt, s3)
             /\ appends s2 s3 [Ran (Logged line)]).
  { destruct e as [err|]; eexists _, _; (split; [reflexivity|apply main_log_appends]). }
  destruct H3 as (line & s3 & -> & H3).
  destruct (close_spec c dbName s3) as (e' & e4 & H4 & C4).
  destruct (close c dbName s3) as [[] s4]. cbn [snd] in H4.
  destruct (IH s4) as (e5 & H5 & C5).
  pose proof (appends_trans _ _ _ _ _
                (appends_trans _ _ _ _ _
                   (appends_trans _ _ _ _ _
                      (appends_trans _ _ _ _ _ (appends_trans _ _ _ _ _ Ha H1) H2) H3)
                   H4) H5) as H.
  eexists; split; [exact H|].
  rewrite !calls_app, C4, calls_log. cbn.
  apply (cleaned_reached dbName e e'); assumption.
Qed.

(** X28.  [cleanupDatabases] goes through the whole list whatever fails:
    for each database in turn it calls nothing when the type is not one
    of the four, only the constructor when that fails, and otherwise the
    constructor, [Cleanup] and [Close], [Close] also after a [Cleanup]
    that failed.  No connection is left open. *)
Theorem cleanupDatabases_cleans_each (dbs : list string) (ss : Session) :
  exists ext,
    appends ss (snd (cleanupDatabases dbs ss)) ext /\ cleaned dbs (calls ext).
Proof.
  unfold cleanupDatabases, bind.
  pose proof (main_log_appends "Cleaning up databases..." ss) as H1.
  destruct (main_log _ ss) as [[] s1]. cbn [snd] in H1.
  destruct (cleanupEach_spec dbs s1) as (e2 & H2 & C2).
  eexists; split; [exact (appends_trans _ _ _ _ _ H1 H2)|].
  rewrite calls_app, calls_log. exact C2.
Qed.

Lemma print_appends (line : string) (ss : Session) :
  appends ss (snd (print line ss)) [Printed line].
Proof. reflexivity. Qed.

Lemma calls_printed (line : string) : calls [Printed line] = [].
Proof. reflexivity. Qed.

Lemma command_spec (args : list string) (ss : Session) :
  appends ss (snd (command args ss)) [Command args (fst (command args ss))].
Proof.
  unfold command, bind, on_databases, record, ret, appends.
  destruct (exec_Run args (databases ss)). reflexivity.
Qed.

Lemma StartService_spec (service : string) (ss : Session) :
  exists ext,
    appends ss (snd (StartService service ss)) ext
    /\ calls ext = [Command (docker_up service) (fst (StartService service ss))].
Proof.
  unfold StartService, bind, logInfof.
  pose proof (print_appends
                (cBlue +:+ "[orchestrator] " +:+ cReset
                 +:+ ("Starting " +:+ service +:+ "...") +:+ newline) ss) as H1.
  destruct (print _ ss) as [[] s1]. cbn [snd] in H1.
  pose proof (command_spec (docker_up service) s1) as H2.
  eexists; split; [exact (appends_trans _ _ _ _ _ H1 H2)|]. reflexivity.
Qed.

(** X29.  [StopService] runs [docker-compose stop] and then
    [docker-compose rm -f], the second whatever the first returned, and
    returns the error of the second: a failure of [stop] is printed and
    not reported to the caller. *)
Theorem StopService_reports_rm_only (service : string) (ss : Session) :
  exists ext e,
    appends ss (snd (StopService service ss)) ext
    /\ calls ext = [Command (docker_stop service) e;
                    Command (docker_rm service) (fst (StopService service ss))].
Proof.
  unfold StopService, bind, logWarnf.
  pose proof (print_appends
                (cYellow +:+ "⚠ " +:+ cReset
                 +:+ ("Stopping " +:+ service +:+ " to free memory...") +:+ newline) ss)
    as H1.
  destruct (print _ ss) as [[] s1]. cbn [snd] in H1.
  pose proof (command_spec (docker_stop service) s1) as H2.
  destruct (command (docker_stop service) s1) as [e1 s2]. cbn [fst snd] in H2.
  pose proof (appends_trans _ _ _ _ _ H1 H2) as H12.
  pose proof (command_spec (docker_rm service)) as H4.
  destruct e1 as [err|].
  - unfold logErrf.
    pose proof (print_appends (cRed +:+ "✗ " +:+ cReset +:+ err +:+ newline) s2) as H3.
    destruct (print _ s2) as [[] s3]. cbn [snd] in H3.
    eexists _, _.
    split; [exact (appends_trans _ _ _ _ _ (appends_trans _ _ _ _ _ H12 H3) (H4 s3))|].
    reflexivity.
  - cbn [ret]. eexists _, _.
    split; [exact (appends_trans _ _ _ _ _ H12 (H4 s2))|]. reflexivity.
Qed.

Lemma stop_logged_spec (service : string) (ss : Session) :
  exists ext e1 e2,
    appends ss (snd (stop_logged service ss)) ext
    /\ calls ext = [Command (docker_stop service) e1; Command (docker_rm service) e2].
Proof.
  unfold stop_logged, StopService, bind, logWarnf.
  pose proof (print_appends
                (cYellow +:+ "⚠ " +:+ cReset
                 +:+ ("Stopping " +:+ service +:+ " to free memory...") +:+ newline) ss)
    as H1.
  destruct (print _ ss) as [[] s1]. cbn [snd] in H1.
  pose proof (command_spec (docker_stop service) s1) as H2.
  destruct (command (docker_stop service) s1) as [e1 s2]. cbn [fst snd] in H2.
  pose proof (appends_trans _ _ _ _ _ H1 H2) as H12.
  assert (H3 : exists s3 ext3,
             (match e1 with
              | Some err => logErrf err
              | None => ret tt
              end) s2 = (tt, s3)
             /\ appends s2 s3 ext3 /\ calls ext3 = []).
  { destruct e1 as [err|].
    - eexists _, _. split; [reflexivity|]. split; [apply print_appends|reflexivity].
    - eexists _, _. split; [reflexivity|]. split; [apply appends_refl|reflexivity]. }
  destruct H3 as (s3 & ext3 & -> & H3 & C3).
  pose proof (command_spec (docker_rm service) s3) as H4.
  destruct (command (docker_rm service) s3) as [e2 s4]. cbn [fst snd] in H4.
  pose proof (appends_trans _ _ _ _ _ (appends_trans _ _ _ _ _ H12 H3) H4) as H.
  assert (H5 : exists s5 ext5,
             (match e2 with
              | Some err => main_log ("Failed to stop orchestrator: " +:+ err)
              | None => ret tt
              end) s4 = (tt, s5)
             /\ appends s4 s5 ext5 /\ calls ext5 = []).
  { destruct e2 as [err|].
    - eexists _, _. split; [reflexivity|]. split; [apply main_log_appends|reflexivity].
    - eexists _, _. split; [reflexivity|]. split; [apply appends_refl|reflexivity]. }
  destruct H5 as (s5 & ext5 & -> & H5 & C5).
  eexists _, e1, e2. split; [exact (appends_trans _ _ _ _ _ H H5)|].
  rewrite !calls_app, C3, C5. reflexivity.
Qed.

Lemma poll_outcome (fuel : nat) (s : Surroundings) (svc : DBService) (p : Polling) :
  poll fuel s svc p = OutOfFuel \/ exists r, poll fuel s svc p = Returns r.
Proof.
  revert p. induction fuel as [|fuel IH]; intros p; [left; reflexivity|].
  cbn [poll]. destruct (select s p) as [[[| |]|] p']; eauto.
  destruct (probe s (length (started p')) (at_time p')) as [took [e|]]; eauto.
Qed.

Lemma WaitReady_outcome (fuel : nat) (s : Surroundings) (svc : DBService) (t0 : Time) :
  Orchestrator.WaitReady fuel s svc t0 = OutOfFuel
  \/ exists r, Orchestrator.WaitReady fuel s svc t0 = Returns r.
Proof.
  unfold Orchestrator.WaitReady.
  match goal with |- context [match ?c with Some _ => _ | None => _ end = OutOfFuel] =>
    destruct c end; eauto using poll_outcome.
Qed.

Lemma WaitReady_logged_spec (fuel : nat) (s : Surroundings) (svc : DBService)
    (t0 : Time) (ss : Session) :
  fst (WaitReady_logged fuel s svc t0 ss) = OutOfFuel
  \/ exists r ext,
      fst (WaitReady_logged fuel s svc t0 ss) = Returns (failure_text <$> err r)
      /\ appends ss (snd (WaitReady_logged fuel s svc t0 ss)) ext
      /\ calls ext = [Waited r].
Proof.
  unfold WaitReady_logged, bind, logInfof.
  pose proof (print_appends
                (cBlue +:+ "[orchestrator] " +:+ cReset
                 +:+ ("Waiting for " +:+ Name svc +:+ " to be ready...") +:+ newline) ss)
    as H1.
  destruct (print _ ss) as [[] s1]. cbn [snd] in H1.
  destruct (WaitReady_outcome fuel s svc t0) as [->|[r ->]]; [left; reflexivity|].
  right. exists r.
  assert (H2 : exists s2 ext2,
             (match err r with
              | None => logOKf (Name svc +:+ " is ready")
              | Some (TimedOut _) => logErrf (timeout_error svc)
              | Some (Cancelled _) => ret tt
              end) s1 = (tt, s2)
             /\ appends s1 s2 ext2 /\ calls ext2 = []).
  { destruct (err r) as [[|]|].
    - eexists _, _. split; [reflexivity|]. split; [apply appends_refl|reflexivity].
    - eexists _, _. split; [reflexivity|]. split; [apply print_appends|reflexivity].
    - eexists _, _. split; [reflexivity|]. split; [apply print_appends|reflexivity]. }
  destruct H2 as (s2 & ext2 & -> & H2 & C2).
  pose proof (record_appends (Waited r) s2) as H3.
  destruct (record (Waited r) s2) as [[] s3]. cbn [fst snd ret] in *.
  eexists. split; [reflexivity|].
  split; [exact (appends_trans _ _ _ _ _ (appends_trans _ _ _ _ _ H1 H2) H3)|].
  rewrite !calls_app, C2. reflexivity.
Qed.

Lemma ServiceByName_Name (name : string) (svc : DBService) :
  ServiceByName name = Some svc -> Name svc = name.
Proof.
  unfold ServiceByName. intros H. apply List.find_some in H as [_ H].
  apply String.eqb_eq, H.
Qed.

(** The calls of a benchmark are calls on a database. *)
Lemma runBenchmark_calls (f : Flags) (runner : Runner) (dbName : string)
    (fuel : nat) (preloadSched insertSched : list nat) (ss : Session) :
  ended (fst (runBenchmark f runner dbName fuel preloadSched insertSched ss)) ->
  exists ext,
    appends ss (snd (runBenchmark f runner dbName fuel preloadSched insertSched ss)) ext
    /\ Forall (fun st => on_container st = false) (calls ext).
Proof.
  intros He.
  destruct (runBenchmark_spec f runner dbName fuel preloadSched insertSched ss)
    as (ext & Ha & [(Hn & Hc & _)|[(Hs & err & Hc & _)|(Hs & e & work & Hw & Hc & _)]]);
    exists ext; (split; [exact Ha|]).
  - rewrite Hc. constructor.
  - rewrite Hc. repeat constructor.
  - destruct (Hc He) as [e' ->].
    repeat constructor. apply Forall_app. split; [|repeat constructor].
    eapply Forall_impl; [exact Hw|].
    intros [| |[]| | | | | |]; cbn; congruence.
Qed.

(** What a call of [runManagedBenchmark] that has come to an end did and
    returned. *)
Lemma runManagedBenchmark_spec (f : Flags) (runner : Runner) (svc : DBService)
    (waitFuel : nat) (s : Surroundings) (t0 : Time)
    (fuel : nat) (preloadSched insertSched : list nat) (ss : Session) :
  let run := runManagedBenchmark f runner svc waitFuel s t0 fuel preloadSched
               insertSched ss in
  ended (fst run) ->
  exists ext, appends ss (snd run) ext /\ managed svc (fst run) (calls ext).
Proof.
  cbv zeta. unfold managed, runManagedBenchmark, bind.
  destruct (StartService_spec (Service svc) ss) as (e0 & H0 & C0).
  destruct (StartService (Service svc) ss) as [e s0]. cbn [fst snd] in *.
  destruct e as [err|].
  { intros _. exists e0. split; [exact H0|]. left. exists err. auto. }
  destruct (WaitReady_logged_spec waitFuel s svc t0 s0) as [Hw|(r & e1 & Hw & H1 & C1)].
  { destruct (WaitReady_logged waitFuel s svc t0 s0) as [w s1]. cbn [fst] in Hw.
    subst w. intros []. }
  destruct (WaitReady_logged waitFuel s svc t0 s0) as [w s1]. cbn [fst snd] in *.
  subst w. pose proof (appends_trans _ _ _ _ _ H0 H1) as H01.
  destruct (err r) as [failure|] eqn:Hr; cbn [fmap option_fmap option_map].
  { intros _.
    destruct (stop_logged_spec (Service svc) s1) as (e2 & x1 & x2 & H2 & C2).
    destruct (stop_logged (Service svc) s1) as [[] s2]. cbn [fst snd ret] in *.
    eexists; split; [exact (appends_trans _ _ _ _ _ H01 H2)|].
    right. left. exists r, failure, x1, x2. split; [exact Hr|].
    split; [|reflexivity]. rewrite !calls_app, C0, C1, C2. reflexivity. }
  unfold colorLogf.
  pose proof (print_appends
                (cGreen +:+ ("Running benchmark for " +:+ Name svc +:+ "...")
                 +:+ cReset +:+ newline) s1) as H2.
  destruct (print _ s1) as [[] s2]. cbn [snd] in H2.
  pose proof (appends_trans _ _ _ _ _ H01 H2) as H02.
  pose proof (runBenchmark_calls f runner (Name svc) fuel preloadSched insertSched s2)
    as Hb.
  destruct (runBenchmark f runner (Name svc) fuel preloadSched insertSched s2)
    as [out s3].
  cbn [fst snd] in Hb.
  destruct out as [result| | |]; cbn [fst snd ret];
    [intros _ | intros _ | intros [] | intros []].
  - destruct (Hb I) as (e3 & H3 & W3).
    pose proof (on_wall_appends time_Now s3) as H4.
    destruct (on_wall time_Now s3) as [t s4]. cbn [snd] in H4.
    destruct (stop_logged_spec (Service svc) s4) as (e5 & x1 & x2 & H5 & C5).
    destruct (stop_logged (Service svc) s4) as [[] s5]. cbn [fst snd ret] in *.
    pose proof (appends_trans _ _ _ _ _
                  (appends_trans _ _ _ _ _ (appends_trans _ _ _ _ _ H02 H3) H4) H5)
      as H.
    eexists; split; [exact H|].
    right. right. exists r, (calls e3). split; [exact Hr|]. split; [exact W3|].
    split; [reflexivity|]. split; [eauto|]. exists x1, x2.
    rewrite !calls_app, C0, C1, C5, calls_printed. cbn [app calls List.filter].
    rewrite app_nil_r. reflexivity.
  - destruct (Hb I) as (e3 & H3 & W3).
    eexists; split; [exact (appends_trans _ _ _ _ _ H02 H3)|].
    right. right. exists r, (calls e3). split; [exact Hr|]. split; [exact W3|].
    rewrite !calls_app, C0, C1, calls_printed. reflexivity.
Qed.

(** X30.  Managed mode stops what it started.  For a name [ServiceByName]
    does not know, [runManagedDB] runs nothing.  Otherwise, when its call
    returns: if [docker-compose up] failed nothing else was run; if the
    service did not become ready it was stopped and removed; if it became
    ready the benchmark ran, calling on the database only, and the service
    was stopped and removed after it, [rm] whatever [stop] returned.  The
    result carries the name of the database in each case, and the error
    of [up] or of the wait when there was one.  Only a panic of the
    benchmark leaves the service up: nothing is run after it. *)
Theorem runManagedDB_stops_what_it_started (f : Flags) (runner : Runner)
    (dbName : string) (waitFuel : nat) (s : Surroundings) (t0 : Time)
    (fuel : nat) (preloadSched insertSched : list nat) (ss : Session) :
  ended (fst (runManagedDB f runner dbName waitFuel s t0 fuel preloadSched
                insertSched ss)) ->
  exists ext,
    appends ss
      (snd (runManagedDB f runner dbName waitFuel s t0 fuel preloadSched
              insertSched ss)) ext
    /\ match ServiceByName dbName with
       | None =>
           calls ext = []
           /\ fst (runManagedDB f runner dbName waitFuel s t0 fuel preloadSched
                     insertSched ss)
              = Returns (named_error dbName ("unknown database: " +:+ dbName))
       | Some svc =>
           Name svc = dbName
           /\ managed svc
                (fst (runManagedDB f runner dbName waitFuel s t0 fuel preloadSched
                        insertSched ss))
                (calls ext)
       end.
Proof.
  unfold runManagedDB, colorLogf.
  destruct (ServiceByName dbName) as [svc|] eqn:Hsvc.
  2:{ intros _. unfold bind.
      pose proof (print_appends
                    (cRed +:+ ("Unknown database: " +:+ dbName +:+ ", skipping")
                     +:+ cReset +:+ newline) ss) as H1.
      destruct (print _ ss) as [[] s1]. cbn [fst snd ret] in *.
      eexists; split; [exact H1|]. split; reflexivity. }
  unfold bind.
  pose proof (print_appends
                (cBlue +:+ "================================================"
                 +:+ cReset +:+ newline) ss) as H1.
  destruct (print _ ss) as [[] s1]. cbn [snd] in H1.
  pose proof (print_appends (cBlue +:+ ("  " +:+ dbName) +:+ cReset +:+ newline) s1)
    as H2.
  destruct (print _ s1) as [[] s2]. cbn [snd] in H2.
  pose proof (print_appends
                (cBlue +:+ "================================================"
                 +:+ cReset +:+ newline) s2) as H3.
  destruct (print _ s2) as [[] s3]. cbn [snd] in H3.
  pose proof (appends_trans _ _ _ _ _ (appends_trans _ _ _ _ _ H1 H2) H3) as H13.
  pose proof (runManagedBenchmark_spec f runner svc waitFuel s t0 fuel preloadSched
                insertSched s3) as Hm.
  cbv zeta in Hm.
  destruct (runManagedBenchmark f runner svc waitFuel s t0 fuel preloadSched
              insertSched s3) as [out s4].
  cbn [fst snd] in Hm.
  destruct out as [result| | |]; cbn [fst snd ret];
    [intros _ | intros _ | intros [] | intros []].
  - destruct (Hm I) as (e4 & H4 & M4).
    assert (H5 : exists line s5,
               (match Error result with
                | Some err => print (cRed +:+ ("✗ " +:+ dbName +:+ " failed: " +:+ err)
                                     +:+ cReset +:+ newline)
                | None => print (cGreen +:+ ("✓ " +:+ dbName +:+ " benchmark complete")
                                 +:+ cReset +:+ newline)
                end) s4 = (tt, s5)
               /\ appends s4 s5 [Printed line]).
    { destruct (Error result); eexists _, _; (split; [reflexivity|apply print_appends]). }
    destruct H5 as (line & s5 & -> & H5).
    pose proof (print_appends newline s5) as H6.
    destruct (print newline s5) as [[] s6]. cbn [fst snd] in *.
    pose proof (appends_trans _ _ _ _ _
                  (appends_trans _ _ _ _ _ (appends_trans _ _ _ _ _ H13 H4) H5) H6)
      as H.
    eexists; split; [exact H|]. split; [apply ServiceByName_Name, Hsvc|].
    rewrite !calls_app, !calls_printed, !app_nil_r. exact M4.
  - destruct (Hm I) as (e4 & H4 & M4).
    eexists; split; [exact (appends_trans _ _ _ _ _ H13 H4)|].
    split; [apply ServiceByName_Name, Hsvc|].
    rewrite !calls_app, !calls_printed. exact M4.
Qed.

End WithBackend.

Import MoreBackends MoreFlags Sample.

Lemma runBenchmark_closes_what_it_opened_witness :
  exists ext,
    appends fresh_session
      (snd (runBenchmark default_flags broken_runner "clickhouse" 10 [] one_worker
              fresh_session)) ext
    /\ ((~ supported "clickhouse" /\ calls ext = [])
        \/ (supported "clickhouse"
            /\ exists err, calls ext = [Opened "clickhouse" (Some err)])
        \/ (supported "clickhouse"
            /\ exists e work e',
                calls ext = Opened "clickhouse" None :: SchemaInit e :: work ++ [Closed e']
                /\ Forall (fun st => is_work st = true) work)).
Proof.
  apply (runBenchmark_closes_what_it_opened default_flags broken_runner "clickhouse"
           10 [] one_worker fresh_session).
  - apply Z.leb_le. reflexivity.
  - vm_compute. exact I.
Defined.

(** With a negative number of workers the insert benchmark panics; the
    connection is closed all the same. *)
Example runBenchmark_panics_and_closes :
  fst (runBenchmark default_flags broken_runner "clickhouse" 10 [] one_worker
         fresh_session) = Panics
  /\ calls (trace (snd (runBenchmark default_flags broken_runner "clickhouse" 10 []
                          one_worker fresh_session)))
     = [Opened "clickhouse" None; SchemaInit None; Closed None].
Proof. split; vm_compute; reflexivity. Qed.

Lemma tiny_run :
  fst (runBenchmark default_flags tiny_runner "postgres" 10 [] one_worker fresh_session)
  = Returns tiny_result.
Proof. vm_compute. reflexivity. Defined.

Lemma runBenchmark_error_or_benchmark_witness :
  exists ext,
    appends fresh_session
      (snd (runBenchmark default_flags tiny_runner "postgres" 10 [] one_worker
              fresh_session)) ext
    /\ match Error tiny_result with
       | Some _ => failed_early tiny_runner tiny_result (work_of ext)
       | None => SchemaInit None ∈ ext /\ complete default_flags "postgres" tiny_result ext
       end.
Proof.
  apply (runBenchmark_error_or_benchmark default_flags tiny_runner "postgres" 10 []
           one_worker fresh_session tiny_result).
  exact tiny_run.
Defined.

(** A cleanup over four names of which one cannot be reached, one is
    unknown and one fails to clean up. *)
Example cleanupDatabases_of_four :
  trace (snd (cleanupDatabases ["postgres"; "mongodb"; "redis"; "clickhouse"]%string
                fresh_session))
  = [Ran (Logged "Cleaning up databases...");
     Opened "postgres" None; CleanedUp None; Ran (Logged "Cleaned up postgres");
     Closed None;
     Opened "mongodb" (Some "connection refused");
     Ran (Logged "Failed to connect to mongodb for cleanup: connection refused");
     Ran (Logged
            "Failed to connect to redis for cleanup: unsupported database type: redis");
     Opened "clickhouse" None; CleanedUp (Some "timeout");
     Ran (Logged "Failed to cleanup clickhouse: timeout"); Closed None]%string.
Proof. vm_compute. reflexivity. Qed.

Import MoreServices.

Lemma runManagedDB_stops_what_it_started_witness :
  exists ext,
    appends fresh_session
      (snd (runManagedDB default_flags tiny_runner "postgres" 40 ready_at_third 0 10 []
              one_worker fresh_session)) ext
    /\ match ServiceByName "postgres" with
       | None =>
           calls ext = []
           /\ fst (runManagedDB default_flags tiny_runner "postgres" 40 ready_at_third
                     0 10 [] one_worker fresh_session)
              = Returns (named_error "postgres" ("unknown database: " +:+ "postgres"))
       | Some svc =>
           Name svc = "postgres"%string
           /\ managed svc
                (fst (runManagedDB default_flags tiny_runner "postgres" 40
                        ready_at_third 0 10 [] one_worker fresh_session))
                (calls ext)
       end.
Proof.
  apply (runManagedDB_stops_what_it_started default_flags tiny_runner "postgres" 40
           ready_at_third 0 10 [] one_worker fresh_session).
  vm_compute. exact I.
Defined.

(** With a runner on which the insert benchmark panics, the service
    stays up: after the benchmark's [Close] no command is run. *)
Example runManagedDB_panic_leaves_the_service_up :
  fst (runManagedDB default_flags broken_runner "postgres" 40 ready_at_third 0 10 []
         one_worker fresh_session) = Panics
  /\ calls (trace (snd (runManagedDB default_flags broken_runner "postgres" 40
                          ready_at_third 0 10 [] one_worker fresh_session)))
     = [Command (docker_up "postgres") None; Waited ready_at_third_return;
        Opened "postgres" None; SchemaInit None; Closed None].
Proof. split; vm_compute; reflexivity. Qed.

End RunMore.
